(** * Run-contract state machine and verification engine

    A shallow embedding of [utils/run_contract.py]: the contract document
    (tasks and assets), the existence checker and corruption auditor over an
    abstract host (file system, [gsutil], JSON parser), the lifecycle
    operations (record-produced, mark-task-status, preflight, finalize) and
    the folder partitioner, followed by the properties of the status rules,
    the rollups and the completion codes.

    Python strings are modelled by [string] (characters with code below 256);
    dictionaries used as indices by [gmap]; lists that the code mutates in
    place by [list] with positional lookup and update. *)

From Stdlib Require Import ZArith Ascii DecimalString.
From Stdlib Require String.
From stdpp Require Import base option list gmap strings sorting fin_maps.

Local Open Scope Z_scope.

(** ** Python string primitives used by the module *)

Module Py.

(** [str.isspace] on one character (code points below 256). *)
Definition isspace (c : ascii) : bool :=
  let n := N_of_ascii c in
  ((9 <=? n) && (n <=? 13) || (28 <=? n) && (n <=? 32)
   || (n =? 133) || (n =? 160))%N.

Fixpoint lstrip_by (p : ascii → bool) (s : string) : string :=
  match s with
  | String c s' => if p c then lstrip_by p s' else s
  | EmptyString => EmptyString
  end.

Definition rstrip_by (p : ascii → bool) (s : string) : string :=
  String.rev (lstrip_by p (String.rev s)).

(** [s.strip()] *)
Definition strip (s : string) : string := rstrip_by isspace (lstrip_by isspace s).

(** [s.rstrip("/")] *)
Definition rstrip_slash (s : string) : string :=
  rstrip_by (λ c, bool_decide (c = "/"%char)) s.

(** [s.startswith(p)] *)
Definition startswith (p s : string) : bool := String.prefix p s.

(** [s.endswith(p)] *)
Definition endswith (p s : string) : bool :=
  String.prefix (String.rev p) (String.rev s).

(** [sub in s] *)
Fixpoint contains (sub s : string) : bool :=
  match s with
  | EmptyString => String.prefix sub EmptyString
  | String _ s' => String.prefix sub s || contains sub s'
  end.

Definition lower_char (c : ascii) : ascii :=
  let n := N_of_ascii c in
  if ((65 <=? n) && (n <=? 90)
      || (192 <=? n) && (n <=? 222) && negb (n =? 215))%N
  then ascii_of_N (n + 32) else c.

(** [s.lower()] *)
Fixpoint lower (s : string) : string :=
  match s with
  | EmptyString => EmptyString
  | String c s' => String (lower_char c) (lower s')
  end.

(** [s.replace(old, new)] for a non-empty [old]: left to right, without
    overlap.  [skip] counts the characters of a match still to be dropped. *)
Fixpoint replace_go (old new : string) (skip : nat) (s : string) : string :=
  match s with
  | EmptyString => EmptyString
  | String c s' =>
      match skip with
      | S k => replace_go old new k s'
      | O =>
          if String.prefix old s
          then String.append new (replace_go old new (Nat.pred (String.length old)) s')
          else String c (replace_go old new O s')
      end
  end.

Definition replace (old new s : string) : string := replace_go old new O s.

(** [s.rfind("/")]: position of the last slash, or [-1]. *)
Fixpoint rfind_slash_go (s : string) (pos : Z) (last : Z) : Z :=
  match s with
  | EmptyString => last
  | String c s' =>
      rfind_slash_go s' (pos + 1) (if bool_decide (c = "/"%char) then pos else last)
  end.

Definition rfind_slash (s : string) : Z := rfind_slash_go s 0 (-1).

(** [s[:n]] for a non-negative [n]. *)
Definition slice_to (n : Z) (s : string) : string :=
  String.substring 0 (Z.to_nat n) s.

(** [s[n:]] for a non-negative [n]. *)
Fixpoint slice_from (n : nat) (s : string) : string :=
  match n, s with
  | O, _ => s
  | S k, String _ s' => slice_from k s'
  | S _, EmptyString => EmptyString
  end.

(** [s.split("/")] *)
Fixpoint split_slash_go (cur : string) (s : string) : list string :=
  match s with
  | EmptyString => [String.rev cur]
  | String c s' =>
      if bool_decide (c = "/"%char)
      then String.rev cur :: split_slash_go EmptyString s'
      else split_slash_go (String c cur) s'
  end.

Definition split_slash (s : string) : list string := split_slash_go EmptyString s.

(** ["/".join(parts)] *)
Fixpoint join_slash (parts : list string) : string :=
  match parts with
  | [] => EmptyString
  | [p] => p
  | p :: rest => String.append p (String "/"%char (join_slash rest))
  end.

(** Line boundaries of [str.splitlines]. *)
Definition is_linebreak (c : ascii) : bool :=
  let n := N_of_ascii c in
  ((10 <=? n) && (n <=? 13) || (28 <=? n) && (n <=? 30) || (n =? 133))%N.

(** [s.splitlines()]; a carriage return followed by a line feed is one
    boundary, and a final boundary opens no empty line. *)
Fixpoint splitlines_go (cur : string) (after_cr : bool) (s : string) : list string :=
  match s with
  | EmptyString =>
      match cur with EmptyString => [] | _ => [String.rev cur] end
  | String c s' =>
      if after_cr && bool_decide (c = "010"%char)
      then splitlines_go cur false s'
      else if is_linebreak c
      then String.rev cur :: splitlines_go EmptyString (bool_decide (c = "013"%char)) s'
      else splitlines_go (String c cur) false s'
  end.

Definition splitlines (s : string) : list string := splitlines_go EmptyString false s.

(** [str(n)] for an integer. *)
Definition str_of_int (z : Z) : string := NilZero.string_of_int (Z.to_int z).

(** [any(ch in part for ch in ["*", "?", "[", "]"])] *)
Fixpoint has_wildcard (s : string) : bool :=
  match s with
  | EmptyString => false
  | String c s' =>
      bool_decide (c = "*"%char) || bool_decide (c = "?"%char)
      || bool_decide (c = "["%char) || bool_decide (c = "]"%char)
      || has_wildcard s'
  end.

End Py.

(** ** Exceptions

    A call that may raise returns [Raise]; [try_except] is the
    [try: ... except Exception: return d] pattern. *)

Inductive exc (A : Type) : Type :=
| Val (a : A)
| Raise (msg : string).
Arguments Val {A} a.
Arguments Raise {A} msg.

#[global] Instance exc_ret : MRet exc := λ A a, Val a.
#[global] Instance exc_bind : MBind exc := λ A B f m,
  match m with
  | Val a => f a
  | Raise msg => Raise msg
  end.

Definition try_except {A} (m : exc A) (d : A) : A :=
  match m with
  | Val a => a
  | Raise _ => d
  end.

(** ** JSON values, as [json.loads] returns them *)

#[local] Set Warnings "-register-all".

Inductive json : Type :=
| JNull
| JBool (b : bool)
| JInt (z : Z)
| JFloat (mantissa exponent : Z)
| JStr (s : string)
| JList (l : list json)
| JObj (kv : gmap string json).

(** [bool(v)] *)
Definition truthy (v : json) : bool :=
  match v with
  | JNull => false
  | JBool b => b
  | JInt z => negb (z =? 0)
  | JFloat m _ => negb (m =? 0)
  | JStr s => negb (bool_decide (s = ""))
  | JList l => negb (bool_decide (length l = 0%nat))
  | JObj kv => negb (bool_decide (size kv = 0%nat))
  end.

(** A Python [dict] with string keys, e.g. an error record. *)
Abbreviation dict := (gmap string json).

(** Truth value of an optional string field: [None] and [""] are false. *)
Definition str_truthy (o : option string) : bool :=
  match o with
  | Some (String _ _) => true
  | _ => false
  end.

(** Truth value of an optional dictionary: [None] and [{}] are false. *)
Definition dict_truthy (o : option dict) : bool :=
  match o with
  | Some d => negb (bool_decide (size d = 0%nat))
  | None => false
  end.

(** [str(o or d)] *)
Definition str_or (o : option string) (d : string) : string :=
  if str_truthy o then default d o else d.

(** [a or b] on optional strings. *)
Definition or_str (a b : option string) : option string :=
  if str_truthy a then a else b.

(** ** The contract document *)

Module Task.
Record t : Type := Build {
  task_id : string;
  labels : dict;
  status : option string;
  created_at : option string;
  started_at : option string;
  finished_at : option string;
  error : option dict;
  asset_ids : list string;
}.

Definition set_status (v : option string) (x : t) : t :=
  Build (task_id x) (labels x) v (created_at x) (started_at x) (finished_at x)
        (error x) (asset_ids x).
Definition set_started_at (v : option string) (x : t) : t :=
  Build (task_id x) (labels x) (status x) (created_at x) v (finished_at x)
        (error x) (asset_ids x).
Definition set_finished_at (v : option string) (x : t) : t :=
  Build (task_id x) (labels x) (status x) (created_at x) (started_at x) v
        (error x) (asset_ids x).
Definition set_error (v : option dict) (x : t) : t :=
  Build (task_id x) (labels x) (status x) (created_at x) (started_at x)
        (finished_at x) v (asset_ids x).
Definition set_asset_ids (v : list string) (x : t) : t :=
  Build (task_id x) (labels x) (status x) (created_at x) (started_at x)
        (finished_at x) (error x) v.
End Task.

Module Asset.
Record t : Type := Build {
  asset_id : string;
  task_id : string;
  role : string;
  kind : option string;
  required : option bool;
  uri : option string;
  local_path : option string;
  local_glob : option string;
  gcs_glob : option string;
  extra : dict;
  expected : bool;
  produced : bool;
  status : option string;
  created_at : option string;
  exists_ : option bool;
  exists_reason : option string;
  corrupt : option bool;
  corrupt_reason : option string;
  error : option dict;
  matched_outputs : option (list string);
}.

Definition set_task_id (v : string) (x : t) : t :=
  Build (asset_id x) v (role x) (kind x) (required x) (uri x) (local_path x)
        (local_glob x) (gcs_glob x) (extra x) (expected x) (produced x) (status x)
        (created_at x) (exists_ x) (exists_reason x) (corrupt x) (corrupt_reason x)
        (error x) (matched_outputs x).
Definition set_kind (v : option string) (x : t) : t :=
  Build (asset_id x) (task_id x) (role x) v (required x) (uri x) (local_path x)
        (local_glob x) (gcs_glob x) (extra x) (expected x) (produced x) (status x)
        (created_at x) (exists_ x) (exists_reason x) (corrupt x) (corrupt_reason x)
        (error x) (matched_outputs x).
Definition set_required (v : option bool) (x : t) : t :=
  Build (asset_id x) (task_id x) (role x) (kind x) v (uri x) (local_path x)
        (local_glob x) (gcs_glob x) (extra x) (expected x) (produced x) (status x)
        (created_at x) (exists_ x) (exists_reason x) (corrupt x) (corrupt_reason x)
        (error x) (matched_outputs x).
(** The four location descriptors at once. *)
Definition set_locations (u lp lg gg : option string) (x : t) : t :=
  Build (asset_id x) (task_id x) (role x) (kind x) (required x) u lp lg gg
        (extra x) (expected x) (produced x) (status x)
        (created_at x) (exists_ x) (exists_reason x) (corrupt x) (corrupt_reason x)
        (error x) (matched_outputs x).
Definition set_extra (v : dict) (x : t) : t :=
  Build (asset_id x) (task_id x) (role x) (kind x) (required x) (uri x) (local_path x)
        (local_glob x) (gcs_glob x) v (expected x) (produced x) (status x)
        (created_at x) (exists_ x) (exists_reason x) (corrupt x) (corrupt_reason x)
        (error x) (matched_outputs x).
Definition set_produced (v : bool) (x : t) : t :=
  Build (asset_id x) (task_id x) (role x) (kind x) (required x) (uri x) (local_path x)
        (local_glob x) (gcs_glob x) (extra x) (expected x) v (status x)
        (created_at x) (exists_ x) (exists_reason x) (corrupt x) (corrupt_reason x)
        (error x) (matched_outputs x).
Definition set_status (v : option string) (x : t) : t :=
  Build (asset_id x) (task_id x) (role x) (kind x) (required x) (uri x) (local_path x)
        (local_glob x) (gcs_glob x) (extra x) (expected x) (produced x) v
        (created_at x) (exists_ x) (exists_reason x) (corrupt x) (corrupt_reason x)
        (error x) (matched_outputs x).
Definition set_exists (v : option bool) (r : option string) (x : t) : t :=
  Build (asset_id x) (task_id x) (role x) (kind x) (required x) (uri x) (local_path x)
        (local_glob x) (gcs_glob x) (extra x) (expected x) (produced x) (status x)
        (created_at x) v r (corrupt x) (corrupt_reason x)
        (error x) (matched_outputs x).
Definition set_corrupt (v : option bool) (r : option string) (x : t) : t :=
  Build (asset_id x) (task_id x) (role x) (kind x) (required x) (uri x) (local_path x)
        (local_glob x) (gcs_glob x) (extra x) (expected x) (produced x) (status x)
        (created_at x) (exists_ x) (exists_reason x) v r
        (error x) (matched_outputs x).
Definition set_error (v : option dict) (x : t) : t :=
  Build (asset_id x) (task_id x) (role x) (kind x) (required x) (uri x) (local_path x)
        (local_glob x) (gcs_glob x) (extra x) (expected x) (produced x) (status x)
        (created_at x) (exists_ x) (exists_reason x) (corrupt x) (corrupt_reason x)
        v (matched_outputs x).
Definition set_matched_outputs (v : option (list string)) (x : t) : t :=
  Build (asset_id x) (task_id x) (role x) (kind x) (required x) (uri x) (local_path x)
        (local_glob x) (gcs_glob x) (extra x) (expected x) (produced x) (status x)
        (created_at x) (exists_ x) (exists_reason x) (corrupt x) (corrupt_reason x)
        (error x) v.

(** [bool(asset.get("required", True))] *)
Definition is_required (x : t) : bool := default true (required x).

(** [asset.get("uri") or asset.get("local_path") or asset.get("local_glob")
    or asset.get("gcs_glob")], as a truth value. *)
Definition location_declared (x : t) : bool :=
  str_truthy (uri x) || str_truthy (local_path x)
  || str_truthy (local_glob x) || str_truthy (gcs_glob x).
End Asset.

(** ** The host: file system, the [gsutil] command, JSON parsing *)

Record ProcResult : Type := {
  returncode : Z;
  stdout : string;
  stderr : string;
}.

Record World : Type := {
  (** [_utc_now_iso()] *)
  utc_now_iso : string;
  (** [_command_exists(cmd)] *)
  command_exists : string → bool;
  (** [subprocess.run(cmd, capture_output=True)] *)
  run : list string → ProcResult;
  (** [_normalize_local_path(path)] *)
  _normalize_local_path : string → string;
  (** [Path(p).exists()] and [Path(p).is_file()] *)
  path_exists : string → bool;
  path_is_file : string → bool;
  (** [path.stat().st_size] and [path.read_text(encoding="utf-8")] *)
  path_size : string → exc Z;
  path_read_text : string → exc string;
  (** [glob.glob(pattern, recursive=True)] *)
  glob_recursive : string → list string;
  (** [json.loads(text)] and [data.decode("utf-8", errors="replace")] *)
  json_loads : string → exc json;
  decode_utf8_replace : string → string;
  (** [hashlib.sha1(seed.encode("utf-8")).hexdigest()[:12]] *)
  sha1_hex12 : string → string;
}.

(** ** Location resolver *)

(** The loop [while "//" in rest: rest = rest.replace("//", "/")]; every
    round shortens [rest], so [String.length rest] rounds are enough
    (see [collapse_slashes_done]). *)
Fixpoint collapse_slashes (fuel : nat) (rest : string) : string :=
  match fuel with
  | O => rest
  | S k =>
      if Py.contains "//" rest
      then collapse_slashes k (Py.replace "//" "/" rest)
      else rest
  end.

Definition _normalize_gs_uri (uri : string) : string :=
  let value := Py.strip uri in
  if negb (Py.startswith "gs://" value) then value
  else
    let rest := Py.slice_from 5 value in
    "gs://" +:+ Py.rstrip_slash (collapse_slashes (String.length rest) rest).

(** [sorted(set(xs))] on strings. *)
Definition sorted_set (xs : list string) : list string :=
  merge_sort String.le (remove_dups xs).

(** [bool(xs)] on a list. *)
Definition nonempty {A} (xs : list A) : bool :=
  match xs with
  | [] => false
  | _ :: _ => true
  end.

(** [_parse_bool(raw, default)] *)
Definition _parse_bool (raw : option string) (default : bool) : bool :=
  match raw with
  | None => default
  | Some r =>
      let value := Py.lower (Py.strip r) in
      if bool_decide (value ∈ ["1"; "true"; "yes"; "y"; "on"]) then true
      else if bool_decide (value ∈ ["0"; "false"; "no"; "n"; "off"]) then false
      else default
  end.

Section Existence.
Variable W : World.

(** One line of the listing: kept when it names an object. *)
Definition ls_item (line : string) : option string :=
  let item := Py.strip line in
  if bool_decide (item = "") || negb (Py.startswith "gs://" item) then None
  else if Py.endswith "/" item then None
  else Some (_normalize_gs_uri item).

Definition _gsutil_ls (pattern : string) : option (list string) * string :=
  if negb (command_exists W "gsutil") then (None, "gsutil_unavailable")
  else
    let proc := run W ["gsutil"; "ls"; "-r"; pattern] in
    if negb (returncode proc =? 0) then
      let err := Py.replace (String "010" "") " " (Py.strip (stderr proc)) in
      if Py.contains "matched no objects" (Py.lower err) then (Some [], "gcs_glob")
      else
        (None,
         "gsutil_ls_failed:"
           +:+ (if bool_decide (err = "") then Py.str_of_int (returncode proc) else err))
    else
      (Some (sorted_set (omap ls_item (Py.splitlines (stdout proc)))), "gcs_glob").

Definition _gsutil_exists (uri : string) : option bool * string :=
  if negb (command_exists W "gsutil") then (None, "gsutil_unavailable")
  else if returncode (run W ["gsutil"; "-q"; "stat"; uri]) =? 0
  then (Some true, "gcs_uri")
  else (Some false, "gcs_uri").

Definition _asset_exists (asset : Asset.t) : option bool * string * list string :=
  let local_path := Asset.local_path asset in
  let uri := Asset.uri asset in
  let local_glob := Asset.local_glob asset in
  let gcs_glob := Asset.gcs_glob asset in
  if str_truthy local_path then
    let resolved := _normalize_local_path W (default "" local_path) in
    let ex := path_exists W resolved in
    (Some ex, "local_path", if ex then [resolved] else [])
  else if str_truthy uri && Py.startswith "gs://" (default "" uri) then
    let normalized_uri := _normalize_gs_uri (default "" uri) in
    let '(ex, reason) := _gsutil_exists normalized_uri in
    (ex, reason, if bool_decide (ex = Some true) then [normalized_uri] else [])
  else if str_truthy local_glob then
    let matches :=
      sorted_set (_normalize_local_path W
                    <$> filter (λ p, path_is_file W p = true)
                               (glob_recursive W (default "" local_glob))) in
    (Some (nonempty matches), "local_glob", matches)
  else if str_truthy gcs_glob then
    match _gsutil_ls (default "" gcs_glob) with
    | (None, reason) => (None, reason, [])
    | (Some matches, reason) => (Some (nonempty matches), reason, matches)
    end
  else (None, "no_location", []).

(** ** Corruption auditor *)

Definition max_bytes : Z := 2000000.

(** Python's [None] result is [JNull]. *)
Definition _read_json_from_asset (asset : Asset.t) : json :=
  let local_path := Asset.local_path asset in
  let uri := Asset.uri asset in
  if str_truthy local_path then
    let path := default "" local_path in
    if negb (path_exists W path) || negb (path_is_file W path) then JNull
    else
      try_except
        (size ← path_size W path;
         if size >? max_bytes then mret JNull
         else text ← path_read_text W path; json_loads W text)
        JNull
  else if str_truthy uri && Py.startswith "gs://" (default "" uri) then
    if negb (command_exists W "gsutil") then JNull
    else
      let proc := run W ["gsutil"; "cat"; default "" uri] in
      if negb (returncode proc =? 0) then JNull
      else
        let data := stdout proc in
        if Z.of_nat (String.length data) >? max_bytes then JNull
        else try_except (json_loads W (decode_utf8_replace W data)) JNull
  else JNull.

(** The audit of one asset in finalize: the pair
    [(corrupt, corrupt_reason)]. *)
Definition audit_asset (audit_corruption : bool) (asset : Asset.t) (ex : option bool)
  : option bool * option string :=
  if audit_corruption && bool_decide (ex = Some true)
     && bool_decide (str_or (Asset.kind asset) "" = "metadata")
  then
    match _read_json_from_asset asset with
    | JObj meta =>
        match meta !! "corrupt" with
        | Some v => (Some (truthy v), Some "metadata.corrupt")
        | None =>
            match meta !! "success" with
            | Some v => (Some (negb (truthy v)), Some "metadata.success")
            | None => (None, None)
            end
        end
    | _ => (None, None)
    end
  else (None, None).

End Existence.

(** ** Contract document and its indices *)

Record RunMeta : Type := {
  run_status : option string;
  completed_at : option string;
  output_location : option string;
}.

(** The verification report of finalize.  [v_merged] holds the keys of the
    caller's [--verification-json-file], which [verification.update(extra)]
    lays over the computed ones; the scan for unexpected outputs and the
    per-folder upload outcomes are not part of this model. *)
Record Verification : Type := {
  v_finished_at : string;
  expected_assets_count : nat;
  produced_assets_count : nat;
  required_assets_count : nat;
  asset_status_counts : gmap string nat;
  input_asset_status_counts : gmap string nat;
  output_asset_status_counts : gmap string nat;
  task_status_counts : gmap string nat;
  missing_required_asset_ids : list string;
  missing_required_input_ids : list string;
  corrupt_required_asset_ids : list string;
  unverified_required_asset_ids : list string;
  v_merged : dict;
}.

Record Preflight : Type := {
  checked_at : string;
  total_inputs : nat;
  ok : nat;
  pf_missing_required : list string;
  pf_missing_optional : list string;
}.

(** The document.  Its opaque sections (schema version, configuration,
    input data, paths) play no part in the rules below and are left out. *)
Record Contract : Type := {
  run_meta : RunMeta;
  tasks : list Task.t;
  assets : list Asset.t;
  verification : option Verification;
  preflight : option Preflight;
}.

(** [{key(x): x for x in xs}] as a map from the key to the position of the
    object in the list: a later entry replaces an earlier one. *)
Fixpoint index_from {A} (key : A → string) (i : nat) (xs : list A)
    (m : gmap string nat) : gmap string nat :=
  match xs with
  | [] => m
  | x :: xs' => index_from key (S i) xs' (<[key x := i]> m)
  end.

Definition _task_index (ts : list Task.t) : gmap string nat :=
  index_from Task.task_id 0 ts ∅.

Definition _asset_index (xs : list Asset.t) : gmap string nat :=
  index_from Asset.asset_id 0 xs ∅.

(** [counts[st] = counts.get(st, 0) + 1] *)
Definition bump (st : string) (counts : gmap string nat) : gmap string nat :=
  <[st := S (default 0%nat (counts !! st))]> counts.

Definition count_statuses (sts : list string) : gmap string nat :=
  foldl (λ m st, bump st m) ∅ sts.

Section Lifecycle.
Variable W : World.

Definition new_task (task_id : string) : Task.t :=
  Task.Build task_id ∅ (Some "running") (Some (utc_now_iso W))
             (Some (utc_now_iso W)) None None [].

(** The task list after the call and the position of the returned task. *)
Definition _ensure_task (ts : list Task.t) (task_id : string) : list Task.t * nat :=
  match list_find (λ t, Task.task_id t = task_id) ts with
  | Some (i, _) => (ts, i)
  | None => (ts ++ [new_task task_id], length ts)
  end.

Definition new_asset (asset_id task_id : string) : Asset.t :=
  Asset.Build asset_id task_id "output" (Some "output") (Some true)
              None None None None ∅ false true (Some "produced")
              (Some (utc_now_iso W)) None None None None None None.

Definition _ensure_asset (xs : list Asset.t) (asset_id task_id : string)
  : list Asset.t * nat :=
  match list_find (λ a, Asset.asset_id a = asset_id) xs with
  | Some (i, _) => (xs, i)
  | None => (xs ++ [new_asset asset_id task_id], length xs)
  end.

Definition finishing_statuses : list string :=
  ["succeeded"; "failed"; "succeeded_with_missing_outputs";
   "succeeded_with_corrupt_outputs"; "succeeded_with_unverified_outputs"].

(** The writes of [_set_task_status] to the task itself. *)
Definition mark_task (status : string) (error : option dict) (t : Task.t) : Task.t :=
  let now_iso := utc_now_iso W in
  let t := if bool_decide (status = "running") && negb (str_truthy (Task.started_at t))
           then Task.set_started_at (Some now_iso) t else t in
  let t := if bool_decide (status ∈ finishing_statuses)
           then Task.set_finished_at (Some now_iso) t else t in
  let t := Task.set_status (Some status) t in
  match error with
  | Some e => Task.set_error (Some e) t
  | None => t
  end.

(** The writes of [_set_task_status] to one owned asset. *)
Definition fail_asset (error : option dict) (a : Asset.t) : Asset.t :=
  let a := Asset.set_status (Some "failed") a in
  match error with
  | Some e => Asset.set_error (Some e) a
  | None => a
  end.

(** The loop over [asset_ids]; an id the index does not know is skipped. *)
Definition fail_assets (error : option dict) (index : gmap string nat)
    (asset_ids : list string) (xs : list Asset.t) : list Asset.t :=
  foldl (λ xs aid,
           match index !! aid with
           | Some j => alter (fail_asset error) j xs
           | None => xs
           end) xs asset_ids.

Definition _set_task_status (c : Contract) (task_id status : string)
    (error : option dict) : Contract :=
  let '(ts, i) := _ensure_task (tasks c) task_id in
  let ts := alter (mark_task status error) i ts in
  let xs :=
    if bool_decide (status = "failed") then
      fail_assets error (_asset_index (assets c))
                  (from_option Task.asset_ids [] (ts !! i)) (assets c)
    else assets c in
  {| run_meta := run_meta c; tasks := ts; assets := xs;
     verification := verification c; preflight := preflight c |}.

(** *** record-produced *)

Record ProducedArgs : Type := {
  rp_task_id : string;
  rp_asset_id : option string;
  rp_kind : option string;
  rp_required : option string;
  rp_uri : option string;
  rp_local_path : option string;
  rp_local_glob : option string;
  rp_gcs_glob : option string;
  rp_extra_json : option json;
}.

(** The field writes of [_cmd_record_produced] on the asset, before the
    optional merge of [extra]. *)
Definition produced_asset (args : ProducedArgs) (task_id : string) (a : Asset.t)
  : Asset.t :=
  let a := Asset.set_task_id task_id a in
  let a := Asset.set_kind
             (Some (str_or (or_str (rp_kind args) (Asset.kind a)) "output")) a in
  let a := Asset.set_required
             (Some (_parse_bool (rp_required args) (Asset.is_required a))) a in
  let a := Asset.set_locations
             (or_str (rp_uri args) (Asset.uri a))
             (or_str (rp_local_path args) (Asset.local_path a))
             (or_str (rp_local_glob args) (Asset.local_glob a))
             (or_str (rp_gcs_glob args) (Asset.gcs_glob a)) a in
  let a := Asset.set_produced true a in
  Asset.set_status (Some "produced") a.

Definition _cmd_record_produced (c : Contract) (args : ProducedArgs) : exc Contract :=
  let task_id := Py.strip (rp_task_id args) in
  if bool_decide (task_id = "") then Raise "--task-id is required"
  else
    let '(ts, i) := _ensure_task (tasks c) task_id in
    let ts :=
      alter (λ t,
               let t := if negb (str_truthy (Task.started_at t))
                        then Task.set_started_at (Some (utc_now_iso W)) t else t in
               if bool_decide (Task.status t = Some "expected")
                  || negb (str_truthy (Task.status t))
               then Task.set_status (Some "running") t else t) i ts in
    let seed :=
      str_or (or_str (rp_uri args)
                (or_str (rp_local_path args)
                   (or_str (rp_local_glob args) (rp_gcs_glob args))))
             (task_id +:+ ":" +:+ utc_now_iso W) in
    let asset_id :=
      str_or (rp_asset_id args) (task_id +:+ "/produced/" +:+ sha1_hex12 W seed) in
    let '(xs, j) := _ensure_asset (assets c) asset_id task_id in
    let xs := alter (produced_asset args task_id) j xs in
    merged ←
      match rp_extra_json args with
      | None => mret xs
      | Some (JObj extra) =>
          mret (alter (λ a, Asset.set_extra (extra ∪ Asset.extra a) a) j xs)
      | Some _ => Raise "--extra-json-file must be a JSON object"
      end;
    let ts :=
      alter (λ t,
               let ids := Task.asset_ids t in
               let ids := if bool_decide (asset_id ∈ ids) then ids else ids ++ [asset_id] in
               Task.set_asset_ids (sorted_set ids) t) i ts in
    mret {| run_meta := run_meta c; tasks := ts; assets := merged;
            verification := verification c; preflight := preflight c |}.

(** *** Folder partitioner *)

Fixpoint take_until_wildcard (parts : list string) : list string :=
  match parts with
  | [] => []
  | p :: rest => if Py.has_wildcard p then [] else p :: take_until_wildcard rest
  end.

Definition _gcs_folder (asset : Asset.t) : option string :=
  let uri := Asset.uri asset in
  if str_truthy uri && Py.startswith "gs://" (default "" uri) then
    let normalized := _normalize_gs_uri (default "" uri) in
    let idx := Py.rfind_slash normalized in
    if idx >? Z.of_nat (String.length "gs://") then Some (Py.slice_to idx normalized)
    else None
  else
    let gcs_glob := Asset.gcs_glob asset in
    if str_truthy gcs_glob && Py.startswith "gs://" (default "" gcs_glob) then
      let normalized := _normalize_gs_uri (default "" gcs_glob) in
      let folder_parts := take_until_wildcard (Py.split_slash normalized) in
      if (2 <? length folder_parts)%nat
      then Some (Py.rstrip_slash (Py.join_slash folder_parts))
      else None
    else None.

(** [groups.setdefault(folder, []).append(asset)] *)
Definition group_add (groups : gmap string (list Asset.t)) (asset : Asset.t)
  : gmap string (list Asset.t) :=
  match _gcs_folder asset with
  | Some folder => <[folder := default [] (groups !! folder) ++ [asset]]> groups
  | None => groups
  end.

Definition _group_assets_by_folder (xs : list Asset.t) : gmap string (list Asset.t) :=
  foldl group_add ∅ xs.

End Lifecycle.

Section Passes.
Variable W : World.

(** *** preflight *)

(** [asset["matched_outputs"] = matched[:200]] when [matched] is not empty. *)
Definition store_matched (matched : list string) (a : Asset.t) : Asset.t :=
  if nonempty matched then Asset.set_matched_outputs (Some (take 200 matched)) a
  else a.

(** The body of the loop over the input assets. *)
Definition preflight_asset (asset : Asset.t) : Asset.t :=
  let '(ex, exists_reason, matched) := _asset_exists W asset in
  let a := Asset.set_exists ex (Some exists_reason) asset in
  let a := store_matched matched a in
  match ex with
  | Some true => Asset.set_status (Some "ok") a
  | Some false => Asset.set_status (Some "missing") a
  | None => Asset.set_status (Some "unknown") a
  end.

Definition is_input (a : Asset.t) : bool := bool_decide (Asset.role a = "input").

(** Preflight, from the loaded document to the document written and the
    completion code (the optional upload is left out). *)
Definition _cmd_preflight (c : Contract) (strict : bool) : Contract * Z :=
  let xs := (λ a, if is_input a then preflight_asset a else a) <$> assets c in
  let inputs := filter (λ a, is_input a = true) xs in
  let missing := filter (λ a, Asset.exists_ a = Some false) inputs in
  let missing_required :=
    Asset.asset_id <$> filter (λ a, Asset.is_required a = true) missing in
  let missing_optional :=
    Asset.asset_id <$> filter (λ a, Asset.is_required a = false) missing in
  let report :=
    {| checked_at := utc_now_iso W;
       total_inputs := length inputs;
       ok := length (filter (λ a, Asset.exists_ a = Some true) inputs);
       pf_missing_required := missing_required;
       pf_missing_optional := missing_optional |} in
  ({| run_meta := run_meta c; tasks := tasks c; assets := xs;
      verification := verification c; preflight := Some report |},
   if strict && nonempty missing_required then 2 else 0).

(** *** finalize *)

Record FinalizeArgs : Type := {
  fa_status : option string;
  fa_output_location : option string;
  fa_verification_json : option json;
  fa_audit_corruption : option string;
  fa_strict : bool;
}.

(** "Ensure task references are consistent": the write to the asset ... *)
Definition repair_asset (a : Asset.t) : Asset.t :=
  if bool_decide (Asset.task_id a = "") then Asset.set_task_id "unassigned" a else a.

(** ... and the writes to the task list and to [task_map], for one asset. *)
Definition repair_task (st : list Task.t * gmap string nat) (asset : Asset.t)
  : list Task.t * gmap string nat :=
  let '(ts, task_map) := st in
  let tid := Asset.task_id (repair_asset asset) in
  let aid := Asset.asset_id asset in
  let '(ts, task_map) :=
    match task_map !! tid with
    | Some _ => (ts, task_map)
    | None => let '(ts', j) := _ensure_task W ts tid in (ts', <[tid := j]> task_map)
    end in
  match task_map !! tid with
  | Some j =>
      let asset_ids := from_option Task.asset_ids [] (ts !! j) in
      if negb (bool_decide (aid = "")) && negb (bool_decide (aid ∈ asset_ids))
      then (alter (Task.set_asset_ids (sorted_set (asset_ids ++ [aid]))) j ts, task_map)
      else (ts, task_map)
  | None => (ts, task_map)
  end.

Definition repair (ts : list Task.t) (xs : list Asset.t) : list Task.t * list Asset.t :=
  (fst (foldl repair_task (ts, _task_index ts) xs), repair_asset <$> xs).

(** The status rule of finalize. *)
Definition asset_status (asset : Asset.t) (ex corrupt : option bool) : string :=
  if dict_truthy (Asset.error asset) then "failed"
  else if bool_decide (ex = Some false) && Asset.location_declared asset then "missing"
  else if bool_decide (corrupt = Some true) then "corrupt"
  else if bool_decide (ex = Some true) then "ok"
  else if bool_decide (ex = None) && Asset.location_declared asset then "unknown"
  else if Asset.produced asset then "produced" else "expected".

(** The body of the loop over all assets. *)
Definition finalize_asset (audit_corruption : bool) (asset : Asset.t) : Asset.t :=
  let '(ex, exists_reason, matched) := _asset_exists W asset in
  let a := Asset.set_exists ex (Some exists_reason) asset in
  let a := store_matched matched a in
  let '(corrupt, corrupt_reason) := audit_asset W audit_corruption a ex in
  let a := Asset.set_corrupt corrupt corrupt_reason a in
  Asset.set_status (Some (asset_status a ex corrupt)) a.

Definition status_of (a : Asset.t) : string := str_or (Asset.status a) "unknown".

Definition required_with (sts : list string) (xs : list Asset.t) : list string :=
  Asset.asset_id
    <$> filter (λ a, Asset.is_required a = true ∧ status_of a ∈ sts) xs.

(** [required_assets] of one task: the ids the index resolves to a
    required asset. *)
Definition required_assets (asset_map : gmap string nat) (xs : list Asset.t)
    (t : Task.t) : list Asset.t :=
  omap (λ aid, a ← asset_map !! aid ≫= (xs !!.);
               if Asset.is_required a then Some a else None)
       (Task.asset_ids t).

Definition rollup (existing_status : string) (required_statuses : list string) : string :=
  if bool_decide (existing_status = "failed") then "failed"
  else if nonempty required_statuses then
    if bool_decide ("failed" ∈ required_statuses) then "failed"
    else if bool_decide ("missing" ∈ required_statuses)
    then "succeeded_with_missing_outputs"
    else if bool_decide ("corrupt" ∈ required_statuses)
    then "succeeded_with_corrupt_outputs"
    else if bool_decide ("unknown" ∈ required_statuses)
    then "succeeded_with_unverified_outputs"
    else if bool_decide (Forall (λ st, st = "ok") required_statuses) then "succeeded"
    else str_or (Some existing_status) "unknown"
  else if bool_decide (existing_status ∈ [""; "expected"; "running"; "produced"])
  then "succeeded"
  else str_or (Some existing_status) "unknown".

Definition final_status (asset_map : gmap string nat) (xs : list Asset.t) (t : Task.t)
  : string :=
  rollup (str_or (Task.status t) "")
         (status_of <$> required_assets asset_map xs t).

Definition finalize_task (asset_map : gmap string nat) (xs : list Asset.t) (t : Task.t)
  : Task.t :=
  let t' := Task.set_status (Some (final_status asset_map xs t)) t in
  Task.set_finished_at
    (Some (str_or (Task.finished_at t) (utc_now_iso W))) t'.

(** [verification.get(key)] as a truth value, after the merge. *)
Definition report_truthy (merged : dict) (key : string) (computed : list string) : bool :=
  match merged !! key with
  | Some v => truthy v
  | None => nonempty computed
  end.

Definition computed_run_status (task_counts : gmap string nat)
    (missing_required corrupt_required unknown_required : list string) : string :=
  if bool_decide (0 < default 0 (task_counts !! "failed"))%nat then "FAILED"
  else if nonempty missing_required || nonempty corrupt_required
  then "FINISHED_WITH_ISSUES"
  else if nonempty unknown_required then "FINISHED_WITH_UNVERIFIED_OUTPUTS"
  else "FINISHED".

(** Finalize, from the loaded document to the document written and the
    completion code.  The scan for unexpected outputs and the uploads, which
    only add entries to the report, are left out; the one exception the body
    raises itself is the [ValueError] on a verification file that is not an
    object. *)
Definition _cmd_finalize (c : Contract) (args : FinalizeArgs) : exc (Contract * Z) :=
  let audit_corruption := _parse_bool (fa_audit_corruption args) true in
  let now_iso := utc_now_iso W in
  let asset_map := _asset_index (assets c) in
  let '(ts, xs) := repair (tasks c) (assets c) in
  let xs := finalize_asset audit_corruption <$> xs in
  let missing_required := required_with ["missing"; "failed"] xs in
  let corrupt_required := required_with ["corrupt"] xs in
  let unknown_required := required_with ["unknown"] xs in
  let task_counts := count_statuses (final_status asset_map xs <$> ts) in
  let ts := finalize_task asset_map xs <$> ts in
  let inputs := filter (λ a, str_or (Some (Asset.role a)) "output" = "input") xs in
  let outputs := filter (λ a, str_or (Some (Asset.role a)) "output" ≠ "input") xs in
  merged ←
    match fa_verification_json args with
    | None => mret (∅ : dict)
    | Some (JObj extra) => mret extra
    | Some _ => Raise "--verification-json-file must be a JSON object"
    end;
  let report :=
    {| v_finished_at := now_iso;
       expected_assets_count := length (filter (λ a, Asset.expected a = true) xs);
       produced_assets_count := length (filter (λ a, Asset.produced a = true) xs);
       required_assets_count := length (filter (λ a, Asset.is_required a = true) xs);
       asset_status_counts := count_statuses (status_of <$> xs);
       input_asset_status_counts := count_statuses (status_of <$> inputs);
       output_asset_status_counts := count_statuses (status_of <$> outputs);
       task_status_counts := task_counts;
       missing_required_asset_ids := sorted_set missing_required;
       missing_required_input_ids := sorted_set (required_with ["missing"; "failed"] inputs);
       corrupt_required_asset_ids := sorted_set corrupt_required;
       unverified_required_asset_ids := sorted_set unknown_required;
       v_merged := merged |} in
  let given := Py.strip (str_or (fa_status args) "") in
  let status :=
    if bool_decide (given = "")
    then computed_run_status task_counts missing_required corrupt_required unknown_required
    else given in
  let meta :=
    {| run_status := Some status;
       completed_at := Some now_iso;
       output_location :=
         if str_truthy (fa_output_location args) then fa_output_location args
         else output_location (run_meta c) |} in
  let code :=
    if fa_strict args
       && (report_truthy merged "missing_required_asset_ids" (sorted_set missing_required)
           || report_truthy merged "corrupt_required_asset_ids" (sorted_set corrupt_required)
           || report_truthy merged "unverified_required_asset_ids"
                            (sorted_set unknown_required)
           || bool_decide (0 < default 0 (task_counts !! "failed"))%nat)
    then 2 else 0 in
  mret ({| run_meta := meta; tasks := ts; assets := xs;
           verification := Some report; preflight := preflight c |}, code).

End Passes.

(** ** The command line: [mark-task-*] and the dispatch of [main] *)

(** The three [mark-task-*] sub-commands differ in the status they pass. *)
Inductive mark : Type := MarkRunning | MarkSucceeded | MarkFailed.

Definition mark_status (m : mark) : string :=
  match m with
  | MarkRunning => "running"
  | MarkSucceeded => "succeeded"
  | MarkFailed => "failed"
  end.

(** [_cmd_mark_task]; [error_json] is the content of [--error-json-file]
    when the option is given.  The task id is taken as it is. *)
Definition _cmd_mark_task (W : World) (c : Contract) (task_id : string)
    (error_json : option json) (status : string) : exc (Contract * Z) :=
  error ←
    match error_json with
    | None => mret None
    | Some (JObj e) => mret (Some e)
    | Some _ => Raise "--error-json-file must be a JSON object"
    end;
  mret (_set_task_status W c task_id status error, 0).

(** The sub-commands that work on an existing document. *)
Inductive command : Type :=
  | CmdRecordProduced (args : ProducedArgs)
  | CmdMarkTask (m : mark) (task_id : string) (error_json : option json)
  | CmdPreflight (strict : bool)
  | CmdFinalize (args : FinalizeArgs).

(** [args.func(args)]: the document the handler writes and its return
    value. *)
Definition handler (W : World) (c : Contract) (cmd : command) : exc (Contract * Z) :=
  match cmd with
  | CmdRecordProduced args => c' ← _cmd_record_produced W c args; mret (c', 0)
  | CmdMarkTask m task_id error_json =>
      _cmd_mark_task W c task_id error_json (mark_status m)
  | CmdPreflight strict => mret (_cmd_preflight W c strict)
  | CmdFinalize args => _cmd_finalize W c args
  end.

(** [main]: a [ValueError] gives exit code 1; every handler raises before it
    writes, so the document on disk is then the one that was loaded. *)
Definition main (W : World) (c : Contract) (cmd : command) : Contract * Z :=
  match handler W c cmd with
  | Val r => r
  | Raise _ => (c, 1)
  end.

(** A script: the commands run one after the other on the same contract
    file, each on the host as it is at that moment. *)
Definition run_script (c : Contract) (script : list (World * command)) : Contract :=
  foldl (λ c step, (main step.1 c step.2).1) c script.

(** ** Slugs *)

(** The characters the pattern [[^A-Za-z0-9_.-]] does not match. *)
Definition slug_char (c : ascii) : bool :=
  let n := N_of_ascii c in
  ((65 <=? n) && (n <=? 90) || (97 <=? n) && (n <=? 122) || (48 <=? n) && (n <=? 57)
   || (n =? 95) || (n =? 46) || (n =? 45))%N.

(** The characters of [strip("._-")]. *)
Definition slug_edge (c : ascii) : bool :=
  let n := N_of_ascii c in ((n =? 46) || (n =? 95) || (n =? 45))%N.

(** [re.sub(r"[^A-Za-z0-9_.-]+", "_", s)]: every maximal run of other
    characters becomes one underscore; [in_run] tells that the run has
    been replaced already. *)
Fixpoint sub_runs (in_run : bool) (s : string) : string :=
  match s with
  | EmptyString => EmptyString
  | String c s' =>
      if slug_char c then String c (sub_runs false s')
      else if in_run then sub_runs true s'
      else String "_"%char (sub_runs true s')
  end.

(** [_safe_slug(value)] *)
Definition _safe_slug (value : string) : string :=
  let slug := Py.rstrip_by slug_edge (Py.lstrip_by slug_edge (sub_runs false value)) in
  if bool_decide (slug = "") then "run" else slug.

(** ** Template variables given on the command line *)

(** [pair.split("=", 1)] when [pair] contains an equals sign. *)
Fixpoint split_eq_go (cur : string) (s : string) : option (string * string) :=
  match s with
  | EmptyString => None
  | String c s' =>
      if bool_decide (c = "="%char) then Some (String.rev cur, s')
      else split_eq_go (String c cur) s'
  end.

Definition split_eq (pair : string) : option (string * string) :=
  split_eq_go EmptyString pair.

(** The body of the loop of [_parse_vars]: the key and the value of one
    pair.  The messages are given without the quoted pair. *)
Definition var_pair (pair : string) : exc (string * string) :=
  match split_eq pair with
  | None => Raise "Invalid --var value; expected KEY=VALUE"
  | Some (key, value) =>
      let key := Py.strip key in
      if bool_decide (key = "") then Raise "Invalid --var value; empty key"
      else mret (key, value)
  end.

(** [_parse_vars(pairs)] *)
Definition _parse_vars (pairs : list string) : exc (gmap string string) :=
  foldl (λ acc pair, out ← acc; kv ← var_pair pair; mret (<[kv.1 := kv.2]> out))
        (mret ∅) pairs.

(** ** Per-folder contracts *)




(** ** Uploads of finalize *)

Definition _upload_contract_to_gcs (W : World) (local_path gcs_dest : string)
  : bool * option string :=
  if negb (Py.startswith "gs://" gcs_dest)
  then (false, Some "gcs_dest must start with gs://")
  else if negb (command_exists W "gsutil") then (false, Some "gsutil not available")
  else
    let proc := run W ["gsutil"; "cp"; local_path; gcs_dest] in
    if negb (returncode proc =? 0) then
      let err := Py.replace (String "010" "") " " (Py.strip (stderr proc)) in
      (false,
       Some ("failed upload to " +:+ gcs_dest +:+ ": "
               +:+ (if bool_decide (err = "") then Py.str_of_int (returncode proc)
                    else err)))
    else (true, None).

(** One entry of [folder_uploads]. *)
Record FolderUpload : Type := {
  fu_folder_uri : string;
  fu_gcs_dest : string;
  fu_asset_count : nat;
  fu_success : bool;
  fu_error : option string;
}.

(** The upload of the whole contract to the output root. *)
Definition upload_root (W : World) (contract_local output_location : string)
    (n_assets : nat) : FolderUpload :=
  let gcs_dest := Py.rstrip_slash output_location +:+ "/_run_contract.json" in
  let '(ok, err) := _upload_contract_to_gcs W contract_local gcs_dest in
  {| fu_folder_uri := output_location; fu_gcs_dest := gcs_dest;
     fu_asset_count := n_assets; fu_success := ok; fu_error := err |}.

(** The upload of the contract of one folder, written below [tmp_dir]. *)
Definition upload_folder (W : World) (tmp_dir folder_uri : string)
    (folder_assets : list Asset.t) : FolderUpload :=
  let folder_file :=
    tmp_dir +:+ "/" +:+ sha1_hex12 W folder_uri +:+ "/_run_contract.json" in
  let gcs_dest := Py.rstrip_slash folder_uri +:+ "/_run_contract.json" in
  let '(ok, err) := _upload_contract_to_gcs W folder_file gcs_dest in
  {| fu_folder_uri := folder_uri; fu_gcs_dest := gcs_dest;
     fu_asset_count := length folder_assets; fu_success := ok; fu_error := err |}.

(** The part of [_cmd_finalize] after the document is written: the list
    [folder_uploads] for the finalized document [c].  [contract_scope] and
    [output_location_arg] are the options of the call, [contract_local] the path
    of the contract file and [tmp_dir] the fresh directory of the folder
    contracts.  The folders are visited in the order of their URIs. *)
Definition folder_uploads (W : World) (c : Contract)
    (contract_scope output_location_arg : option string)
    (contract_local tmp_dir : string) : list FolderUpload :=
  let scope := Py.lower (Py.strip (str_or contract_scope "folder")) in
  let output_location :=
    Py.strip (str_or (or_str output_location_arg (output_location (run_meta c))) "") in
  if bool_decide (scope = "folder") && Py.startswith "gs://" output_location then
    let folder_groups := _group_assets_by_folder (assets c) in
    if bool_decide (folder_groups = ∅)
    then [upload_root W contract_local output_location (length (assets c))]
    else
      (λ folder_uri,
         upload_folder W tmp_dir folder_uri (default [] (folder_groups !! folder_uri)))
        <$> merge_sort String.le (map_to_list folder_groups).*1
  else if bool_decide (scope = "run") && Py.startswith "gs://" output_location
  then [upload_root W contract_local output_location (length (assets c))]
  else [].

(** ** The status rules in the words of the specification *)

(** The six rules of the asset status, in their priority order. *)
Definition spec_asset_status (has_error declared : bool) (ex corrupt : option bool)
    (produced : bool) : string :=
  if has_error then "failed"
  else if declared && bool_decide (ex = Some false) then "missing"
  else if bool_decide (corrupt = Some true) then "corrupt"
  else if bool_decide (ex = Some true) then "ok"
  else if declared && bool_decide (ex = None) then "unknown"
  else if produced then "produced" else "expected".

(** The status preflight gives an input asset: existence alone. *)
Definition preflight_status (ex : option bool) : string :=
  match ex with
  | Some true => "ok"
  | Some false => "missing"
  | None => "unknown"
  end.

(** ** Notions used to state the properties *)

(** The assets and the repaired tasks of a finalize pass. *)
Definition assets_after (W : World) (c : Contract) (args : FinalizeArgs) : list Asset.t :=
  finalize_asset W (_parse_bool (fa_audit_corruption args) true)
    <$> (repair_asset <$> assets c).

Definition tasks_repaired (W : World) (c : Contract) : list Task.t :=
  (repair W (tasks c) (assets c)).1.


(** Some task is failed; some required asset has the given status. *)
Definition task_failed (ts : list Task.t) : Prop :=
  ∃ t, t ∈ ts ∧ Task.status t = Some "failed".

Definition required_in (xs : list Asset.t) (st : string) : Prop :=
  ∃ a, a ∈ xs ∧ Asset.is_required a = true ∧ Asset.status a = Some st.

(** Every key of the task map names a task of that id. *)
Definition map_sound (ts : list Task.t) (tm : gmap string nat) : Prop :=
  ∀ k j, tm !! k = Some j → ∃ t, ts !! j = Some t ∧ Task.task_id t = k.

(** The later state keeps every task in place, with its id and status, and
    only adds asset ids; tasks beyond the old list are placeholders. *)
Definition grows (n0 : nat) (st st' : list Task.t * gmap string nat) : Prop :=
  (∀ k j, st.2 !! k = Some j → st'.2 !! k = Some j)
  ∧ (∀ j t, st.1 !! j = Some t →
       ∃ t', st'.1 !! j = Some t' ∧ Task.task_id t' = Task.task_id t
             ∧ Task.status t' = Task.status t
             ∧ ∀ x, x ∈ Task.asset_ids t → x ∈ Task.asset_ids t')
  ∧ ((∀ j t, st.1 !! j = Some t → (n0 ≤ j)%nat → Task.status t = Some "running") →
     (n0 ≤ length st.1)%nat →
     ∀ j t, st'.1 !! j = Some t → (n0 ≤ j)%nat → Task.status t = Some "running").

(** The pieces of [_cmd_record_produced], named to state its properties. *)

(** The asset id it resolves: the one given, or one derived from the seed. *)
Definition rp_resolved_asset_id (W : World) (args : ProducedArgs) : string :=
  let task_id := Py.strip (rp_task_id args) in
  let seed :=
    str_or (or_str (rp_uri args)
              (or_str (rp_local_path args)
                 (or_str (rp_local_glob args) (rp_gcs_glob args))))
           (task_id +:+ ":" +:+ utc_now_iso W) in
  str_or (rp_asset_id args) (task_id +:+ "/produced/" +:+ sha1_hex12 W seed).

(** Its first write to the task: start stamp and status. *)
Definition rp_start_task (W : World) (t : Task.t) : Task.t :=
  let t := if negb (str_truthy (Task.started_at t))
           then Task.set_started_at (Some (utc_now_iso W)) t else t in
  if bool_decide (Task.status t = Some "expected") || negb (str_truthy (Task.status t))
  then Task.set_status (Some "running") t else t.

(** Its second write to the task: the asset id joins [asset_ids]. *)
Definition rp_list_asset (asset_id : string) (t : Task.t) : Task.t :=
  let ids := Task.asset_ids t in
  let ids := if bool_decide (asset_id ∈ ids) then ids else ids ++ [asset_id] in
  Task.set_asset_ids (sorted_set ids) t.

(** Its writes to the asset, the merge of [extra] included. *)
Definition rp_write_asset (args : ProducedArgs) (task_id : string) (a : Asset.t)
  : Asset.t :=
  let a := produced_asset args task_id a in
  match rp_extra_json args with
  | Some (JObj extra) => Asset.set_extra (extra ∪ Asset.extra a) a
  | _ => a
  end.

(** The ids of [c], in order, begin the id lists of [c']. *)
Definition ids_extended (c c' : Contract) : Prop :=
  Task.task_id <$> tasks c `prefix_of` Task.task_id <$> tasks c'
  ∧ Asset.asset_id <$> assets c `prefix_of` Asset.asset_id <$> assets c'.

Definition unique_ids (c : Contract) : Prop :=
  NoDup (Task.task_id <$> tasks c) ∧ NoDup (Asset.asset_id <$> assets c).

(** The one command that writes the error record of an asset:
    [mark-task-failed] with an error file. *)
Definition sets_asset_errors (cmd : command) : bool :=
  match cmd with
  | CmdMarkTask MarkFailed _ (Some _) => true
  | _ => false
  end.


(** The characters that make a part of a path a pattern. *)
Definition wild (c : ascii) : bool :=
  bool_decide (c = "*"%char) || bool_decide (c = "?"%char)
  || bool_decide (c = "["%char) || bool_decide (c = "]"%char).

(** The host [W] at another clock reading. *)
Definition at_time (now : string) (W : World) : World :=
  {| utc_now_iso := now;
     command_exists := command_exists W;
     run := run W;
     _normalize_local_path := _normalize_local_path W;
     path_exists := path_exists W;
     path_is_file := path_is_file W;
     path_size := path_size W;
     path_read_text := path_read_text W;
     glob_recursive := glob_recursive W;
     json_loads := json_loads W;
     decode_utf8_replace := decode_utf8_replace W;
     sha1_hex12 := sha1_hex12 W |}.

(** The document [c] with the two stamps of a finalize pass set to [now]:
    [run.completed_at] and [verification.finished_at]. *)
Definition restamp (now : string) (c : Contract) : Contract :=
  {| run_meta :=
       {| run_status := run_status (run_meta c);
          completed_at := Some now;
          output_location := output_location (run_meta c) |};
     tasks := tasks c;
     assets := assets c;
     verification :=
       (λ v, {| v_finished_at := now;
                expected_assets_count := expected_assets_count v;
                produced_assets_count := produced_assets_count v;
                required_assets_count := required_assets_count v;
                asset_status_counts := asset_status_counts v;
                input_asset_status_counts := input_asset_status_counts v;
                output_asset_status_counts := output_asset_status_counts v;
                task_status_counts := task_status_counts v;
                missing_required_asset_ids := missing_required_asset_ids v;
                missing_required_input_ids := missing_required_input_ids v;
                corrupt_required_asset_ids := corrupt_required_asset_ids v;
                unverified_required_asset_ids := unverified_required_asset_ids v;
                v_merged := v_merged v |}) <$> verification c;
     preflight := preflight c |}.

(** ** Concrete hosts and documents used in the examples *)

Module Demo.

(** A host without [gsutil] on which exactly [/data/meta.json] exists. *)
Definition host : World := {|
  utc_now_iso := "2024-01-01T00:00:00Z";
  command_exists := λ _, false;
  run := λ _, {| returncode := 1; stdout := ""; stderr := "" |};
  _normalize_local_path := λ p, p;
  path_exists := λ p, bool_decide (p = "/data/meta.json");
  path_is_file := λ p, bool_decide (p = "/data/meta.json");
  path_size := λ _, Val 17;
  path_read_text := λ _, Val "{success: true}";
  glob_recursive := λ _, [];
  json_loads := λ _, Val (JObj {[ "success" := JBool true ]});
  decode_utf8_replace := λ s, s;
  sha1_hex12 := λ _, "0123456789ab";
|}.

Definition asset (asset_id task_id role : string) (local_path : option string)
    (error : option dict) : Asset.t :=
  Asset.Build asset_id task_id role (Some "output") (Some true)
              None local_path None None ∅ true false (Some "expected")
              None None None None None error None.

Definition task (task_id : string) (status : string) (asset_ids : list string) : Task.t :=
  Task.Build task_id ∅ (Some status) None None None None asset_ids.

Definition doc (ts : list Task.t) (xs : list Asset.t) : Contract :=
  {| run_meta := {| run_status := Some "STARTED"; completed_at := None;
                    output_location := None |};
     tasks := ts; assets := xs; verification := None; preflight := None |}.

Definition finalize_args (strict : bool) : FinalizeArgs :=
  {| fa_status := None; fa_output_location := None; fa_verification_json := None;
     fa_audit_corruption := None; fa_strict := strict |}.

Definition boom : dict := {[ "message" := JStr "boom" ]}.

(** The lines of a command output, each closed by a line feed. *)
Fixpoint unlines (ls : list string) : string :=
  match ls with
  | [] => EmptyString
  | l :: rest => l +:+ String "010" (unlines rest)
  end.

(** A host with [gsutil]: the folder [gs://bucket/run] holds two objects and
    a sub-folder; nothing else exists. *)
Definition cloud : World := {|
  utc_now_iso := "2024-01-01T00:00:00Z";
  command_exists := λ cmd, bool_decide (cmd = "gsutil");
  run := λ cmd,
    if bool_decide (cmd = ["gsutil"; "ls"; "-r"; "gs://bucket/run/**"])
    then {| returncode := 0;
            stdout := unlines ["gs://bucket/run/:"; "gs://bucket/run/b.tif";
                               "gs://bucket/run//a.tif"; "gs://bucket/run/sub/";
                               "gs://bucket/run/b.tif"];
            stderr := "" |}
    else {| returncode := 1; stdout := "";
            stderr := "CommandException: One or more URLs matched no objects." |};
  _normalize_local_path := λ p, p;
  path_exists := λ _, false;
  path_is_file := λ _, false;
  path_size := λ _, Raise "FileNotFoundError";
  path_read_text := λ _, Raise "FileNotFoundError";
  glob_recursive := λ _, [];
  json_loads := λ _, Raise "JSONDecodeError";
  decode_utf8_replace := λ s, s;
  sha1_hex12 := λ _, "0123456789ab";
|}.

(** An asset located by an object-storage glob only. *)
Definition glob_asset (asset_id pattern : string) : Asset.t :=
  Asset.set_locations None None None (Some pattern)
    (asset asset_id "t" "output" None None).

(** An asset located by an object-storage URI only. *)
Definition uri_asset (asset_id uri : string) : Asset.t :=
  Asset.set_locations (Some uri) None None None
    (asset asset_id "t" "output" None None).

(** The arguments of a [record-produced] call that gives only the task, the
    asset id and the location of a local file. *)
Definition produced_args (task_id : string) (asset_id local_path : option string)
  : ProducedArgs :=
  {| rp_task_id := task_id; rp_asset_id := asset_id; rp_kind := None;
     rp_required := None; rp_uri := None; rp_local_path := local_path;
     rp_local_glob := None; rp_gcs_glob := None; rp_extra_json := None |}.

End Demo.

(** ** Properties *)

(** *** The string primitives on small inputs *)

Example strip_ex : Py.strip "  gs://b/x  " = "gs://b/x".
Proof. reflexivity. Qed.
Example replace_ex : Py.replace "//" "/" "a///b//c" = "a//b/c".
Proof. reflexivity. Qed.
Example rfind_ex : Py.rfind_slash "gs://bucket" = 4.
Proof. reflexivity. Qed.
Example split_ex : Py.split_slash "gs://b/x*" = ["gs:"; ""; "b"; "x*"].
Proof. reflexivity. Qed.
Example join_ex : Py.join_slash ["gs:"; ""; "b"] = "gs://b".
Proof. reflexivity. Qed.
Example splitlines_ex :
  Py.splitlines (String.append "a" (String "013" (String "010" (String.append "b" (String "010" "")))))
  = ["a"; "b"].
Proof. reflexivity. Qed.
Example str_of_int_ex : Py.str_of_int 1 = "1" ∧ Py.str_of_int (-2) = "-2".
Proof. split; reflexivity. Qed.
Example lower_ex : Py.lower "Matched NO Objects" = "matched no objects".
Proof. reflexivity. Qed.
Example slice_ex : Py.slice_to 11 "gs://bucket/file" = "gs://bucket".
Proof. reflexivity. Qed.

(** *** The slash-collapsing loop ends within its fuel *)

Lemma prefix_dslash c s :
  String.prefix "//" (String c s) = true → ∃ s', s = String "/" s'.
Proof.
  cbn [String.prefix]. destruct (ascii_dec "/" c); [|done].
  destruct s as [|d s']; cbn [String.prefix]; [done|].
  destruct (ascii_dec "/" d); [|done].
  subst. by exists s'.
Qed.

Lemma replace_dslash_step c s :
  Py.replace_go "//" "/" 0 (String c s)
  = if String.prefix "//" (String c s)
    then String "/" (Py.replace_go "//" "/" 1 s)
    else String c (Py.replace_go "//" "/" 0 s).
Proof. done. Qed.

Lemma replace_dslash_length s :
  (String.length (Py.replace_go "//" "/" 0 s) ≤ String.length s)%nat
  ∧ (String.length (Py.replace_go "//" "/" 1 s) ≤ Nat.pred (String.length s))%nat
  ∧ (Py.contains "//" s = true →
     (String.length (Py.replace_go "//" "/" 0 s) < String.length s)%nat).
Proof.
  induction s as [|c s (IH0 & IH1 & IHc)]; [by repeat split|].
  split_and!.
  - rewrite replace_dslash_step.
    destruct (String.prefix "//" (String c s)) eqn:Hp; cbn [String.length]; lia.
  - change (Py.replace_go "//" "/" 1 (String c s)) with (Py.replace_go "//" "/" 0 s).
    cbn [String.length Nat.pred]. lia.
  - intros Hc. rewrite replace_dslash_step.
    change (Py.contains "//" (String c s))
      with (String.prefix "//" (String c s) || Py.contains "//" s) in Hc.
    destruct (String.prefix "//" (String c s)) eqn:Hp; cbn [String.length].
    + apply prefix_dslash in Hp as (s' & ->). cbn [String.length Nat.pred] in *. lia.
    + specialize (IHc Hc). lia.
Qed.

Lemma collapse_slashes_done fuel rest :
  (String.length rest ≤ fuel)%nat →
  Py.contains "//" (collapse_slashes fuel rest) = false.
Proof.
  revert rest. induction fuel as [|k IH]; intros rest Hlen.
  - by destruct rest; [|simpl in Hlen; lia].
  - cbn [collapse_slashes]. destruct (Py.contains "//" rest) eqn:Hc; [|done].
    apply IH. destruct (replace_dslash_length rest) as (_ & _ & Hlt).
    specialize (Hlt Hc). unfold Py.replace. lia.
Qed.

Lemma str_or_nonempty o d : d ≠ "" → str_or o d ≠ "".
Proof.
  intros Hd. unfold str_or. destruct o as [[|c s]|]; simpl; congruence.
Qed.

(** *** The passes over one asset *)

Section AssetPass.
Variable W : World.

Lemma asset_status_spec a ex corrupt :
  asset_status a ex corrupt
  = spec_asset_status (dict_truthy (Asset.error a)) (Asset.location_declared a)
                      ex corrupt (Asset.produced a).
Proof.
  unfold asset_status, spec_asset_status.
  destruct (dict_truthy (Asset.error a)); [done|].
  destruct (Asset.location_declared a); simpl; rewrite ?andb_true_r, ?andb_false_r; done.
Qed.

(** The existence check and the audit read only the location descriptors
    and the kind. *)
Lemma asset_exists_ext a b :
  Asset.local_path a = Asset.local_path b → Asset.uri a = Asset.uri b →
  Asset.local_glob a = Asset.local_glob b → Asset.gcs_glob a = Asset.gcs_glob b →
  _asset_exists W a = _asset_exists W b.
Proof. unfold _asset_exists. by intros -> -> -> ->. Qed.

Lemma audit_asset_ext audit a b ex :
  Asset.kind a = Asset.kind b → Asset.local_path a = Asset.local_path b →
  Asset.uri a = Asset.uri b →
  audit_asset W audit a ex = audit_asset W audit b ex.
Proof. unfold audit_asset, _read_json_from_asset. by intros -> -> ->. Qed.

Lemma store_matched_fields m a :
  let b := store_matched m a in
  Asset.asset_id b = Asset.asset_id a ∧ Asset.task_id b = Asset.task_id a
  ∧ Asset.role b = Asset.role a ∧ Asset.kind b = Asset.kind a
  ∧ Asset.required b = Asset.required a ∧ Asset.uri b = Asset.uri a
  ∧ Asset.local_path b = Asset.local_path a ∧ Asset.local_glob b = Asset.local_glob a
  ∧ Asset.gcs_glob b = Asset.gcs_glob a ∧ Asset.produced b = Asset.produced a
  ∧ Asset.error b = Asset.error a ∧ Asset.exists_ b = Asset.exists_ a
  ∧ Asset.status b = Asset.status a ∧ Asset.expected b = Asset.expected a
  ∧ Asset.exists_reason b = Asset.exists_reason a.
Proof. unfold store_matched. by destruct (nonempty m). Qed.

(** What finalize leaves in one asset. *)
Lemma finalize_asset_fields audit a :
  let b := finalize_asset W audit a in
  let ex := (_asset_exists W a).1.1 in
  let au := audit_asset W audit a ex in
  Asset.exists_ b = ex ∧ Asset.exists_reason b = Some (_asset_exists W a).1.2
  ∧ Asset.corrupt b = au.1 ∧ Asset.corrupt_reason b = au.2
  ∧ Asset.status b = Some (asset_status a ex au.1)
  ∧ Asset.asset_id b = Asset.asset_id a ∧ Asset.task_id b = Asset.task_id a
  ∧ Asset.role b = Asset.role a ∧ Asset.required b = Asset.required a
  ∧ Asset.error b = Asset.error a ∧ Asset.produced b = Asset.produced a
  ∧ Asset.expected b = Asset.expected a.
Proof.
  unfold finalize_asset. destruct (_asset_exists W a) as [[ex reason] matched]; simpl.
  pose proof (store_matched_fields matched (Asset.set_exists ex (Some reason) a)) as Hs.
  simpl in Hs. destruct Hs as (Hid & Htid & Hrole & Hkind & Hreq & Huri & Hlp & Hlg & Hgg
                               & Hprod & Herr & Hex & _ & Hexp & Hrs).
  set (a1 := store_matched matched (Asset.set_exists ex (Some reason) a)) in *.
  assert (audit_asset W audit a1 ex = audit_asset W audit a ex) as ->
    by (by apply audit_asset_ext).
  destruct (audit_asset W audit a ex) as [corrupt corrupt_reason]; simpl.
  assert (asset_status (Asset.set_corrupt corrupt corrupt_reason a1) ex corrupt
          = asset_status a ex corrupt) as ->.
  { rewrite !asset_status_spec. unfold Asset.location_declared. simpl.
    by rewrite Herr, Huri, Hlp, Hlg, Hgg, Hprod. }
  by rewrite Hex, Hid, Htid, Hrole, Hreq, Herr, Hprod, Hexp, Hrs.
Qed.

(** What preflight leaves in one input asset. *)
Lemma preflight_asset_fields a :
  let b := preflight_asset W a in
  let ex := (_asset_exists W a).1.1 in
  Asset.exists_ b = ex ∧ Asset.status b = Some (preflight_status ex)
  ∧ Asset.asset_id b = Asset.asset_id a ∧ Asset.role b = Asset.role a
  ∧ Asset.required b = Asset.required a ∧ Asset.error b = Asset.error a
  ∧ Asset.corrupt b = Asset.corrupt a.
Proof.
  unfold preflight_asset. destruct (_asset_exists W a) as [[ex reason] matched]; simpl.
  unfold store_matched.
  by destruct ex as [[]|], (nonempty matched).
Qed.

Lemma repair_asset_fields a :
  let b := repair_asset a in
  Asset.asset_id b = Asset.asset_id a ∧ Asset.role b = Asset.role a
  ∧ Asset.kind b = Asset.kind a ∧ Asset.required b = Asset.required a
  ∧ Asset.uri b = Asset.uri a ∧ Asset.local_path b = Asset.local_path a
  ∧ Asset.local_glob b = Asset.local_glob a ∧ Asset.gcs_glob b = Asset.gcs_glob a
  ∧ Asset.error b = Asset.error a ∧ Asset.produced b = Asset.produced a
  ∧ Asset.task_id b ≠ "".
Proof.
  unfold repair_asset. case_bool_decide; simpl; [done|]. by repeat split.
Qed.

End AssetPass.

(** *** The shape of a completed finalize *)



Lemma finalize_Val W c args c' code :
  _cmd_finalize W c args = Val (c', code) →
  assets c' = assets_after W c args
  ∧ tasks c'
    = finalize_task W (_asset_index (assets c)) (assets_after W c args)
        <$> tasks_repaired W c
  ∧ ∃ merged : dict,
      (fa_verification_json args = None ∧ merged = ∅
       ∨ fa_verification_json args = Some (JObj merged))
      ∧ let xs := assets_after W c args in
        let counts :=
          count_statuses
            (final_status (_asset_index (assets c)) xs <$> tasks_repaired W c) in
        let given := Py.strip (str_or (fa_status args) "") in
        run_status (run_meta c')
        = Some (if bool_decide (given = "")
                then computed_run_status counts
                       (required_with ["missing"; "failed"] xs)
                       (required_with ["corrupt"] xs) (required_with ["unknown"] xs)
                else given)
        ∧ code
          = if fa_strict args
               && (report_truthy merged "missing_required_asset_ids"
                     (sorted_set (required_with ["missing"; "failed"] xs))
                   || report_truthy merged "corrupt_required_asset_ids"
                        (sorted_set (required_with ["corrupt"] xs))
                   || report_truthy merged "unverified_required_asset_ids"
                        (sorted_set (required_with ["unknown"] xs))
                   || bool_decide (0 < default 0 (counts !! "failed"))%nat)
            then 2 else 0.
Proof.
  unfold _cmd_finalize, assets_after, tasks_repaired, repair. simpl.
  destruct (fa_verification_json args) as [[]|] eqn:Hv; simpl; try discriminate;
    intros [= <- <-]; simpl; (split; [done|split; [done|]]); eexists; (split; [eauto|done]).
Qed.


(** *** C1: the recomputed asset status *)

(** C1 (as amended).  On every finalize pass each asset's status is recomputed
    from the asset's own error record, its declared locations, its produced
    flag and the existence and corruption results of this pass, by the strict
    priority failed, missing, corrupt, ok, unknown, produced/expected.  A
    preflight pass touches the input assets only and sets their status from
    the existence result alone: ok, missing or unknown. *)
Theorem C1_status_recomputed (W : World) (c : Contract) (i : nat) (a : Asset.t) :
  assets c !! i = Some a →
  (∀ args c' code,
     _cmd_finalize W c args = Val (c', code) →
     ∃ a', assets c' !! i = Some a'
           ∧ Asset.exists_ a' = (_asset_exists W a).1.1
           ∧ Asset.status a'
             = Some (spec_asset_status (dict_truthy (Asset.error a))
                       (Asset.location_declared a) (Asset.exists_ a')
                       (Asset.corrupt a') (Asset.produced a)))
  ∧ (∀ strict,
       ∃ a', assets (_cmd_preflight W c strict).1 !! i = Some a'
             ∧ if is_input a
               then Asset.exists_ a' = (_asset_exists W a).1.1
                    ∧ Asset.status a' = Some (preflight_status (Asset.exists_ a'))
               else a' = a).
Proof.
  intros Ha. split.
  - intros args c' code (Hxs & _)%finalize_Val. rewrite Hxs. unfold assets_after.
    rewrite !list_lookup_fmap, Ha. simpl. eexists; split; [done|].
    destruct (finalize_asset_fields W (_parse_bool (fa_audit_corruption args) true)
                (repair_asset a)) as (Hex & _ & Hco & _ & Hst & _).
    destruct (repair_asset_fields a) as (_ & _ & Hk & _ & Hu & Hlp & Hlg & Hgg & He & Hp & _).
    assert (_asset_exists W (repair_asset a) = _asset_exists W a) as Hsame
      by (by apply asset_exists_ext).
    rewrite Hsame in Hex, Hst. split; [done|].
    rewrite Hst, Hex, Hco, Hsame, asset_status_spec.
    unfold Asset.location_declared. by rewrite He, Hu, Hlp, Hlg, Hgg, Hp.
  - intros strict. simpl. rewrite list_lookup_fmap, Ha. simpl.
    eexists; split; [done|]. destruct (is_input a); [|done].
    destruct (preflight_asset_fields W a) as (Hex & Hst & _). by rewrite Hst, Hex.
Qed.

Lemma C1_status_recomputed_witness :
  let a := Demo.asset "in" "t" "input" (Some "/data/meta.json") (Some Demo.boom) in
  let c := Demo.doc [] [a] in
  assets c !! 0%nat = Some a
  ∧ (∀ args c' code,
       _cmd_finalize Demo.host c args = Val (c', code) →
       ∃ a', assets c' !! 0%nat = Some a'
             ∧ Asset.exists_ a' = (_asset_exists Demo.host a).1.1
             ∧ Asset.status a'
               = Some (spec_asset_status (dict_truthy (Asset.error a))
                         (Asset.location_declared a) (Asset.exists_ a')
                         (Asset.corrupt a') (Asset.produced a)))
  ∧ (∀ strict,
       ∃ a', assets (_cmd_preflight Demo.host c strict).1 !! 0%nat = Some a'
             ∧ if is_input a
               then Asset.exists_ a' = (_asset_exists Demo.host a).1.1
                    ∧ Asset.status a' = Some (preflight_status (Asset.exists_ a'))
               else a' = a).
Proof.
  intros a c. split; [reflexivity|].
  apply (C1_status_recomputed Demo.host c 0 a). reflexivity.
Defined.

(** C1 fails as stated: preflight does not follow the priority order.  An
    input asset that carries an error and whose file exists leaves preflight
    with status ok, where the first rule asks for failed. *)
Lemma C1_preflight_counterexample :
  let a := Demo.asset "in" "t" "input" (Some "/data/meta.json") (Some Demo.boom) in
  let c' := (_cmd_preflight Demo.host (Demo.doc [] [a]) false).1 in
  ∃ a', assets c' !! 0%nat = Some a'
        ∧ dict_truthy (Asset.error a') = true
        ∧ Asset.status a' = Some "ok"
        ∧ Asset.status a'
          ≠ Some (spec_asset_status (dict_truthy (Asset.error a'))
                    (Asset.location_declared a') (Asset.exists_ a')
                    (Asset.corrupt a') (Asset.produced a')).
Proof.
  eexists. split; [reflexivity|]. split; [reflexivity|]. split; [reflexivity|].
  vm_compute. discriminate.
Qed.

(** *** Small facts on strings, sorting and counting *)

(** Membership in an explicit list. *)
Ltac in_list := solve [repeat (first [left; reflexivity | right])].

Lemma or_str_truthy a b : str_truthy b = true → str_truthy (or_str a b) = true.
Proof. unfold or_str. by destruct (str_truthy a) eqn:E. Qed.

Lemma nonempty_true {A} (xs : list A) : nonempty xs = true ↔ xs ≠ [].
Proof. by destruct xs. Qed.

Lemma nonempty_exists {A} (xs : list A) : nonempty xs = true ↔ ∃ x, x ∈ xs.
Proof.
  destruct xs as [|x xs]; simpl; split; try done.
  - by intros [x Hx%elem_of_nil].
  - intros _. exists x. by left.
Qed.

Lemma sorted_set_elem (xs : list string) x : x ∈ sorted_set xs ↔ x ∈ xs.
Proof.
  unfold sorted_set. by rewrite merge_sort_Permutation, elem_of_remove_dups.
Qed.

Lemma sorted_set_NoDup (xs : list string) : NoDup (sorted_set xs).
Proof.
  unfold sorted_set. rewrite merge_sort_Permutation. apply NoDup_remove_dups.
Qed.

Lemma sorted_set_sorted (xs : list string) : StronglySorted String.le (sorted_set xs).
Proof. apply (StronglySorted_merge_sort _). Qed.

Lemma sorted_set_nonempty (xs : list string) : nonempty (sorted_set xs) = nonempty xs.
Proof.
  apply eq_true_iff_eq. rewrite !nonempty_exists.
  by setoid_rewrite sorted_set_elem.
Qed.

(** *** C10: precedence of the location descriptors *)

Section Locations.
Variable W : World.

Lemma produced_asset_keeps_locations args tid a :
  let b := produced_asset args tid a in
  (str_truthy (Asset.uri a) = true → str_truthy (Asset.uri b) = true)
  ∧ (str_truthy (Asset.local_path a) = true → str_truthy (Asset.local_path b) = true)
  ∧ (str_truthy (Asset.local_glob a) = true → str_truthy (Asset.local_glob b) = true)
  ∧ (str_truthy (Asset.gcs_glob a) = true → str_truthy (Asset.gcs_glob b) = true).
Proof. simpl. repeat split; apply or_str_truthy. Qed.

Lemma record_produced_keeps_locations c args c' i a :
  _cmd_record_produced W c args = Val c' →
  assets c !! i = Some a →
  ∃ b, assets c' !! i = Some b
       ∧ (str_truthy (Asset.uri a) = true → str_truthy (Asset.uri b) = true)
       ∧ (str_truthy (Asset.local_path a) = true → str_truthy (Asset.local_path b) = true)
       ∧ (str_truthy (Asset.local_glob a) = true → str_truthy (Asset.local_glob b) = true)
       ∧ (str_truthy (Asset.gcs_glob a) = true → str_truthy (Asset.gcs_glob b) = true).
Proof.
  unfold _cmd_record_produced. case_bool_decide; [done|].
  destruct (_ensure_task W (tasks c) _) as [ts it].
  set (aid := str_or (rp_asset_id args) _).
  set (tid := Py.strip (rp_task_id args)).
  intros Hrun Ha.
  assert (∃ xs j, _ensure_asset W (assets c) aid tid = (xs, j) ∧ xs !! i = Some a)
    as (xs & j & Hens & Hxs).
  { unfold _ensure_asset. destruct (list_find _ _) as [[j ?]|]; eexists _, _; split; try done.
    by apply lookup_app_l_Some. }
  rewrite Hens in Hrun.
  set (xs1 := alter (produced_asset args tid) j xs) in *.
  assert (∃ b, xs1 !! i = Some b
               ∧ (str_truthy (Asset.uri a) = true → str_truthy (Asset.uri b) = true)
               ∧ (str_truthy (Asset.local_path a) = true
                  → str_truthy (Asset.local_path b) = true)
               ∧ (str_truthy (Asset.local_glob a) = true
                  → str_truthy (Asset.local_glob b) = true)
               ∧ (str_truthy (Asset.gcs_glob a) = true
                  → str_truthy (Asset.gcs_glob b) = true)) as (b & Hb & Hkeep).
  { unfold xs1. destruct (decide (j = i)) as [->|Hne].
    - rewrite list_lookup_alter_eq, Hxs. simpl. eexists; split; [done|].
      apply produced_asset_keeps_locations.
    - rewrite list_lookup_alter_ne, Hxs by done. by eexists. }
  destruct (rp_extra_json args) as [[]|]; simpl in Hrun; try discriminate;
    injection Hrun as <-; simpl; [|by eexists].
  destruct (decide (j = i)) as [->|Hne].
  - rewrite list_lookup_alter_eq, Hb. simpl. eexists; split; [done|]. apply Hkeep.
  - rewrite list_lookup_alter_ne, Hb by done. by eexists.
Qed.

(** C10.  The existence check consults local path, then object-storage URI,
    then local glob, then object-storage glob, and the first descriptor
    present decides alone: the result equals that of the asset stripped of
    all other descriptors.  A URI without the [gs://] prefix is skipped, so
    an asset with only such a URI resolves to unknown, [no_location].
    record-produced never turns a non-empty location field into an empty
    one, which is how several descriptors accumulate. *)
Theorem C10_location_precedence (a : Asset.t) :
  let lp := Asset.local_path a in
  let u := Asset.uri a in
  let lg := Asset.local_glob a in
  let gg := Asset.gcs_glob a in
  let gs := str_truthy u && Py.startswith "gs://" (default "" u) in
  (str_truthy lp = true →
     _asset_exists W a = _asset_exists W (Asset.set_locations None lp None None a)
     ∧ (_asset_exists W a).1.2 = "local_path")
  ∧ (str_truthy lp = false → gs = true →
       _asset_exists W a = _asset_exists W (Asset.set_locations u None None None a)
       ∧ (_asset_exists W a).1.2 ∈ ["gcs_uri"; "gsutil_unavailable"])
  ∧ (str_truthy lp = false → gs = false → str_truthy lg = true →
       _asset_exists W a = _asset_exists W (Asset.set_locations None None lg None a)
       ∧ (_asset_exists W a).1.2 = "local_glob")
  ∧ (str_truthy lp = false → gs = false → str_truthy lg = false →
       str_truthy gg = true →
       _asset_exists W a = _asset_exists W (Asset.set_locations None None None gg a))
  ∧ (Py.startswith "gs://" (default "" u) = false →
       _asset_exists W a = _asset_exists W (Asset.set_locations None lp lg gg a))
  ∧ (Py.startswith "gs://" (default "" u) = false →
       str_truthy lp = false → str_truthy lg = false → str_truthy gg = false →
       _asset_exists W a = (None, "no_location", []))
  ∧ (∀ c args c' i a0,
       _cmd_record_produced W c args = Val c' →
       assets c !! i = Some a0 →
       ∃ b, assets c' !! i = Some b
            ∧ (str_truthy (Asset.uri a0) = true → str_truthy (Asset.uri b) = true)
            ∧ (str_truthy (Asset.local_path a0) = true
               → str_truthy (Asset.local_path b) = true)
            ∧ (str_truthy (Asset.local_glob a0) = true
               → str_truthy (Asset.local_glob b) = true)
            ∧ (str_truthy (Asset.gcs_glob a0) = true
               → str_truthy (Asset.gcs_glob b) = true)).
Proof.
  intros lp u lg gg gs. unfold _asset_exists. simpl. fold lp u lg gg. fold gs.
  split_and!.
  - intros ->. done.
  - intros -> ->. simpl. split; [done|].
    unfold _gsutil_exists. destruct (command_exists W "gsutil"); simpl.
    + destruct (_ =? _); simpl; set_solver.
    + set_solver.
  - intros -> -> ->. done.
  - intros -> -> -> ->. done.
  - intros Hu. unfold gs. rewrite Hu, andb_false_r. done.
  - intros Hu -> -> ->. unfold gs. rewrite Hu, andb_false_r. done.
  - intros c args c' i a0. apply record_produced_keeps_locations.
Qed.

End Locations.

Lemma C10_location_precedence_witness :
  let a := Asset.set_locations (Some "gs://bucket/run/meta.json") (Some "/data/meta.json")
             None None (Demo.asset "m" "t" "output" None None) in
  str_truthy (Asset.local_path a) = true
  ∧ _asset_exists Demo.host a
    = _asset_exists Demo.host
        (Asset.set_locations None (Asset.local_path a) None None a)
  ∧ (_asset_exists Demo.host a).1.2 = "local_path".
Proof.
  intros a. split; [reflexivity|].
  pose proof (C10_location_precedence Demo.host a) as H. simpl in H.
  destruct H as [H _]. apply H. reflexivity.
Defined.

(** *** C6: existence of an object-storage glob *)

Section GcsGlob.
Variable W : World.





End GcsGlob.

(** *** C7: the corruption audit *)

Section Audit.
Variable W : World.




End Audit.

(** *** Indices by id *)

Section Index.
Context {A : Type} (key : A → string).

Lemma index_from_notin xs i m k :
  (∀ x, x ∈ xs → key x ≠ k) → index_from key i xs m !! k = m !! k.
Proof.
  revert i m. induction xs as [|y ys IH]; intros i m Hk; simpl; [done|].
  rewrite IH by (intros x Hx; apply Hk; by right).
  apply lookup_insert_ne, Hk. by left.
Qed.

Lemma index_from_lookup xs i m k j :
  index_from key i xs m !! k = Some j →
  m !! k = Some j ∨ ∃ x, (i ≤ j)%nat ∧ xs !! (j - i)%nat = Some x ∧ key x = k.
Proof.
  revert i m. induction xs as [|y ys IH]; intros i m; simpl; [by left|].
  intros [Hm|(x & Hij & Hx & Hk)]%IH.
  - destruct (decide (key y = k)) as [<-|Hne].
    + rewrite lookup_insert_eq in Hm. injection Hm as <-. right. exists y.
      by rewrite Nat.sub_diag.
    + rewrite lookup_insert_ne in Hm by done. by left.
  - right. exists x. split; [lia|]. split; [|done].
    by replace (j - i)%nat with (S (j - S i)) by lia.
Qed.

(** The index resolves an id to the last object that carries it. *)
Lemma index_from_last xs i m x p :
  xs !! p = Some x →
  (∀ q y, xs !! q = Some y → key y = key x → (q ≤ p)%nat) →
  index_from key i xs m !! key x = Some (i + p)%nat.
Proof.
  revert i m p. induction xs as [|y ys IH]; intros i m p Hp Hlast; [done|].
  destruct p as [|p]; simpl in *.
  - injection Hp as ->. rewrite index_from_notin.
    + by rewrite lookup_insert_eq, Nat.add_0_r.
    + intros z [q Hq]%list_elem_of_lookup Hz.
      specialize (Hlast (S q) z Hq Hz). lia.
  - rewrite (IH (S i) _ p Hp).
    + f_equal. lia.
    + intros q z Hq Hz. specialize (Hlast (S q) z Hq Hz). lia.
Qed.

End Index.

Lemma task_index_lookup ts k j :
  _task_index ts !! k = Some j → ∃ t, ts !! j = Some t ∧ Task.task_id t = k.
Proof.
  intros [Hm|(t & _ & Ht & Hk)]%index_from_lookup; [done|].
  exists t. by rewrite Nat.sub_0_r in Ht.
Qed.

Lemma asset_index_lookup xs k j :
  _asset_index xs !! k = Some j → ∃ a, xs !! j = Some a ∧ Asset.asset_id a = k.
Proof.
  intros [Hm|(a & _ & Ha & Hk)]%index_from_lookup; [done|].
  exists a. by rewrite Nat.sub_0_r in Ha.
Qed.

Lemma asset_index_last xs a p :
  xs !! p = Some a →
  (∀ q b, xs !! q = Some b → Asset.asset_id b = Asset.asset_id a → (q ≤ p)%nat) →
  _asset_index xs !! Asset.asset_id a = Some p.
Proof. intros Hp Hlast. apply (index_from_last Asset.asset_id xs 0 ∅ a p Hp Hlast). Qed.

(** *** The repair step of finalize *)

Section Repair.
Variable W : World.

Lemma ensure_task_spec ts tid ts' j :
  _ensure_task W ts tid = (ts', j) →
  (∃ t, ts' !! j = Some t ∧ Task.task_id t = tid)
  ∧ (ts' = ts ∨ (ts' = ts ++ [new_task W tid] ∧ j = length ts
                 ∧ ∀ t, t ∈ ts → Task.task_id t ≠ tid)).
Proof.
  unfold _ensure_task. destruct (list_find _ ts) as [[i t]|] eqn:Hf; intros [= <- <-].
  - apply list_find_Some in Hf as (Ht & Hid & _). split; [by exists t|by left].
  - split.
    + exists (new_task W tid). split; [|done]. by apply list_lookup_middle.
    + right. split_and!; try done. intros t Ht.
      apply list_find_None in Hf. by apply (proj1 (Forall_forall _ _) Hf t Ht).
Qed.


Lemma grows_refl n0 st : grows n0 st st.
Proof. split_and!; [done| |done]. intros j t Ht. by exists t. Qed.

Lemma grows_length n0 st st' : grows n0 st st' → (length st.1 ≤ length st'.1)%nat.
Proof.
  intros (_ & Hts & _). destruct (decide (length st.1 = 0%nat)) as [->|Hne]; [lia|].
  destruct (lookup_lt_is_Some_2 st.1 (length st.1 - 1)) as [t Ht]; [lia|].
  destruct (Hts _ _ Ht) as (t' & Ht' & _). apply lookup_lt_Some in Ht'. lia.
Qed.

Lemma grows_trans n0 st1 st2 st3 :
  grows n0 st1 st2 → grows n0 st2 st3 → grows n0 st1 st3.
Proof.
  intros H12 H23. pose proof (grows_length _ _ _ H12) as Hlen.
  destruct H12 as (Hm1 & Ht1 & Hp1), H23 as (Hm2 & Ht2 & Hp2). split_and!.
  - eauto.
  - intros j t Ht. destruct (Ht1 _ _ Ht) as (t' & Ht' & Hid & Hst & Hids).
    destruct (Ht2 _ _ Ht') as (t'' & Ht'' & Hid' & Hst' & Hids').
    exists t''. split_and!; [done|congruence|congruence|eauto].
  - intros Hold Hn. apply Hp2; [by apply Hp1|lia].
Qed.

Lemma repair_task_step n0 ts tm a :
  map_sound ts tm →
  let st' := repair_task W (ts, tm) a in
  map_sound st'.1 st'.2 ∧ grows n0 (ts, tm) st'
  ∧ ∃ j t, st'.2 !! Asset.task_id (repair_asset a) = Some j
           ∧ st'.1 !! j = Some t
           ∧ Task.task_id t = Asset.task_id (repair_asset a)
           ∧ (Asset.asset_id a ≠ "" → Asset.asset_id a ∈ Task.asset_ids t).
Proof.
  intros Hsound. unfold repair_task.
  set (tid := Asset.task_id (repair_asset a)). set (aid := Asset.asset_id a).
  (* the task map after the lookup-or-create *)
  assert (∃ ts1 tm1 j t,
            (match tm !! tid with
             | Some _ => (ts, tm)
             | None => let '(ts', j) := _ensure_task W ts tid in (ts', <[tid:=j]> tm)
             end) = (ts1, tm1)
            ∧ map_sound ts1 tm1 ∧ grows n0 (ts, tm) (ts1, tm1)
            ∧ tm1 !! tid = Some j ∧ ts1 !! j = Some t ∧ Task.task_id t = tid)
    as (ts1 & tm1 & j & t & -> & Hsound1 & Hgrow1 & Hj & Ht & Hid).
  { destruct (tm !! tid) as [j|] eqn:Htm.
    - destruct (Hsound _ _ Htm) as (t & Ht & Hid).
      exists ts, tm, j, t. split_and!; try done. apply grows_refl.
    - destruct (_ensure_task W ts tid) as [ts1 j] eqn:Hens.
      destruct (ensure_task_spec _ _ _ _ Hens) as [(t & Ht & Hid) Hshape].
      exists ts1, (<[tid:=j]> tm), j, t. split_and!; try done.
      + intros k i. destruct (decide (tid = k)) as [<-|Hne].
        * rewrite lookup_insert_eq. intros [= <-]. by exists t.
        * rewrite lookup_insert_ne by done. intros (t0 & Ht0 & Hk)%Hsound.
          exists t0. split; [|done].
          destruct Hshape as [->|(-> & _)]; [done|by apply lookup_app_l_Some].
      + split_and!; simpl.
        * intros k i Hk. rewrite lookup_insert_ne; [done|]. intros <-. congruence.
        * intros i t0 Ht0. exists t0. split_and!; try done.
          destruct Hshape as [->|(-> & _)]; [done|by apply lookup_app_l_Some].
        * intros Hold Hn i t0 Ht0 Hi.
          destruct Hshape as [->|(-> & _ & _)]; [by eapply Hold|].
          apply lookup_app_Some in Ht0 as [Ht0|[Hlen Ht0]]; [by eapply Hold|].
          destruct (i - length ts)%nat; [|done]. by injection Ht0 as <-.
      + apply lookup_insert_eq. }
  rewrite Hj, Ht. simpl.
  destruct (negb (bool_decide (aid = "")) && negb (bool_decide (aid ∈ Task.asset_ids t)))
    eqn:Hadd; simpl.
  - (* the id is appended *)
    set (t' := Task.set_asset_ids (sorted_set (Task.asset_ids t ++ [aid])) t).
    assert (alter (Task.set_asset_ids (sorted_set (Task.asset_ids t ++ [aid]))) j ts1 !! j
            = Some t') as Hnew by (by rewrite list_lookup_alter_eq, Ht).
    split_and!.
    + intros k i Hk. destruct (Hsound1 _ _ Hk) as (t0 & Ht0 & Hk0).
      destruct (decide (j = i)) as [<-|Hne].
      * exists t'. split; [done|]. simpl. congruence.
      * exists t0. by rewrite list_lookup_alter_ne.
    + eapply grows_trans; [done|]. split_and!; simpl; [done| |].
      * intros i t0 Ht0. destruct (decide (j = i)) as [<-|Hne].
        -- exists t'. simplify_eq. split_and!; try done.
           intros x Hx. simpl. apply sorted_set_elem. set_solver.
        -- exists t0. by rewrite list_lookup_alter_ne.
      * intros Hold Hn i t0 Ht0 Hi. destruct (decide (j = i)) as [<-|Hne].
        -- rewrite Hnew in Ht0. injection Ht0 as <-. simpl. by eapply Hold.
        -- rewrite list_lookup_alter_ne in Ht0 by done. by eapply Hold.
    + exists j, t'. split_and!; try done. intros _. simpl.
      apply sorted_set_elem. set_solver.
  - split_and!; [done|done|]. exists j, t. split_and!; try done.
    intros Hne. apply andb_false_iff in Hadd as [Hadd|Hadd].
    + apply negb_false_iff, bool_decide_eq_true in Hadd. done.
    + by apply negb_false_iff, bool_decide_eq_true in Hadd.
Qed.

Lemma repair_fold n0 xs ts tm :
  map_sound ts tm →
  let st' := foldl (repair_task W) (ts, tm) xs in
  map_sound st'.1 st'.2 ∧ grows n0 (ts, tm) st'
  ∧ ∀ a, a ∈ xs →
      ∃ j t, st'.1 !! j = Some t
             ∧ Task.task_id t = Asset.task_id (repair_asset a)
             ∧ (Asset.asset_id a ≠ "" → Asset.asset_id a ∈ Task.asset_ids t).
Proof.
  revert ts tm. induction xs as [|x xs IH]; intros ts tm Hsound; cbn [foldl].
  - split_and!; [done|apply grows_refl|]. intros a Ha. by apply elem_of_nil in Ha.
  - destruct (repair_task_step n0 ts tm x Hsound) as (Hs1 & Hg1 & j & t & Hj & Ht & Hid & Hin).
    destruct (repair_task W (ts, tm) x) as [ts1 tm1] eqn:Hstep. cbn [fst snd] in *.
    destruct (IH ts1 tm1 Hs1) as (Hs2 & Hg2 & Hall).
    split_and!; [done|by eapply grows_trans|].
    intros a [->|Ha]%elem_of_cons; [|by apply Hall].
    destruct Hg2 as (_ & Hts & _). destruct (Hts _ _ Ht) as (t' & Ht' & Hid' & _ & Hids).
    exists j, t'. split_and!; [done|congruence|]. intros Hne. by apply Hids, Hin.
Qed.

Lemma task_index_sound ts : map_sound ts (_task_index ts).
Proof. intros k j. apply task_index_lookup. Qed.

End Repair.

(** *** C8: every asset refers to a task of the document *)

Lemma finalize_task_fields W m xs t :
  let t' := finalize_task W m xs t in
  Task.task_id t' = Task.task_id t ∧ Task.asset_ids t' = Task.asset_ids t
  ∧ Task.status t' = Some (final_status m xs t).
Proof. done. Qed.

(** C8 (as amended).  After the repair step every asset has a non-empty
    task id that names a task of the document, and that task lists the
    asset's id whenever the asset's id is not empty.  An asset without task
    id goes to the task [unassigned]; a task that was missing is appended as
    a placeholder with status running; tasks already present keep their
    place, id and status; the step never fails.  The same holds in the
    document finalize returns. *)
Theorem C8_repair_references (W : World) (c : Contract) :
  let ts := (repair W (tasks c) (assets c)).1 in
  let xs := (repair W (tasks c) (assets c)).2 in
  (∀ a, a ∈ xs →
     Asset.task_id a ≠ ""
     ∧ ∃ t, t ∈ ts ∧ Task.task_id t = Asset.task_id a
            ∧ (Asset.asset_id a ≠ "" → Asset.asset_id a ∈ Task.asset_ids t))
  ∧ (∀ i a, assets c !! i = Some a →
       ∃ a', xs !! i = Some a' ∧ Asset.asset_id a' = Asset.asset_id a
             ∧ Asset.task_id a'
               = if bool_decide (Asset.task_id a = "") then "unassigned"
                 else Asset.task_id a)
  ∧ (∀ j t, tasks c !! j = Some t →
       ∃ t', ts !! j = Some t' ∧ Task.task_id t' = Task.task_id t
             ∧ Task.status t' = Task.status t)
  ∧ (∀ j t, ts !! j = Some t → (length (tasks c) ≤ j)%nat →
       Task.status t = Some "running")
  ∧ (∀ args c' code,
       _cmd_finalize W c args = Val (c', code) →
       ∀ a, a ∈ assets c' →
         ∃ t, t ∈ tasks c' ∧ Task.task_id t = Asset.task_id a
              ∧ (Asset.asset_id a ≠ "" → Asset.asset_id a ∈ Task.asset_ids t)).
Proof.
  intros ts xs.
  destruct (repair_fold W (length (tasks c)) (assets c) (tasks c) (_task_index (tasks c))
              (task_index_sound (tasks c))) as (_ & (_ & Hkeep & Hnew) & Hall).
  fold (repair W (tasks c) (assets c)).1 in *.
  assert (∀ a, a ∈ xs →
            Asset.task_id a ≠ ""
            ∧ ∃ t, t ∈ ts ∧ Task.task_id t = Asset.task_id a
                   ∧ (Asset.asset_id a ≠ "" → Asset.asset_id a ∈ Task.asset_ids t)) as H1.
  { intros a (a0 & -> & Ha0)%list_elem_of_fmap.
    destruct (repair_asset_fields a0) as (Hid & _ & _ & _ & _ & _ & _ & _ & _ & _ & Hne).
    split; [done|]. destruct (Hall a0 Ha0) as (j & t & Ht & Htid & Hin).
    exists t. split; [by eapply list_elem_of_lookup_2|]. split; [done|].
    by rewrite Hid. }
  split_and!; [done| | | |].
  - intros i a Ha. exists (repair_asset a). subst xs. simpl.
    rewrite list_lookup_fmap, Ha. split; [done|]. unfold repair_asset.
    by case_bool_decide.
  - intros j t Ht. destruct (Hkeep j t Ht) as (t' & Ht' & Hid & Hst & _). by exists t'.
  - intros j t Ht Hj. eapply (Hnew); [|done|done|done].
    intros i t0 Ht0 Hi. apply lookup_lt_Some in Ht0. simpl in Ht0. lia.
  - intros args c' code (Hxs & Hts & _)%finalize_Val a. rewrite Hxs, Hts.
    unfold assets_after, tasks_repaired.
    intros (a1 & -> & Ha1)%list_elem_of_fmap.
    destruct (H1 a1 Ha1) as (_ & t & Ht & Htid & Hin).
    destruct (finalize_asset_fields W (_parse_bool (fa_audit_corruption args) true) a1)
      as (_ & _ & _ & _ & _ & Hid & Htid' & _).
    exists (finalize_task W (_asset_index (assets c))
              (finalize_asset W (_parse_bool (fa_audit_corruption args) true)
                 <$> (repair_asset <$> assets c)) t).
    split; [apply list_elem_of_fmap; by exists t|].
    rewrite Hid, Htid'. simpl. done.
Qed.

Lemma C8_repair_references_witness :
  let c := Demo.doc [] [Demo.asset "a" "" "output" None None] in
  let a := Demo.asset "a" "unassigned" "output" None None in
  a ∈ (repair Demo.host (tasks c) (assets c)).2
  ∧ Asset.task_id a ≠ ""
  ∧ ∃ t, t ∈ (repair Demo.host (tasks c) (assets c)).1
         ∧ Task.task_id t = Asset.task_id a
         ∧ (Asset.asset_id a ≠ "" → Asset.asset_id a ∈ Task.asset_ids t).
Proof.
  intros c a.
  assert (a ∈ (repair Demo.host (tasks c) (assets c)).2) as Ha by (by left).
  split; [exact Ha|].
  exact (proj1 (C8_repair_references Demo.host c) a Ha).
Defined.

(** C8 fails as stated for an asset whose id is empty: the repair step
    creates the task it names but does not list the empty id in it. *)
Lemma C8_empty_id_counterexample :
  let c := Demo.doc [] [Demo.asset "" "t" "output" None None] in
  ∃ a, a ∈ (repair Demo.host (tasks c) (assets c)).2
       ∧ ¬ ∃ t, t ∈ (repair Demo.host (tasks c) (assets c)).1
                ∧ Task.task_id t = Asset.task_id a
                ∧ Asset.asset_id a ∈ Task.asset_ids t.
Proof.
  eexists. split; [by left|].
  intros (t & Ht & _ & Hin). vm_compute in Ht.
  apply list_elem_of_singleton in Ht as ->. simpl in Hin. by apply elem_of_nil in Hin.
Qed.

(** *** C2: a failed task fails its assets *)

Section FailedTask.
Variable W : World.

Lemma fail_asset_idem error a :
  fail_asset error (fail_asset error a) = fail_asset error a.
Proof. unfold fail_asset. by destruct error. Qed.

Lemma fail_assets_lookup error index ids xs j :
  fail_assets error index ids xs !! j
  = if bool_decide (Exists (λ aid, index !! aid = Some j) ids)
    then fail_asset error <$> xs !! j
    else xs !! j.
Proof.
  unfold fail_assets. induction ids as [|aid ids IH] using rev_ind.
  - cbn [foldl]. case_bool_decide as H; [|done]. by apply Exists_nil in H.
  - rewrite foldl_app. cbn [foldl].
    set (prev := foldl _ xs ids) in *.
    assert (Exists (λ aid, index !! aid = Some j) (ids ++ [aid])
            ↔ Exists (λ aid, index !! aid = Some j) ids ∨ index !! aid = Some j) as Hex.
    { rewrite Exists_app, Exists_cons, Exists_nil. tauto. }
    destruct (index !! aid) as [k|] eqn:Hk.
    + destruct (decide (k = j)) as [->|Hne].
      * rewrite list_lookup_alter_eq, IH, (bool_decide_true (Exists _ (ids ++ _)))
          by (apply Hex; by right).
        case_bool_decide; [|done].
        rewrite <- option_fmap_compose. apply option_fmap_ext. intros a. simpl.
        apply fail_asset_idem.
      * rewrite list_lookup_alter_ne, IH by done.
        apply (f_equal (λ b : bool, if b then _ else _)), bool_decide_ext.
        rewrite Hex. split; [tauto|]. intros [?|?]; [done|congruence].
    + rewrite IH.
      apply (f_equal (λ b : bool, if b then _ else _)), bool_decide_ext.
      rewrite Hex. split; [tauto|]. intros [?|?]; [done|congruence].
Qed.

Lemma mark_task_fields status error t :
  let t' := mark_task W status error t in
  Task.task_id t' = Task.task_id t ∧ Task.asset_ids t' = Task.asset_ids t
  ∧ Task.status t' = Some status
  ∧ Task.error t' = match error with Some e => Some e | None => Task.error t end.
Proof.
  unfold mark_task.
  by destruct error,
       (bool_decide (status = "running") && negb (str_truthy (Task.started_at t))),
       (bool_decide (status ∈ finishing_statuses)).
Qed.


End FailedTask.




(** *** Counting and the required lists *)

Lemma bump_fold_pos (sts : list string) (m : gmap string nat) k :
  (0 < default 0 (foldl (λ m st, bump st m) m sts !! k))%nat
  ↔ (0 < default 0 (m !! k))%nat ∨ k ∈ sts.
Proof.
  revert m. induction sts as [|st sts IH]; intros m; cbn [foldl].
  - split; [by left|]. intros [?|?%elem_of_nil]; done.
  - rewrite IH, elem_of_cons. unfold bump.
    destruct (decide (st = k)) as [->|Hne].
    + rewrite lookup_insert_eq. simpl. split; [auto|]. intros _. left. lia.
    + rewrite lookup_insert_ne by done. split; [tauto|].
      intros [?|[?|?]]; [by left|congruence|by right].
Qed.

Lemma count_statuses_pos (sts : list string) k :
  (0 < default 0 (count_statuses sts !! k))%nat ↔ k ∈ sts.
Proof.
  unfold count_statuses. rewrite bump_fold_pos, lookup_empty. simpl.
  split; [|by right]. intros [?|?]; [lia|done].
Qed.

Lemma required_with_nonempty sts xs :
  nonempty (required_with sts xs) = true
  ↔ ∃ a, a ∈ xs ∧ Asset.is_required a = true ∧ status_of a ∈ sts.
Proof.
  rewrite nonempty_exists. unfold required_with. split.
  - intros (x & (a & -> & Ha)%list_elem_of_fmap).
    apply list_elem_of_filter in Ha as ((? & ?) & ?). by exists a.
  - intros (a & Ha & Hr & Hs). exists (Asset.asset_id a).
    apply list_elem_of_fmap. exists a. split; [done|]. by apply list_elem_of_filter.
Qed.

Lemma asset_status_values a ex corrupt :
  asset_status a ex corrupt
  ∈ ["failed"; "missing"; "corrupt"; "ok"; "unknown"; "produced"; "expected"].
Proof.
  unfold asset_status.
  repeat (match goal with |- context [if ?b then _ else _] => destruct b end);
    set_solver.
Qed.

(** After finalize every asset has one of the seven statuses. *)
Lemma assets_after_status W c args a :
  a ∈ assets_after W c args →
  ∃ s, Asset.status a = Some s ∧ status_of a = s
       ∧ s ∈ ["failed"; "missing"; "corrupt"; "ok"; "unknown"; "produced"; "expected"].
Proof.
  unfold assets_after. intros (a1 & -> & _)%list_elem_of_fmap.
  destruct (finalize_asset_fields W (_parse_bool (fa_audit_corruption args) true) a1)
    as (_ & _ & _ & _ & Hst & _).
  eexists. split; [exact Hst|]. split; [|apply asset_status_values].
  unfold status_of. rewrite Hst.
  pose proof (asset_status_values a1 (_asset_exists W a1).1.1
                (audit_asset W (_parse_bool (fa_audit_corruption args) true) a1
                   (_asset_exists W a1).1.1).1) as Hv.
  unfold str_or. destruct (asset_status _ _ _); [|done].
  by repeat (apply elem_of_cons in Hv as [Hv|Hv]; [done|]); apply elem_of_nil in Hv.
Qed.

Lemma assets_after_status_of W c args a st :
  a ∈ assets_after W c args → status_of a = st ↔ Asset.status a = Some st.
Proof.
  intros (s & Hs & Hof & _)%assets_after_status. rewrite Hs, Hof.
  split; [by intros ->|by intros [= ->]].
Qed.

(** *** C3: the task rollup *)

Lemma required_assets_elem m xs t a :
  a ∈ required_assets m xs t
  ↔ ∃ aid j, aid ∈ Task.asset_ids t ∧ m !! aid = Some j ∧ xs !! j = Some a
             ∧ Asset.is_required a = true.
Proof.
  unfold required_assets. rewrite list_elem_of_omap. split.
  - intros (aid & Haid & Hf). destruct (m !! aid) as [j|] eqn:Hm; [|done].
    simpl in Hf. destruct (xs !! j) as [b|] eqn:Hb; [|done]. simpl in Hf.
    destruct (Asset.is_required b) eqn:Hr; [|done]. injection Hf as <-.
    by exists aid, j.
  - intros (aid & j & Haid & Hm & Hj & Hr). exists aid. split; [done|].
    rewrite Hm. simpl. rewrite Hj. simpl. by rewrite Hr.
Qed.

(** Rewriting the status of an asset that is not required changes no list
    of required assets. *)
Lemma required_assets_unrequired m xs t j x s :
  xs !! j = Some x → Asset.is_required x = false →
  required_assets m (<[j := Asset.set_status s x]> xs) t = required_assets m xs t.
Proof.
  intros Hx Hr. unfold required_assets. apply list_omap_ext, Forall2_same_length_lookup.
  split; [done|]. intros i aid aid' Hi Hi'. simplify_eq.
  destruct (m !! aid) as [k|]; [|done]. simpl.
  destruct (decide (j = k)) as [<-|Hne].
  - rewrite list_lookup_insert_eq by (by eapply lookup_lt_Some). rewrite Hx. simpl.
    unfold Asset.is_required in *. simpl. by rewrite Hr.
  - by rewrite list_lookup_insert_ne.
Qed.

Lemma rollup_cases prior req :
  let final := rollup prior req in
  (prior = "failed" → final = "failed")
  ∧ (prior ≠ "failed" → "failed" ∈ req → final = "failed")
  ∧ (prior ≠ "failed" → "failed" ∉ req → "missing" ∈ req →
     final = "succeeded_with_missing_outputs")
  ∧ (prior ≠ "failed" → "failed" ∉ req → "missing" ∉ req → "corrupt" ∈ req →
     final = "succeeded_with_corrupt_outputs")
  ∧ (prior ≠ "failed" → "failed" ∉ req → "missing" ∉ req → "corrupt" ∉ req →
     "unknown" ∈ req → final = "succeeded_with_unverified_outputs")
  ∧ (prior ≠ "failed" → req ≠ [] → Forall (λ st, st = "ok") req → final = "succeeded")
  ∧ (req = [] → prior ∈ [""; "expected"; "running"; "produced"] → final = "succeeded")
  ∧ (req = [] → prior ∉ [""; "expected"; "running"; "produced"] → final = prior).
Proof.
  unfold rollup. split_and!.
  - intros ->. done.
  - intros Hp Hin. rewrite bool_decide_false by done.
    destruct req as [|s req]; [by apply elem_of_nil in Hin|]. cbn [nonempty].
    by rewrite bool_decide_true.
  - intros Hp H1 Hin. rewrite bool_decide_false by done.
    destruct req as [|s req]; [by apply elem_of_nil in Hin|]. cbn [nonempty].
    by rewrite bool_decide_false, bool_decide_true.
  - intros Hp H1 H2 Hin. rewrite bool_decide_false by done.
    destruct req as [|s req]; [by apply elem_of_nil in Hin|]. cbn [nonempty].
    rewrite (bool_decide_false ("failed" ∈ _)), (bool_decide_false ("missing" ∈ _)) by done.
    by rewrite bool_decide_true.
  - intros Hp H1 H2 H3 Hin. rewrite bool_decide_false by done.
    destruct req as [|s req]; [by apply elem_of_nil in Hin|]. cbn [nonempty].
    rewrite (bool_decide_false ("failed" ∈ _)), (bool_decide_false ("missing" ∈ _)),
      (bool_decide_false ("corrupt" ∈ _)) by done.
    by rewrite bool_decide_true.
  - intros Hp Hne Hall. rewrite bool_decide_false by done.
    destruct req as [|s req]; [done|]. cbn [nonempty].
    assert (∀ st, st ≠ "ok" → st ∉ s :: req) as Hno.
    { intros st Hst Hin. by apply (proj1 (Forall_forall _ _) Hall) in Hin. }
    rewrite (bool_decide_false ("failed" ∈ _)), (bool_decide_false ("missing" ∈ _)),
      (bool_decide_false ("corrupt" ∈ _)), (bool_decide_false ("unknown" ∈ _))
      by (by apply Hno).
    by rewrite bool_decide_true.
  - intros -> Hin. cbn [nonempty].
    case_bool_decide as E; [|by rewrite bool_decide_true].
    subst prior. exfalso.
    by repeat (apply elem_of_cons in Hin as [Hin|Hin]; [done|]); apply elem_of_nil in Hin.
  - intros -> Hin. cbn [nonempty].
    case_bool_decide as E; [done|]. rewrite bool_decide_false by done.
    unfold str_or. destruct prior; [|done]. destruct Hin. by left.
Qed.

Lemma tasks_repaired_keep W c j t :
  tasks c !! j = Some t →
  ∃ t', tasks_repaired W c !! j = Some t' ∧ Task.task_id t' = Task.task_id t
        ∧ Task.status t' = Task.status t.
Proof.
  intros Ht.
  destruct (repair_fold W 0 (assets c) (tasks c) (_task_index (tasks c))
              (task_index_sound (tasks c))) as (_ & (_ & Hkeep & _) & _).
  destruct (Hkeep j t Ht) as (t' & Ht' & Hid & Hst & _). by exists t'.
Qed.

(** C3.  At finalize each task (those of the document after the repair
    step) gets a status from its prior status and from the statuses of its
    required assets alone, the required assets being those its asset_ids
    resolve to: a failed task stays failed; otherwise any failed asset gives
    failed, else any missing gives succeeded_with_missing_outputs, else any
    corrupt gives succeeded_with_corrupt_outputs, else any unknown gives
    succeeded_with_unverified_outputs, else all ok gives succeeded; with no
    required asset the task becomes succeeded when its prior status is
    empty, expected, running or produced, and keeps its prior status
    otherwise.  Changing the status of an asset that is not required changes
    no rollup. *)
Theorem C3_task_rollup (W : World) (c : Contract) (args : FinalizeArgs)
    (c' : Contract) (code : Z) (i : nat) (t : Task.t) :
  _cmd_finalize W c args = Val (c', code) →
  tasks_repaired W c !! i = Some t →
  let prior := str_or (Task.status t) "" in
  let req := required_assets (_asset_index (assets c)) (assets c') t in
  let any st := ∃ a, a ∈ req ∧ Asset.status a = Some st in
  ∃ t' final,
    tasks c' !! i = Some t' ∧ Task.task_id t' = Task.task_id t
    ∧ Task.status t' = Some final
    ∧ length (tasks c') = length (tasks_repaired W c)
    ∧ (∀ t0, tasks c !! i = Some t0 →
             Task.status t0 = Task.status t ∧ Task.task_id t0 = Task.task_id t)
    ∧ (∀ a, a ∈ req ↔
            ∃ aid j, aid ∈ Task.asset_ids t
                     ∧ _asset_index (assets c) !! aid = Some j
                     ∧ assets c' !! j = Some a ∧ Asset.is_required a = true)
    ∧ (prior = "failed" → final = "failed")
    ∧ (prior ≠ "failed" → any "failed" → final = "failed")
    ∧ (prior ≠ "failed" → ¬ any "failed" → any "missing" →
       final = "succeeded_with_missing_outputs")
    ∧ (prior ≠ "failed" → ¬ any "failed" → ¬ any "missing" → any "corrupt" →
       final = "succeeded_with_corrupt_outputs")
    ∧ (prior ≠ "failed" → ¬ any "failed" → ¬ any "missing" → ¬ any "corrupt" →
       any "unknown" → final = "succeeded_with_unverified_outputs")
    ∧ (prior ≠ "failed" → req ≠ [] → (∀ a, a ∈ req → Asset.status a = Some "ok") →
       final = "succeeded")
    ∧ (req = [] → prior ∈ [""; "expected"; "running"; "produced"] →
       final = "succeeded")
    ∧ (req = [] → prior ∉ [""; "expected"; "running"; "produced"] → final = prior)
    ∧ (∀ j x s, assets c' !! j = Some x → Asset.is_required x = false →
         final_status (_asset_index (assets c))
                      (<[j := Asset.set_status s x]> (assets c')) t
         = final).
Proof.
  intros (Hxs & Hts & _)%finalize_Val Ht prior req any.
  set (m := _asset_index (assets c)) in *.
  exists (finalize_task W m (assets c') t), (final_status m (assets c') t).
  assert (∀ a st, a ∈ req → status_of a = st ↔ Asset.status a = Some st) as Hof.
  { intros a st (aid & j & _ & _ & Ha%list_elem_of_lookup_2 & _)%required_assets_elem.
    rewrite Hxs in Ha. exact (assets_after_status_of W c args a st Ha). }
  assert (∀ st, st ∈ status_of <$> req ↔ any st) as Hany.
  { intros st. rewrite list_elem_of_fmap. unfold any. split.
    - intros (a & -> & Ha). exists a. split; [done|]. by apply Hof.
    - intros (a & Ha & Hst). exists a. split; [|done]. symmetry. by apply Hof. }
  destruct (rollup_cases prior (status_of <$> req))
    as (R1 & R2 & R3 & R4 & R5 & R6 & R7 & R8).
  change (rollup prior (status_of <$> req)) with (final_status m (assets c') t) in *.
  split_and!.
  - rewrite Hts, <- Hxs, list_lookup_fmap, Ht. done.
  - done.
  - done.
  - by rewrite Hts, length_fmap.
  - intros t0 Ht0. destruct (tasks_repaired_keep W c i t0 Ht0) as (t1 & Ht1 & Hid & Hst).
    rewrite Ht in Ht1. injection Ht1 as <-. done.
  - intros a. apply required_assets_elem.
  - done.
  - intros Hp Ha. apply R2; [done|]. by apply Hany.
  - intros Hp H1 Ha. apply R3; [done| |]; by rewrite Hany.
  - intros Hp H1 H2 Ha. apply R4; [done| | |]; by rewrite Hany.
  - intros Hp H1 H2 H3 Ha. apply R5; [done| | | |]; by rewrite Hany.
  - intros Hp Hne Hall. apply R6; [done| |].
    + by destruct req.
    + apply Forall_forall. intros st (a & -> & Ha)%list_elem_of_fmap.
      apply Hof; [done|]. by apply Hall.
  - intros Hreq. apply R7. by rewrite Hreq.
  - intros Hreq. apply R8. by rewrite Hreq.
  - intros j x s Hx Hr. unfold final_status.
    by rewrite required_assets_unrequired.
Qed.

Lemma C3_task_rollup_witness :
  let c := Demo.doc [Demo.task "t" "running" ["a"]]
             [Demo.asset "a" "t" "output" (Some "/data/meta.json") None] in
  match _cmd_finalize Demo.host c (Demo.finalize_args false) with
  | Val (c', code) =>
      tasks_repaired Demo.host c !! 0%nat = Some (Demo.task "t" "running" ["a"])
      ∧ ∃ t', tasks c' !! 0%nat = Some t' ∧ Task.task_id t' = "t"
              ∧ Task.status t' = Some "succeeded"
  | Raise _ => False
  end.
Proof.
  intros c.
  destruct (_cmd_finalize Demo.host c (Demo.finalize_args false))
    as [[c' code]|] eqn:Hrun; [|by vm_compute in Hrun].
  assert (tasks_repaired Demo.host c !! 0%nat = Some (Demo.task "t" "running" ["a"]))
    as Ht by reflexivity.
  split; [exact Ht|].
  destruct (C3_task_rollup Demo.host c (Demo.finalize_args false) c' code 0
              (Demo.task "t" "running" ["a"]) Hrun Ht)
    as (t' & final & Ht' & Hid & Hst & _ & _ & _ & _ & _ & _ & _ & _ & Hok & _).
  exists t'. split; [exact Ht'|]. split; [exact Hid|]. rewrite Hst. f_equal.
  pose proof Hrun as Hc. vm_compute in Hc. injection Hc as <- <-.
  apply Hok; [done|by vm_compute|].
  intros a Ha. vm_compute in Ha. apply list_elem_of_singleton in Ha as ->. reflexivity.
Defined.

(** *** C4 and C9: run status and completion code *)

Section Summary.
Variables (W : World) (c : Contract) (args : FinalizeArgs).



Lemma failed_count_iff m xs ts :
  (0 < default 0 (count_statuses (final_status m xs <$> ts) !! "failed"))%nat
  ↔ task_failed (finalize_task W m xs <$> ts).
Proof.
  rewrite count_statuses_pos, list_elem_of_fmap. unfold task_failed. split.
  - intros (t & Hf & Ht). exists (finalize_task W m xs t).
    split; [apply list_elem_of_fmap; by exists t|]. simpl. by rewrite Hf.
  - intros (t' & (t & -> & Ht)%list_elem_of_fmap & Hst). exists t. split; [|done].
    simpl in Hst. by injection Hst.
Qed.

Lemma required_with_iff sts :
  nonempty (required_with sts (assets_after W c args)) = true
  ↔ ∃ st, st ∈ sts ∧ required_in (assets_after W c args) st.
Proof.
  rewrite required_with_nonempty. unfold required_in. split.
  - intros (a & Ha & Hr & Hs). exists (status_of a). split; [done|].
    exists a. split_and!; try done. by apply (assets_after_status_of W c args).
  - intros (st & Hst & a & Ha & Hr & Hs). exists a. split_and!; try done.
    by apply (assets_after_status_of W c args a st Ha) in Hs as ->.
Qed.

End Summary.

(** In a document whose asset ids are not empty and not shared, a required
    asset that ends failed always comes with a failed task: there the run is
    FAILED before the lists of required assets are consulted. *)
Lemma failed_asset_fails_task (W : World) (c : Contract) (args : FinalizeArgs)
    (c' : Contract) (code : Z) (j : nat) (a : Asset.t) :
  _cmd_finalize W c args = Val (c', code) →
  assets c' !! j = Some a →
  Asset.is_required a = true → Asset.status a = Some "failed" →
  Asset.asset_id a ≠ "" →
  (∀ q b, assets c' !! q = Some b → Asset.asset_id b = Asset.asset_id a → (q ≤ j)%nat) →
  task_failed (tasks c').
Proof.
  intros (Hxs & Hts & _)%finalize_Val Ha Hreq Hst Hid Hlast.
  set (au := _parse_bool (fa_audit_corruption args) true) in *.
  assert (∀ q b0, assets c !! q = Some b0 →
            assets c' !! q = Some (finalize_asset W au (repair_asset b0))
            ∧ Asset.asset_id (finalize_asset W au (repair_asset b0)) = Asset.asset_id b0)
    as Hmap.
  { intros q b0 Hq. split.
    - rewrite Hxs. unfold assets_after. by rewrite !list_lookup_fmap, Hq.
    - destruct (finalize_asset_fields W au (repair_asset b0))
        as (_ & _ & _ & _ & _ & -> & _).
      by destruct (repair_asset_fields b0) as (-> & _). }
  destruct (assets c !! j) as [a0|] eqn:Ha0.
  2:{ rewrite Hxs in Ha. unfold assets_after in Ha.
      by rewrite !list_lookup_fmap, Ha0 in Ha. }
  destruct (Hmap j a0 Ha0) as (Ha' & Hid0). rewrite Ha in Ha'. injection Ha' as ->.
  assert (_asset_index (assets c) !! Asset.asset_id a0 = Some j) as Hidx.
  { apply asset_index_last; [done|]. intros q b0 Hq Hb.
    destruct (Hmap q b0 Hq) as (Hq' & Hidq). apply (Hlast q _ Hq'). congruence. }
  destruct (repair_fold W 0 (assets c) (tasks c) (_task_index (tasks c))
              (task_index_sound (tasks c))) as (_ & _ & Hall).
  destruct (Hall a0) as (k & t & Ht & _ & Hin); [by eapply list_elem_of_lookup_2|].
  exists (finalize_task W (_asset_index (assets c)) (assets c') t). split.
  - rewrite Hts, <- Hxs. apply list_elem_of_fmap. exists t. split; [done|].
    by eapply list_elem_of_lookup_2.
  - simpl. f_equal. unfold final_status.
    set (req := required_assets _ _ t).
    assert ("failed" ∈ status_of <$> req) as Hfailed.
    { apply list_elem_of_fmap. eexists. split; [|apply required_assets_elem].
      - unfold status_of. by rewrite Hst.
      - exists (Asset.asset_id a0), j. split_and!; try done. apply Hin. congruence. }
    destruct (rollup_cases (str_or (Task.status t) "") (status_of <$> req))
      as (R1 & R2 & _).
    destruct (decide (str_or (Task.status t) "" = "failed")); [by apply R1|by apply R2].
Qed.

(** C4 (as amended).  Finalize stores the caller's status, stripped of
    surrounding white space, when that is not empty.  Otherwise: FAILED if
    some task's final status is failed; else FINISHED_WITH_ISSUES if some
    required asset is missing, failed or corrupt; else
    FINISHED_WITH_UNVERIFIED_OUTPUTS if some required asset is unknown; else
    FINISHED. *)
Theorem C4_run_status (W : World) (c : Contract) (args : FinalizeArgs)
    (c' : Contract) (code : Z) :
  _cmd_finalize W c args = Val (c', code) →
  let given := Py.strip (str_or (fa_status args) "") in
  let failed := task_failed (tasks c') in
  let req := required_in (assets c') in
  ∃ st, run_status (run_meta c') = Some st
        ∧ (given ≠ "" → st = given)
        ∧ (given = "" → failed → st = "FAILED")
        ∧ (given = "" → ¬ failed → req "missing" ∨ req "failed" ∨ req "corrupt" →
           st = "FINISHED_WITH_ISSUES")
        ∧ (given = "" → ¬ failed → ¬ req "missing" → ¬ req "failed" → ¬ req "corrupt" →
           req "unknown" → st = "FINISHED_WITH_UNVERIFIED_OUTPUTS")
        ∧ (given = "" → ¬ failed → ¬ req "missing" → ¬ req "failed" → ¬ req "corrupt" →
           ¬ req "unknown" → st = "FINISHED").
Proof.
  intros (Hxs & Hts & merged & _ & Hst & _)%finalize_Val given failed req.
  simpl in Hst. fold given in Hst. eexists. split; [exact Hst|].
  unfold failed, req. rewrite Hxs, Hts. clear Hst Hxs Hts.
  unfold computed_run_status.
  pose proof (failed_count_iff W (_asset_index (assets c)) (assets_after W c args)
                (tasks_repaired W c)) as Hf.
  pose proof (required_with_iff W c args ["missing"; "failed"]) as Hm.
  pose proof (required_with_iff W c args ["corrupt"]) as Hc.
  pose proof (required_with_iff W c args ["unknown"]) as Hu.
  split_and!.
  - intros Hg. by rewrite bool_decide_false.
  - intros Hg Hfail. rewrite bool_decide_true by done.
    by rewrite bool_decide_true by (by apply Hf).
  - intros Hg Hfail Hreq. rewrite bool_decide_true by done.
    rewrite bool_decide_false by (by rewrite Hf).
    assert (nonempty (required_with ["missing"; "failed"] (assets_after W c args))
            || nonempty (required_with ["corrupt"] (assets_after W c args)) = true) as ->;
      [|done].
    apply orb_true_iff. destruct Hreq as [H|[H|H]].
    + left. apply Hm. exists "missing". split; [by left|done].
    + left. apply Hm. exists "failed". split; [by right; left|done].
    + right. apply Hc. exists "corrupt". split; [by left|done].
  - intros Hg Hfail H1 H2 H3 H4. rewrite bool_decide_true by done.
    rewrite bool_decide_false by (by rewrite Hf).
    assert (nonempty (required_with ["missing"; "failed"] (assets_after W c args)) = false)
      as ->.
    { apply not_true_is_false. rewrite Hm. intros (st & Hst & Hr).
      apply elem_of_cons in Hst as [->|Hst]; [done|].
      apply list_elem_of_singleton in Hst as ->. done. }
    assert (nonempty (required_with ["corrupt"] (assets_after W c args)) = false) as ->.
    { apply not_true_is_false. rewrite Hc. intros (st & Hst & Hr).
      apply list_elem_of_singleton in Hst as ->. done. }
    simpl.
    assert (nonempty (required_with ["unknown"] (assets_after W c args)) = true) as ->;
      [|done].
    apply Hu. exists "unknown". split; [by left|done].
  - intros Hg Hfail H1 H2 H3 H4. rewrite bool_decide_true by done.
    rewrite bool_decide_false by (by rewrite Hf).
    assert (nonempty (required_with ["missing"; "failed"] (assets_after W c args)) = false)
      as ->.
    { apply not_true_is_false. rewrite Hm. intros (st & Hst & Hr).
      apply elem_of_cons in Hst as [->|Hst]; [done|].
      apply list_elem_of_singleton in Hst as ->. done. }
    assert (nonempty (required_with ["corrupt"] (assets_after W c args)) = false) as ->.
    { apply not_true_is_false. rewrite Hc. intros (st & Hst & Hr).
      apply list_elem_of_singleton in Hst as ->. done. }
    simpl.
    assert (nonempty (required_with ["unknown"] (assets_after W c args)) = false) as ->;
      [|done].
    apply not_true_is_false. rewrite Hu. intros (st & Hst & Hr).
    apply list_elem_of_singleton in Hst as ->. done.
Qed.

Lemma C4_run_status_witness :
  let c := Demo.doc [Demo.task "t" "running" ["a"]]
             [Demo.asset "a" "t" "output" (Some "/data/absent.bin") None] in
  match _cmd_finalize Demo.host c (Demo.finalize_args false) with
  | Val (c', code) => run_status (run_meta c') = Some "FINISHED_WITH_ISSUES"
  | Raise _ => False
  end.
Proof.
  intros c.
  destruct (_cmd_finalize Demo.host c (Demo.finalize_args false))
    as [[c' code]|] eqn:Hrun; [|by vm_compute in Hrun].
  destruct (C4_run_status Demo.host c (Demo.finalize_args false) c' code Hrun)
    as (st & Hst & _ & _ & Hissues & _).
  rewrite Hst. f_equal.
  pose proof Hrun as Hc. vm_compute in Hc. injection Hc as <- <-.
  apply Hissues.
  - reflexivity.
  - intros (t & Ht & Hfail). vm_compute in Ht.
    apply list_elem_of_singleton in Ht as ->. discriminate.
  - left. eexists. split; [by left|]. split; reflexivity.
Defined.

(** C4 fails as stated: a required asset that is failed while no task is
    failed (here an asset without id, which no task lists) makes the run
    FINISHED_WITH_ISSUES, although no required asset is missing, corrupt or
    unknown. *)
Lemma C4_failed_asset_counterexample :
  let c := Demo.doc []
             [Demo.asset "" "t" "output" (Some "/data/meta.json") (Some Demo.boom)] in
  match _cmd_finalize Demo.host c (Demo.finalize_args false) with
  | Val (c', _) =>
      (Task.status <$> tasks c') = [Some "succeeded"]
      ∧ (Asset.is_required <$> assets c') = [true]
      ∧ (Asset.status <$> assets c') = [Some "failed"]
      ∧ run_status (run_meta c') = Some "FINISHED_WITH_ISSUES"
      ∧ run_status (run_meta c') ≠ Some "FINISHED"
  | Raise _ => False
  end.
Proof. vm_compute. by repeat split. Qed.

(** C9 (as amended).  Finalize, when the caller's verification object does
    not override the three lists of required asset ids, returns 2 in strict
    mode exactly when some required asset ends missing, failed, corrupt or
    unknown or some task ends failed, and 0 otherwise; without strict mode it
    returns 0.  Preflight returns 2 exactly when it is strict and some
    required input asset was found missing, and 0 otherwise, also when
    required inputs are unknown. *)
Theorem C9_completion_code (W : World) (c : Contract) :
  (∀ args c' code,
     _cmd_finalize W c args = Val (c', code) →
     (∀ d, fa_verification_json args = Some (JObj d) →
           d !! "missing_required_asset_ids" = None
           ∧ d !! "corrupt_required_asset_ids" = None
           ∧ d !! "unverified_required_asset_ids" = None) →
     let bad :=
       (∃ st, st ∈ ["missing"; "failed"; "corrupt"; "unknown"]
              ∧ required_in (assets c') st)
       ∨ task_failed (tasks c') in
     (fa_strict args = true → bad → code = 2)
     ∧ (fa_strict args = true → ¬ bad → code = 0)
     ∧ (fa_strict args = false → code = 0))
  ∧ (∀ strict,
       let r := _cmd_preflight W c strict in
       let missing :=
         ∃ a, a ∈ assets r.1 ∧ is_input a = true ∧ Asset.is_required a = true
              ∧ Asset.status a = Some "missing" in
       (strict = true → missing → r.2 = 2)
       ∧ (¬ missing → r.2 = 0)
       ∧ (strict = false → r.2 = 0)).
Proof.
  split.
  - intros args c' code Hrun Hkeys bad.
    apply finalize_Val in Hrun as (Hxs & Hts & merged & Hmerged & _ & Hcode).
    simpl in Hcode.
    assert (merged !! "missing_required_asset_ids" = None
            ∧ merged !! "corrupt_required_asset_ids" = None
            ∧ merged !! "unverified_required_asset_ids" = None) as (K1 & K2 & K3).
    { destruct Hmerged as [[_ ->]|Hm]; [by rewrite !lookup_empty|by apply Hkeys]. }
    unfold report_truthy in Hcode. rewrite K1, K2, K3, !sorted_set_nonempty in Hcode.
    pose proof (failed_count_iff W (_asset_index (assets c)) (assets_after W c args)
                  (tasks_repaired W c)) as Hf.
    pose proof (required_with_iff W c args ["missing"; "failed"]) as Hm.
    pose proof (required_with_iff W c args ["corrupt"]) as Hc.
    pose proof (required_with_iff W c args ["unknown"]) as Hu.
    set (b := _ || _ || _ || _) in Hcode.
    assert (b = true ↔ bad) as Hb.
    { unfold b, bad. rewrite !orb_true_iff, bool_decide_eq_true, Hf, Hm, Hc, Hu, Hxs, Hts.
      split.
      - intros [[[(st & Hst & H)|(st & Hst & H)]|(st & Hst & H)]|H]; [| | |by right];
          left; exists st; (split; [|done]);
          repeat (apply elem_of_cons in Hst as [->|Hst]; [in_list|]);
          by apply elem_of_nil in Hst.
      - intros [(st & Hst & H)|H]; [|by right].
        repeat (apply elem_of_cons in Hst as [->|Hst]).
        + left; left; left. exists "missing". split; [in_list|done].
        + left; left; left. exists "failed". split; [in_list|done].
        + left; left; right. exists "corrupt". split; [in_list|done].
        + left; right. exists "unknown". split; [in_list|done].
        + by apply elem_of_nil in Hst. }
    split_and!.
    + intros Hs Hbad. apply Hb in Hbad. by rewrite Hcode, Hs, Hbad.
    + intros Hs Hbad. rewrite Hcode, Hs. destruct b; [|done]. by destruct Hbad; apply Hb.
    + intros Hs. by rewrite Hcode, Hs.
  - intros strict r missing. subst r. cbn [_cmd_preflight fst snd assets].
    set (xs := (λ a, if is_input a then preflight_asset W a else a) <$> assets c).
    assert (nonempty
              (Asset.asset_id
                 <$> filter (λ a, Asset.is_required a = true)
                       (filter (λ a, Asset.exists_ a = Some false)
                          (filter (λ a, is_input a = true) xs))) = true
            ↔ missing) as Hm.
    { rewrite nonempty_exists. unfold missing. cbn [_cmd_preflight fst assets]. fold xs.
      split.
      - intros (x & (a & -> & Ha)%list_elem_of_fmap).
        apply list_elem_of_filter in Ha as (Hr & Ha).
        apply list_elem_of_filter in Ha as (He & Ha).
        apply list_elem_of_filter in Ha as (Hi & Ha).
        exists a. split_and!; try done.
        apply list_elem_of_fmap in Ha as (a0 & -> & Ha0).
        destruct (is_input a0) eqn:Hi0.
        + destruct (preflight_asset_fields W a0) as (Hex & Hst & _).
          rewrite Hst. rewrite Hex in He. by rewrite He.
        + by rewrite Hi0 in Hi.
      - intros (a & Ha & Hi & Hr & Hst). exists (Asset.asset_id a).
        apply list_elem_of_fmap. exists a. split; [done|].
        repeat (apply list_elem_of_filter; split; try done).
        apply list_elem_of_fmap in Ha as (a0 & -> & Ha0).
        destruct (is_input a0) eqn:Hi0.
        + destruct (preflight_asset_fields W a0) as (Hex & Hst' & _).
          rewrite Hst' in Hst. rewrite Hex.
          by destruct ((_asset_exists W a0).1.1) as [[]|].
        + by rewrite Hi0 in Hi. }
    split_and!.
    + intros Hs Hmiss. apply Hm in Hmiss. by rewrite Hs, Hmiss.
    + intros Hno. destruct (nonempty _) eqn:E; [by destruct Hno; apply Hm|].
      by rewrite andb_false_r.
    + by intros ->.
Qed.

Lemma C9_completion_code_witness :
  let c := Demo.doc [] [Demo.asset "in" "t" "input" (Some "/data/absent.bin") None] in
  (_cmd_preflight Demo.host c true).2 = 2.
Proof.
  intros c.
  apply (proj2 (C9_completion_code Demo.host c) true); [reflexivity|].
  eexists. split; [by left|]. by repeat split.
Defined.

(** C9 fails as stated for preflight: in strict mode a required input asset
    that ends unknown (here: no location, no backend) still gives 0. *)
Lemma C9_preflight_unknown_counterexample :
  let c := Demo.doc [] [Demo.asset "in" "t" "input" None None] in
  let r := _cmd_preflight Demo.host c true in
  (Asset.is_required <$> assets r.1) = [true]
  ∧ (Asset.status <$> assets r.1) = [Some "unknown"]
  ∧ r.2 = 0.
Proof. vm_compute. by repeat split. Qed.

(** *** C5: the folder partition *)

Section Folders.

Lemma group_fold_lookup (xs : list Asset.t) (m : gmap string (list Asset.t)) f :
  foldl group_add m xs !! f
  = match filter (λ a, _gcs_folder a = Some f) xs with
    | [] => m !! f
    | l => Some (default [] (m !! f) ++ l)
    end.
Proof.
  revert m. induction xs as [|x xs IH]; intros m; cbn [foldl]; [done|].
  rewrite IH. unfold group_add. rewrite filter_cons.
  destruct (_gcs_folder x) as [g|] eqn:Hg.
  - destruct (decide (g = f)) as [->|Hne].
    + rewrite decide_True by done. rewrite lookup_insert_eq.
      destruct (filter _ xs); [done|]. simpl. by rewrite <- app_assoc.
    + rewrite decide_False by congruence. by rewrite lookup_insert_ne.
  - by rewrite decide_False.
Qed.

Lemma group_lookup (xs : list Asset.t) f l :
  _group_assets_by_folder xs !! f = Some l
  ↔ l ≠ [] ∧ l = filter (λ a, _gcs_folder a = Some f) xs.
Proof.
  unfold _group_assets_by_folder. rewrite group_fold_lookup, lookup_empty. simpl.
  destruct (filter _ xs) as [|y ys]; split; try done.
  - by intros [? ->].
  - by intros [= <-].
  - by intros [_ ->].
Qed.

Lemma group_add_flat (m : gmap string (list Asset.t)) x :
  concat ((map_to_list (group_add m x)).*2)
  ≡ₚ concat ((map_to_list m).*2) ++ filter (λ a, is_Some (_gcs_folder a)) [x].
Proof.
  unfold group_add. rewrite filter_cons, filter_nil.
  destruct (_gcs_folder x) as [f|] eqn:Hf.
  - rewrite decide_True by done. destruct (m !! f) as [d|] eqn:Hm; simpl.
    + rewrite <- insert_delete_eq.
      rewrite map_to_list_insert by apply lookup_delete_eq.
      rewrite <- (map_to_list_delete m f d Hm). simpl.
      rewrite <- !app_assoc. apply Permutation_app_head, Permutation_app_comm.
    + rewrite map_to_list_insert by done. simpl. apply Permutation_cons_append.
  - rewrite decide_False by (by intros [? ?]). by rewrite app_nil_r.
Qed.

Lemma group_fold_flat (xs : list Asset.t) (m : gmap string (list Asset.t)) :
  concat ((map_to_list (foldl group_add m xs)).*2)
  ≡ₚ concat ((map_to_list m).*2) ++ filter (λ a, is_Some (_gcs_folder a)) xs.
Proof.
  revert m. induction xs as [|x xs IH]; intros m; cbn [foldl].
  - by rewrite filter_nil, app_nil_r.
  - rewrite IH, group_add_flat, <- app_assoc. apply Permutation_app_head.
    by rewrite <- filter_app.
Qed.


End Folders.



(** A listing on the demonstration host: the folder header and the
    sub-folder line are dropped or kept by the rule of the code, doubled
    slashes collapse, duplicates merge, and the result is sorted. *)
Example gcs_listing_example :
  _asset_exists Demo.cloud (Demo.glob_asset "g" "gs://bucket/run/**")
  = (Some true, "gcs_glob",
     ["gs://bucket/run/:"; "gs://bucket/run/a.tif"; "gs://bucket/run/b.tif"]).
Proof. reflexivity. Qed.


(** *** The scenarios of the specification, run on the demonstration hosts *)

(** Two declared outputs at object-storage URIs, one required and one
    optional; the required one recorded as produced, its task marked
    succeeded; finalize without a storage backend: both assets unknown, the
    task succeeded_with_unverified_outputs, the run
    FINISHED_WITH_UNVERIFIED_OUTPUTS, and 2 in strict mode. *)
Example scenario_unverified :
  let a := Demo.uri_asset "out/a" "gs://bucket/run/a.tif" in
  let b := Asset.set_required (Some false) (Demo.uri_asset "out/b" "gs://bucket/run/b.jsonl") in
  let c0 := Demo.doc [Demo.task "t" "expected" ["out/a"; "out/b"]] [a; b] in
  let produced :=
    {| rp_task_id := "t"; rp_asset_id := Some "out/a"; rp_kind := None;
       rp_required := None; rp_uri := Some "gs://bucket/run/a.tif";
       rp_local_path := None; rp_local_glob := None; rp_gcs_glob := None;
       rp_extra_json := None |} in
  match _cmd_record_produced Demo.host c0 produced with
  | Val c1 =>
      (Asset.status <$> assets c1) = [Some "produced"; Some "expected"]
      ∧ match _cmd_finalize Demo.host (_set_task_status Demo.host c1 "t" "succeeded" None)
                (Demo.finalize_args true) with
        | Val (c2, code) =>
            (Asset.status <$> assets c2) = [Some "unknown"; Some "unknown"]
            ∧ (Asset.exists_reason <$> assets c2)
              = [Some "gsutil_unavailable"; Some "gsutil_unavailable"]
            ∧ (Task.status <$> tasks c2) = [Some "succeeded_with_unverified_outputs"]
            ∧ run_status (run_meta c2) = Some "FINISHED_WITH_UNVERIFIED_OUTPUTS"
            ∧ code = 2
        | Raise _ => False
        end
  | Raise _ => False
  end.
Proof. vm_compute. by repeat split. Qed.

(** A required asset at a local path that does not exist: missing, listed
    among the missing required ids, the run FINISHED_WITH_ISSUES, and 2 in
    strict mode. *)
Example scenario_missing :
  let c := Demo.doc [Demo.task "t" "running" ["a"]]
             [Demo.asset "a" "t" "output" (Some "/data/absent.bin") None] in
  match _cmd_finalize Demo.host c (Demo.finalize_args true) with
  | Val (c', code) =>
      (Asset.status <$> assets c') = [Some "missing"]
      ∧ (missing_required_asset_ids <$> verification c') = Some ["a"]
      ∧ run_status (run_meta c') = Some "FINISHED_WITH_ISSUES"
      ∧ code = 2
  | Raise _ => False
  end.
Proof. vm_compute. by repeat split. Qed.

(** Two assets in one object-storage folder next to a local-only asset: one
    group, holding the two. *)
Example scenario_one_folder :
  let a1 := Demo.uri_asset "a1" "gs://bucket/run/a.tif" in
  let a2 := Demo.uri_asset "a2" "gs://bucket/run/b.tif" in
  let a3 := Demo.asset "a3" "t" "output" (Some "/data/meta.json") None in
  map_to_list (_group_assets_by_folder [a1; a2; a3]) = [("gs://bucket/run", [a1; a2])].
Proof. vm_compute. reflexivity. Qed.

(** ** Further properties of the lifecycle operations *)

(** *** Lookup by id *)

Section IndexRoundTrip.
Context {A : Type} (key : A → string).

Lemma index_from_is_Some xs i m x :
  x ∈ xs → is_Some (index_from key i xs m !! key x).
Proof.
  assert (∀ k, k ∈ key <$> xs → is_Some (index_from key i xs m !! k)) as H.
  { revert i m. induction xs as [|y ys IH]; intros i m k Hk;
      [by apply elem_of_nil in Hk|].
    cbn [index_from]. destruct (decide (k ∈ key <$> ys)) as [Hin|Hout]; [by apply IH|].
    rewrite fmap_cons in Hk. apply elem_of_cons in Hk as [->|Hk]; [|done].
    rewrite index_from_notin; [by rewrite lookup_insert_eq|].
    intros z Hz Hkz. apply Hout, list_elem_of_fmap. by exists z. }
  intros Hx. apply H, list_elem_of_fmap. by exists x.
Qed.

Lemma index_from_latest xs i m k j :
  index_from key i xs m !! k = Some j →
  ∀ q y, xs !! q = Some y → key y = k → (i + q ≤ j)%nat.
Proof.
  revert i m. induction xs as [|z zs IH]; intros i m Hj q y Hq Hy; [done|].
  cbn [index_from] in Hj. destruct q as [|q]; simpl in Hq.
  - injection Hq as ->. apply index_from_lookup in Hj as [Hm|(x & Hle & _)]; [|lia].
    rewrite Hy, lookup_insert_eq in Hm. injection Hm as <-. lia.
  - specialize (IH _ _ Hj q y Hq Hy). lia.
Qed.

Lemma index_from_keys xs ys i m :
  key <$> xs = key <$> ys → index_from key i xs m = index_from key i ys m.
Proof.
  revert ys i m. induction xs as [|x xs IH]; intros [|y ys] i m Hk; try done.
  injection Hk as Hx Hk. cbn [index_from]. rewrite Hx. by apply IH.
Qed.

Lemma index_from_snoc xs x i m :
  index_from key i (xs ++ [x]) m
  = <[key x := (i + length xs)%nat]> (index_from key i xs m).
Proof.
  revert i m. induction xs as [|y ys IH]; intros i m; cbn [index_from app length].
  - by rewrite Nat.add_0_r.
  - rewrite IH. by replace (i + S (length ys))%nat with (S i + length ys)%nat by lia.
Qed.

End IndexRoundTrip.

(** X1.  The id index of the assets (and likewise of the tasks) resolves an
    id exactly when some entry carries it, and then to the last entry that
    does: a later entry with the same id shadows the earlier ones. *)
Theorem X1_index_lookup (xs : list Asset.t) (ts : list Task.t) (k : string) :
  (_asset_index xs !! k = None ↔ ∀ a, a ∈ xs → Asset.asset_id a ≠ k)
  ∧ (∀ j, _asset_index xs !! k = Some j
          ↔ ∃ a, xs !! j = Some a ∧ Asset.asset_id a = k
                 ∧ ∀ q b, xs !! q = Some b → Asset.asset_id b = k → (q ≤ j)%nat)
  ∧ (_task_index ts !! k = None ↔ ∀ t, t ∈ ts → Task.task_id t ≠ k)
  ∧ (∀ j, _task_index ts !! k = Some j
          ↔ ∃ t, ts !! j = Some t ∧ Task.task_id t = k
                 ∧ ∀ q b, ts !! q = Some b → Task.task_id b = k → (q ≤ j)%nat).
Proof.
  assert (∀ (A : Type) (key : A → string) (l : list A),
            (index_from key 0 l ∅ !! k = None ↔ ∀ a, a ∈ l → key a ≠ k)
            ∧ (∀ j, index_from key 0 l ∅ !! k = Some j
                    ↔ ∃ a, l !! j = Some a ∧ key a = k
                           ∧ ∀ q b, l !! q = Some b → key b = k → (q ≤ j)%nat)) as H.
  { intros A key l. split.
    - split.
      + intros Hnone a Ha <-.
        destruct (index_from_is_Some key l 0 ∅ a Ha) as [j Hj]. congruence.
      + intros Hno. by rewrite index_from_notin.
    - intros j. split.
      + intros Hj. pose proof (index_from_latest key l 0 ∅ k j Hj) as Hlast.
        apply index_from_lookup in Hj as [Hj|(a & _ & Ha & Hk)]; [done|].
        rewrite Nat.sub_0_r in Ha. exists a.
        split_and!; try done; intros q b Hq Hb; specialize (Hlast q b Hq Hb); lia.
      + intros (a & Ha & <- & Hlast).
        by rewrite (index_from_last key l 0 ∅ a j Ha Hlast). }
  destruct (H _ Asset.asset_id xs) as [H1 H2], (H _ Task.task_id ts) as [H3 H4].
  done.
Qed.

(** *** Lookup-or-create of tasks and assets *)

Section Ensure.
Variable W : World.

Lemma list_find_alter_key {A} (key : A → string) (f : A → A) (l : list A) i k :
  (∀ x, key (f x) = key x) →
  fst <$> list_find (λ x, key x = k) (alter f i l)
  = fst <$> list_find (λ x, key x = k) l.
Proof.
  intros Hf. revert i. induction l as [|x l IH]; intros i; [done|].
  destruct i as [|i]; simpl.
  - rewrite Hf. by case_decide.
  - case_decide; [done|]. specialize (IH i).
    assert (∀ o : option (nat * A), fst <$> (prod_map S id <$> o) = S <$> (fst <$> o))
      as Hs by (by intros [[]|]).
    rewrite !Hs. f_equal. exact IH.
Qed.

Lemma ensure_asset_spec xs aid tid xs' j :
  _ensure_asset W xs aid tid = (xs', j) →
  (∃ a, xs' !! j = Some a ∧ Asset.asset_id a = aid)
  ∧ ((xs' = xs ∧ ∃ a, xs !! j = Some a ∧ Asset.asset_id a = aid
                      ∧ ∀ q b, xs !! q = Some b → (q < j)%nat → Asset.asset_id b ≠ aid)
     ∨ (xs' = xs ++ [new_asset W aid tid] ∧ j = length xs
        ∧ ∀ a, a ∈ xs → Asset.asset_id a ≠ aid)).
Proof.
  unfold _ensure_asset. destruct (list_find _ xs) as [[i a]|] eqn:Hf; intros [= <- <-].
  - apply list_find_Some in Hf as (Ha & Hid & Hfirst).
    split; [by exists a|]. left. split; [done|]. exists a. split_and!; try done.
  - split.
    + exists (new_asset W aid tid). split; [|done]. by apply list_lookup_middle.
    + right. split_and!; try done. intros a Ha.
      apply list_find_None in Hf. by apply (proj1 (Forall_forall _ _) Hf a Ha).
Qed.

Lemma NoDup_snoc_fresh {A} (key : A → string) (l : list A) x :
  NoDup (key <$> l) → (∀ y, y ∈ l → key y ≠ key x) → NoDup (key <$> (l ++ [x])).
Proof.
  intros Hnd Hfresh. rewrite fmap_app. apply NoDup_app. split_and!; [done| |].
  - intros k (y & -> & Hy)%list_elem_of_fmap Hk. simpl in Hk.
    apply list_elem_of_singleton in Hk. by apply (Hfresh y).
  - simpl. apply NoDup_singleton.
Qed.

(** X2.  [_ensure_task] and [_ensure_asset] return an entry with the asked
    id, the first one if the list has some and else a new one appended at
    the end; the entries already there keep their places; ids stay unique if
    they were; and asking again changes nothing. *)
Theorem X2_ensure_lookup_or_create (ts : list Task.t) (xs : list Asset.t)
    (tid aid : string) :
  let rt := _ensure_task W ts tid in
  let ra := _ensure_asset W xs aid tid in
  (∃ t, rt.1 !! rt.2 = Some t ∧ Task.task_id t = tid)
  ∧ (∃ more, rt.1 = ts ++ more ∧ (length more ≤ 1)%nat)
  ∧ (∀ q b, rt.1 !! q = Some b → (q < rt.2)%nat → Task.task_id b ≠ tid)
  ∧ (NoDup (Task.task_id <$> ts) → NoDup (Task.task_id <$> rt.1))
  ∧ _ensure_task W rt.1 tid = rt
  ∧ (∃ a, ra.1 !! ra.2 = Some a ∧ Asset.asset_id a = aid)
  ∧ (∃ more, ra.1 = xs ++ more ∧ (length more ≤ 1)%nat)
  ∧ (∀ q b, ra.1 !! q = Some b → (q < ra.2)%nat → Asset.asset_id b ≠ aid)
  ∧ (NoDup (Asset.asset_id <$> xs) → NoDup (Asset.asset_id <$> ra.1))
  ∧ _ensure_asset W ra.1 aid tid = ra.
Proof.
  intros rt ra.
  assert ((∃ t, rt.1 !! rt.2 = Some t ∧ Task.task_id t = tid)
          ∧ (∃ more, rt.1 = ts ++ more ∧ (length more ≤ 1)%nat)
          ∧ (∀ q b, rt.1 !! q = Some b → (q < rt.2)%nat → Task.task_id b ≠ tid)
          ∧ (NoDup (Task.task_id <$> ts) → NoDup (Task.task_id <$> rt.1))
          ∧ _ensure_task W rt.1 tid = rt) as Ht.
  { subst rt. destruct (_ensure_task W ts tid) as [ts' j] eqn:Hens. cbn [fst snd].
    pose proof Hens as Hens'. unfold _ensure_task in Hens'.
    destruct (list_find (λ t, Task.task_id t = tid) ts) as [[i t]|] eqn:Hf;
      injection Hens' as <- <-.
    - pose proof Hf as Hf'. apply list_find_Some in Hf' as (Hi & Hid & Hfirst).
      split_and!; try done.
      + by exists t.
      + exists []. split; [by rewrite app_nil_r|simpl; lia].
    - pose proof Hf as Hf'. apply list_find_None in Hf'.
      pose proof (proj1 (Forall_forall _ _) Hf') as Hnone.
      split_and!.
      + exists (new_task W tid). split; [|done]. by apply list_lookup_middle.
      + exists [new_task W tid]. split; [done|]. simpl. lia.
      + intros q b Hq Hlt. rewrite lookup_app_l in Hq by done.
        apply Hnone. by eapply list_elem_of_lookup_2.
      + intros Hnd. by apply NoDup_snoc_fresh.
      + unfold _ensure_task.
        assert (list_find (λ t, Task.task_id t = tid) (ts ++ [new_task W tid])
                = Some (length ts, new_task W tid)) as ->; [|done].
        apply list_find_Some. split_and!; try done.
        * by apply list_lookup_middle.
        * intros q b Hq Hlt. rewrite lookup_app_l in Hq by done.
          apply Hnone. by eapply list_elem_of_lookup_2. }
  assert ((∃ a, ra.1 !! ra.2 = Some a ∧ Asset.asset_id a = aid)
          ∧ (∃ more, ra.1 = xs ++ more ∧ (length more ≤ 1)%nat)
          ∧ (∀ q b, ra.1 !! q = Some b → (q < ra.2)%nat → Asset.asset_id b ≠ aid)
          ∧ (NoDup (Asset.asset_id <$> xs) → NoDup (Asset.asset_id <$> ra.1))
          ∧ _ensure_asset W ra.1 aid tid = ra) as Ha.
  { subst ra. destruct (_ensure_asset W xs aid tid) as [xs' j] eqn:Hens. cbn [fst snd].
    pose proof Hens as Hens'. unfold _ensure_asset in Hens'.
    destruct (list_find (λ a, Asset.asset_id a = aid) xs) as [[i a]|] eqn:Hf;
      injection Hens' as <- <-.
    - pose proof Hf as Hf'. apply list_find_Some in Hf' as (Hi & Hid & Hfirst).
      split_and!; try done.
      + by exists a.
      + exists []. split; [by rewrite app_nil_r|simpl; lia].
    - pose proof Hf as Hf'. apply list_find_None in Hf'.
      pose proof (proj1 (Forall_forall _ _) Hf') as Hnone.
      split_and!.
      + exists (new_asset W aid tid). split; [|done]. by apply list_lookup_middle.
      + exists [new_asset W aid tid]. split; [done|]. simpl. lia.
      + intros q b Hq Hlt. rewrite lookup_app_l in Hq by done.
        apply Hnone. by eapply list_elem_of_lookup_2.
      + intros Hnd. by apply NoDup_snoc_fresh.
      + unfold _ensure_asset.
        assert (list_find (λ a, Asset.asset_id a = aid) (xs ++ [new_asset W aid tid])
                = Some (length xs, new_asset W aid tid)) as ->; [|done].
        apply list_find_Some. split_and!; try done.
        * by apply list_lookup_middle.
        * intros q b Hq Hlt. rewrite lookup_app_l in Hq by done.
          apply Hnone. by eapply list_elem_of_lookup_2. }
  destruct Ht as (? & ? & ? & ? & ?), Ha as (? & ? & ? & ? & ?). done.
Qed.

End Ensure.

(** *** Marking a task *)

Section MarkTask.
Variable W : World.

Lemma list_find_alter_Some {A} (key : A → string) (f : A → A) (l : list A) i x k :
  (∀ y, key (f y) = key y) →
  list_find (λ y, key y = k) l = Some (i, x) →
  list_find (λ y, key y = k) (alter f i l) = Some (i, f x).
Proof.
  intros Hf (Hi & Hk & Hfirst)%list_find_Some. apply list_find_Some. split_and!.
  - by rewrite list_lookup_alter_eq, Hi.
  - by rewrite Hf.
  - intros j y Hj Hlt. rewrite list_lookup_alter_ne in Hj by lia. by eapply Hfirst.
Qed.

Lemma ensure_task_find ts tid ts' i :
  _ensure_task W ts tid = (ts', i) →
  ∃ t, list_find (λ t, Task.task_id t = tid) ts' = Some (i, t).
Proof.
  unfold _ensure_task.
  destruct (list_find (λ t, Task.task_id t = tid) ts) as [[j t]|] eqn:Hf;
    intros [= <- <-]; [by exists t|].
  exists (new_task W tid). apply list_find_Some. split_and!; try done.
  - by apply list_lookup_middle.
  - intros q b Hq Hlt. rewrite lookup_app_l in Hq by done.
    apply list_find_None in Hf.
    apply (proj1 (Forall_forall _ _) Hf). by eapply list_elem_of_lookup_2.
Qed.

Lemma ensure_asset_find xs aid tid xs' j :
  _ensure_asset W xs aid tid = (xs', j) →
  ∃ a, list_find (λ a, Asset.asset_id a = aid) xs' = Some (j, a).
Proof.
  unfold _ensure_asset.
  destruct (list_find (λ a, Asset.asset_id a = aid) xs) as [[i a]|] eqn:Hf;
    intros [= <- <-]; [by exists a|].
  exists (new_asset W aid tid). apply list_find_Some. split_and!; try done.
  - by apply list_lookup_middle.
  - intros q b Hq Hlt. rewrite lookup_app_l in Hq by done.
    apply list_find_None in Hf.
    apply (proj1 (Forall_forall _ _) Hf). by eapply list_elem_of_lookup_2.
Qed.

Lemma ensure_task_ids ts tid :
  NoDup (Task.task_id <$> ts) → NoDup (Task.task_id <$> (_ensure_task W ts tid).1).
Proof.
  intros Hnd. unfold _ensure_task.
  destruct (list_find (λ t, Task.task_id t = tid) ts) as [[j t]|] eqn:Hf; [done|].
  cbn [fst]. apply NoDup_snoc_fresh; [done|]. apply list_find_None in Hf.
  intros y Hy. by apply (proj1 (Forall_forall _ _) Hf).
Qed.

Lemma ensure_asset_ids xs aid tid :
  NoDup (Asset.asset_id <$> xs) →
  NoDup (Asset.asset_id <$> (_ensure_asset W xs aid tid).1).
Proof.
  intros Hnd. unfold _ensure_asset.
  destruct (list_find (λ a, Asset.asset_id a = aid) xs) as [[j a]|] eqn:Hf; [done|].
  cbn [fst]. apply NoDup_snoc_fresh; [done|]. apply list_find_None in Hf.
  intros y Hy. by apply (proj1 (Forall_forall _ _) Hf).
Qed.

Lemma fmap_alter_key {A} (key : A → string) (f : A → A) (l : list A) i :
  (∀ y, key (f y) = key y) → key <$> alter f i l = key <$> l.
Proof.
  intros Hf. apply list_eq. intros j. rewrite !list_lookup_fmap.
  destruct (decide (i = j)) as [->|Hne].
  - rewrite list_lookup_alter_eq. destruct (l !! j); simpl; by rewrite ?Hf.
  - by rewrite list_lookup_alter_ne.
Qed.

Lemma fail_asset_id error a : Asset.asset_id (fail_asset error a) = Asset.asset_id a.
Proof. unfold fail_asset. by destruct error. Qed.

Lemma fail_assets_ids error index ids xs :
  Asset.asset_id <$> fail_assets error index ids xs = Asset.asset_id <$> xs.
Proof.
  apply list_eq. intros j. rewrite !list_lookup_fmap, fail_assets_lookup.
  case_bool_decide; [|done]. destruct (xs !! j); simpl; by rewrite ?fail_asset_id.
Qed.

Lemma mark_task_idem status error t :
  mark_task W status error (mark_task W status error t) = mark_task W status error t.
Proof.
  unfold mark_task. destruct t as [id lb st cr sa fi er ids].
  set (now := utc_now_iso W). set (fin := bool_decide (status ∈ finishing_statuses)).
  cbn [Task.started_at].
  destruct error, (bool_decide (status = "running")), (str_truthy sa) eqn:Hsa, fin;
    cbn [andb negb Task.set_started_at Task.set_finished_at Task.set_status
         Task.set_error Task.started_at Task.task_id Task.labels Task.status
         Task.created_at Task.finished_at Task.error Task.asset_ids];
    rewrite ?Hsa; cbn [negb]; try done;
    by destruct (str_truthy (Some now)).
Qed.

(** The document after [_set_task_status], piece by piece. *)
Lemma set_task_status_shape c tid status error :
  ∃ ts i t,
    _ensure_task W (tasks c) tid = (ts, i) ∧ ts !! i = Some t ∧ Task.task_id t = tid
    ∧ tasks (_set_task_status W c tid status error) = alter (mark_task W status error) i ts
    ∧ assets (_set_task_status W c tid status error)
      = (if bool_decide (status = "failed")
         then fail_assets error (_asset_index (assets c)) (Task.asset_ids t) (assets c)
         else assets c)
    ∧ run_meta (_set_task_status W c tid status error) = run_meta c
    ∧ verification (_set_task_status W c tid status error) = verification c
    ∧ preflight (_set_task_status W c tid status error) = preflight c.
Proof.
  unfold _set_task_status.
  destruct (_ensure_task W (tasks c) tid) as [ts i] eqn:Hens.
  destruct (ensure_task_find _ _ _ _ Hens) as (t & (Hi & Hid & _)%list_find_Some).
  exists ts, i, t. cbn [tasks assets]. split_and!; try done.
  rewrite list_lookup_alter_eq, Hi. simpl.
  by destruct (mark_task_fields W status error t) as (_ & -> & _).
Qed.

(** X3.  [_set_task_status] writes to one task and, only for the status
    failed, to the status and error of the assets that task lists: the run
    record and the reports are kept, the assets keep their number, order and
    ids, every asset is left as it was or as [fail_asset] leaves it, an asset
    whose id the task does not list is untouched, any other status leaves
    all assets untouched, every other task is untouched, and task ids stay
    unique if they were. *)
Theorem X3_set_task_status_frame (c : Contract) (tid status : string)
    (error : option dict) :
  let c1 := _set_task_status W c tid status error in
  let i := (_ensure_task W (tasks c) tid).2 in
  run_meta c1 = run_meta c ∧ verification c1 = verification c
  ∧ preflight c1 = preflight c
  ∧ Asset.asset_id <$> assets c1 = Asset.asset_id <$> assets c
  ∧ (status ≠ "failed" → assets c1 = assets c)
  ∧ (∀ j a, assets c !! j = Some a →
       assets c1 !! j = Some a ∨ assets c1 !! j = Some (fail_asset error a))
  ∧ (∀ j a t, assets c !! j = Some a → tasks c1 !! i = Some t →
       Asset.asset_id a ∉ Task.asset_ids t → assets c1 !! j = Some a)
  ∧ (∀ k t, k ≠ i → tasks c !! k = Some t → tasks c1 !! k = Some t)
  ∧ (∃ t, tasks c1 !! i = Some t ∧ Task.task_id t = tid ∧ Task.status t = Some status)
  ∧ (length (tasks c) ≤ length (tasks c1) ≤ S (length (tasks c)))%nat
  ∧ (NoDup (Task.task_id <$> tasks c) → NoDup (Task.task_id <$> tasks c1)).
Proof.
  intros c1 i.
  destruct (set_task_status_shape c tid status error)
    as (ts & i' & t & Hens & Hi & Hid & Hts & Hxs & Hrm & Hv & Hp).
  fold c1 in Hts, Hxs, Hrm, Hv, Hp. subst i. rewrite Hens. cbn [snd].
  assert (ts = tasks c ∨ ts = tasks c ++ [new_task W tid] ∧ i' = length (tasks c)) as Hshape.
  { unfold _ensure_task in Hens. destruct (list_find _ _) as [[? ?]|];
      injection Hens as <- <-; auto. }
  split_and!; try done.
  - rewrite Hxs. case_bool_decide; [apply fail_assets_ids|done].
  - intros Hne. by rewrite Hxs, bool_decide_false.
  - intros j a Ha. rewrite Hxs. case_bool_decide; [|by left].
    rewrite fail_assets_lookup, Ha. case_bool_decide; [by right|by left].
  - intros j a t1 Ha Ht1 Hnot. rewrite Hxs. case_bool_decide; [|done].
    rewrite fail_assets_lookup, Ha. rewrite bool_decide_false; [done|].
    intros (aid & Hin & Hidx)%Exists_exists.
    apply asset_index_lookup in Hidx as (b & Hb & <-). rewrite Ha in Hb.
    injection Hb as <-. apply Hnot.
    rewrite Hts, list_lookup_alter_eq, Hi in Ht1. injection Ht1 as <-.
    by destruct (mark_task_fields W status error t) as (_ & -> & _).
  - intros k t1 Hk Ht1. rewrite Hts, list_lookup_alter_ne by done.
    destruct Hshape as [->|[-> _]]; [done|by apply lookup_app_l_Some].
  - exists (mark_task W status error t). rewrite Hts, list_lookup_alter_eq, Hi.
    by destruct (mark_task_fields W status error t) as (-> & _ & -> & _).
  - rewrite Hts, length_alter. destruct Hshape as [->|[-> _]]; [lia|].
    rewrite length_app. simpl. lia.
  - rewrite Hts, length_alter. destruct Hshape as [->|[-> _]]; [lia|].
    rewrite length_app. simpl. lia.
  - intros Hnd. rewrite Hts, (fmap_alter_key Task.task_id).
    + pose proof (ensure_task_ids (tasks c) tid Hnd) as H. by rewrite Hens in H.
    + intros y. by destruct (mark_task_fields W status error y) as (-> & _).
Qed.

Lemma mark_task_again (W' : World) status error t :
  utc_now_iso W ≠ "" →
  mark_task W' status error (mark_task W status error t)
  = (if bool_decide (status ∈ finishing_statuses)
     then Task.set_finished_at (Some (utc_now_iso W')) (mark_task W status error t)
     else mark_task W status error t).
Proof.
  intros Hclock. unfold mark_task. destruct t as [id lb st cr sa fi er ids].
  assert (str_truthy (Some (utc_now_iso W)) = true) as Hnow.
  { unfold str_truthy. destruct (utc_now_iso W); [done|reflexivity]. }
  set (now := utc_now_iso W) in *. set (now' := utc_now_iso W').
  set (fin := bool_decide (status ∈ finishing_statuses)).
  cbn [Task.started_at].
  destruct error, (bool_decide (status = "running")), (str_truthy sa) eqn:Hsa, fin;
    cbn [andb negb Task.set_started_at Task.set_finished_at Task.set_status
         Task.set_error Task.started_at Task.task_id Task.labels Task.status
         Task.created_at Task.finished_at Task.error Task.asset_ids];
    rewrite ?Hsa, ?Hnow; cbn [negb]; done.
Qed.

(** A second call on the result of a first one, when the second marking of
    the task amounts to [g] on the task marked once. *)
Lemma set_task_status_again (W' : World) (g : Task.t → Task.t) c tid status error :
  (∀ t, mark_task W' status error (mark_task W status error t)
        = g (mark_task W status error t)) →
  let c1 := _set_task_status W c tid status error in
  _set_task_status W' c1 tid status error
  = {| run_meta := run_meta c1;
       tasks := alter g (_ensure_task W (tasks c) tid).2 (tasks c1);
       assets := assets c1;
       verification := verification c1; preflight := preflight c1 |}.
Proof.
  intros Hg c1.
  destruct (set_task_status_shape c tid status error)
    as (ts & i & t & Hens & Hi & Hid & Hts & Hxs & Hrm & Hv & Hp).
  fold c1 in Hts, Hxs, Hrm, Hv, Hp. rewrite Hens. cbn [snd].
  destruct (ensure_task_find _ _ _ _ Hens) as (t0 & Hfind).
  assert (_ensure_task W' (tasks c1) tid = (tasks c1, i)) as Hens1.
  { unfold _ensure_task. rewrite Hts.
    rewrite (list_find_alter_Some Task.task_id (mark_task W status error) ts i t0 tid);
      [done| |done].
    intros y. by destruct (mark_task_fields W status error y) as (-> & _). }
  unfold _set_task_status at 1. rewrite Hens1.
  assert (alter (mark_task W' status error) i (tasks c1) = alter g i (tasks c1))
    as Htasks.
  { rewrite Hts. apply list_eq. intros k. destruct (decide (i = k)) as [->|Hne].
    - rewrite !list_lookup_alter_eq. destruct (ts !! k); simpl; [|done].
      by rewrite Hg.
    - by rewrite !list_lookup_alter_ne. }
  assert (tasks c1 !! i = Some (mark_task W status error t)) as Hi1
    by (by rewrite Hts, list_lookup_alter_eq, Hi).
  assert (alter (mark_task W' status error) i (tasks c1) !! i
          = Some (mark_task W' status error (mark_task W status error t))) as Hi2
    by (by rewrite list_lookup_alter_eq, Hi1).
  rewrite Hi2, <- Htasks. cbn [from_option].
  assert ((if bool_decide (status = "failed")
           then fail_assets error (_asset_index (assets c1))
                  (Task.asset_ids (mark_task W' status error (mark_task W status error t)))
                  (assets c1)
           else assets c1) = assets c1) as ->; [|done].
  case_bool_decide; [|done].
  destruct (mark_task_fields W' status error (mark_task W status error t))
    as (_ & -> & _).
  destruct (mark_task_fields W status error t) as (_ & -> & _).
  rewrite Hxs. unfold _asset_index.
  rewrite (index_from_keys Asset.asset_id _ (assets c)) by apply fail_assets_ids.
  apply list_eq. intros j. rewrite !fail_assets_lookup.
  case_bool_decide; [|done]. rewrite <- option_fmap_compose.
  apply option_fmap_ext. intros a. apply fail_asset_idem.
Qed.

(** X4.  Marking a task a second time with the same status and error gives
    the same document when the clock has not moved.  When it has, the second
    call changes one field at most: it stamps [finished_at] of that task
    anew if the status is a finishing one; [started_at], the status, the
    error records and the failed assets are as the first call left them. *)
Theorem X4_set_task_status_repeat (W' : World) (c : Contract) (tid status : string)
    (error : option dict) :
  let c1 := _set_task_status W c tid status error in
  let i := (_ensure_task W (tasks c) tid).2 in
  _set_task_status W c1 tid status error = c1
  ∧ (utc_now_iso W ≠ "" →
     _set_task_status W' c1 tid status error
     = {| run_meta := run_meta c1;
          tasks := if bool_decide (status ∈ finishing_statuses)
                   then alter (Task.set_finished_at (Some (utc_now_iso W'))) i (tasks c1)
                   else tasks c1;
          assets := assets c1;
          verification := verification c1; preflight := preflight c1 |}).
Proof.
  intros c1 i. split.
  - pose proof (set_task_status_again W id c tid status error) as Hrun.
    cbv zeta in Hrun. fold c1 i in Hrun. rewrite Hrun.
    + rewrite list_alter_id by done. by destruct c1.
    + intros t. apply mark_task_idem.
  - intros Hclock.
    pose proof (set_task_status_again W'
                  (λ t, if bool_decide (status ∈ finishing_statuses)
                        then Task.set_finished_at (Some (utc_now_iso W')) t else t)
                  c tid status error) as Hrun.
    cbv zeta in Hrun. fold c1 i in Hrun. rewrite Hrun.
    + f_equal. case_bool_decide; [done|]. by rewrite list_alter_id.
    + intros t. by apply mark_task_again.
Qed.

End MarkTask.

(** *** Recording a produced asset *)

Section RecordProduced.
Variable W : World.

(** [_cmd_record_produced] as one expression over the named pieces. *)
Lemma record_produced_unfold c args :
  let tid := Py.strip (rp_task_id args) in
  let aid := rp_resolved_asset_id W args in
  let rt := _ensure_task W (tasks c) tid in
  let ra := _ensure_asset W (assets c) aid tid in
  _cmd_record_produced W c args
  = if bool_decide (tid = "") then Raise "--task-id is required"
    else
      match rp_extra_json args with
      | Some (JObj _) | None =>
          Val {| run_meta := run_meta c;
                 tasks := alter (rp_list_asset aid) rt.2 (alter (rp_start_task W) rt.2 rt.1);
                 assets := alter (rp_write_asset args tid) ra.2 ra.1;
                 verification := verification c; preflight := preflight c |}
      | Some _ => Raise "--extra-json-file must be a JSON object"
      end.
Proof.
  intros tid aid rt ra. unfold _cmd_record_produced. fold tid.
  case_bool_decide; [done|].
  subst rt. destruct (_ensure_task W (tasks c) tid) as [ts i].
  change (str_or (rp_asset_id args) _) with aid.
  subst ra. destruct (_ensure_asset W (assets c) aid tid) as [xs j]. cbn [fst snd].
  unfold rp_write_asset.
  destruct (rp_extra_json args) as [[]|]; try done.
  cbn [mbind exc_bind mret exc_ret]. do 2 f_equal.
  rewrite list_alter_alter_eq. by apply list_alter_ext.
Qed.

Lemma produced_asset_fields args tid a :
  let b := produced_asset args tid a in
  Asset.asset_id b = Asset.asset_id a ∧ Asset.task_id b = tid
  ∧ Asset.produced b = true ∧ Asset.status b = Some "produced"
  ∧ Asset.expected b = Asset.expected a ∧ Asset.error b = Asset.error a
  ∧ Asset.role b = Asset.role a ∧ Asset.exists_ b = Asset.exists_ a
  ∧ Asset.corrupt b = Asset.corrupt a.
Proof. done. Qed.

Lemma rp_write_asset_fields args tid a :
  let b := rp_write_asset args tid a in
  Asset.asset_id b = Asset.asset_id a ∧ Asset.task_id b = tid
  ∧ Asset.produced b = true ∧ Asset.status b = Some "produced"
  ∧ Asset.expected b = Asset.expected a ∧ Asset.error b = Asset.error a
  ∧ Asset.role b = Asset.role a.
Proof. unfold rp_write_asset. by destruct (rp_extra_json args) as [[]|]. Qed.

Lemma rp_start_task_fields t :
  let t' := rp_start_task W t in
  Task.task_id t' = Task.task_id t ∧ Task.asset_ids t' = Task.asset_ids t
  ∧ Task.error t' = Task.error t
  ∧ Task.status t' ≠ Some "expected" ∧ Task.status t' ≠ None ∧ Task.status t' ≠ Some ""
  ∧ (str_truthy (Task.status t) = true → Task.status t ≠ Some "expected" →
     Task.status t' = Task.status t).
Proof.
  unfold rp_start_task. destruct t as [id lb st cr sa fi er ids]. cbn [Task.started_at].
  destruct (negb (str_truthy sa)); cbn [Task.set_started_at Task.status];
    case_bool_decide as He; cbn [orb];
    try (subst; by repeat split);
    (destruct (str_truthy st) eqn:Hst; cbn [negb];
     [|by repeat split]; repeat split; try done;
     by destruct st as [[]|]).
Qed.

Lemma sorted_set_idem (l : list string) : sorted_set (sorted_set l) = sorted_set l.
Proof.
  apply (Sorted_unique String.le).
  - apply Sorted_merge_sort, _.
  - apply Sorted_merge_sort, _.
  - apply NoDup_Permutation; [apply sorted_set_NoDup..|].
    intros x. by rewrite sorted_set_elem.
Qed.

Lemma rp_list_asset_fields aid t :
  let t' := rp_list_asset aid t in
  Task.task_id t' = Task.task_id t ∧ Task.status t' = Task.status t
  ∧ Task.started_at t' = Task.started_at t ∧ Task.error t' = Task.error t
  ∧ aid ∈ Task.asset_ids t'
  ∧ (∀ x, x ∈ Task.asset_ids t' ↔ x = aid ∨ x ∈ Task.asset_ids t)
  ∧ StronglySorted String.le (Task.asset_ids t') ∧ NoDup (Task.asset_ids t').
Proof.
  unfold rp_list_asset. cbn [Task.set_asset_ids Task.task_id Task.status
                            Task.started_at Task.error Task.asset_ids].
  assert (∀ x, x ∈ sorted_set (if bool_decide (aid ∈ Task.asset_ids t)
                               then Task.asset_ids t else Task.asset_ids t ++ [aid])
               ↔ x = aid ∨ x ∈ Task.asset_ids t) as Hin.
  { intros x. rewrite sorted_set_elem. case_bool_decide.
    - split; [by right|]. by intros [->|?].
    - rewrite elem_of_app, list_elem_of_singleton. tauto. }
  split_and!; try done.
  - apply Hin. by left.
  - apply sorted_set_sorted.
  - apply sorted_set_NoDup.
Qed.

(** X5.  [record-produced] fails on a blank task id and on an [extra] that
    is not an object.  Otherwise the document it returns holds the asset
    under the resolved id with the stripped task id, produced set and
    status produced, its expected flag, error record and role as before
    (those of a fresh asset if it is new); and the task, no longer expected,
    lists the asset's id in a sorted, duplicate-free [asset_ids] that has
    lost none of its ids. *)
Theorem X5_record_produced_result (c : Contract) (args : ProducedArgs) :
  let tid := Py.strip (rp_task_id args) in
  let aid := rp_resolved_asset_id W args in
  (tid = "" → _cmd_record_produced W c args = Raise "--task-id is required")
  ∧ (tid ≠ "" →
     (∀ v, rp_extra_json args = Some v → ∃ d, v = JObj d) →
     ∃ c1 i j t a,
       _cmd_record_produced W c args = Val c1
       ∧ tasks c1 !! i = Some t ∧ assets c1 !! j = Some a
       ∧ Task.task_id t = tid ∧ Asset.asset_id a = aid ∧ Asset.task_id a = tid
       ∧ Asset.produced a = true ∧ Asset.status a = Some "produced"
       ∧ (∀ a0, assets c !! j = Some a0 →
            Asset.expected a = Asset.expected a0 ∧ Asset.error a = Asset.error a0
            ∧ Asset.role a = Asset.role a0)
       ∧ (assets c !! j = None →
            Asset.expected a = false ∧ Asset.error a = None ∧ Asset.role a = "output")
       ∧ aid ∈ Task.asset_ids t
       ∧ StronglySorted String.le (Task.asset_ids t) ∧ NoDup (Task.asset_ids t)
       ∧ Task.status t ≠ Some "expected" ∧ Task.status t ≠ None
       ∧ (∀ t0 x, tasks c !! i = Some t0 → x ∈ Task.asset_ids t0 →
            x ∈ Task.asset_ids t))
  ∧ (tid ≠ "" →
     (∃ v, rp_extra_json args = Some v ∧ ∀ d, v ≠ JObj d) →
     _cmd_record_produced W c args = Raise "--extra-json-file must be a JSON object").
Proof.
  intros tid aid. pose proof (record_produced_unfold c args) as Hrun.
  cbv zeta in Hrun. fold tid aid in Hrun. split_and!.
  - intros Ht. by rewrite Hrun, bool_decide_true.
  - intros Ht Hextra. rewrite bool_decide_false in Hrun by done.
    destruct (_ensure_task W (tasks c) tid) as [ts i] eqn:Hens.
    destruct (_ensure_asset W (assets c) aid tid) as [xs j] eqn:Hena.
    cbn [fst snd] in Hrun.
    destruct (ensure_task_find W _ _ _ _ Hens) as (t0 & (Hi & Hid & _)%list_find_Some).
    destruct (ensure_asset_find W _ _ _ _ _ Hena) as (a0 & (Hj & Haid & _)%list_find_Some).
    eexists _, i, j, (rp_list_asset aid (rp_start_task W t0)), (rp_write_asset args tid a0).
    destruct (rp_list_asset_fields aid (rp_start_task W t0))
      as (L1 & L2 & _ & _ & L5 & L6 & L7 & L8).
    destruct (rp_start_task_fields t0) as (S1 & S2 & _ & S4 & S5 & _).
    destruct (rp_write_asset_fields args tid a0) as (A1 & A2 & A3 & A4 & A5 & A6 & A7).
    split_and!.
    + rewrite Hrun. destruct (rp_extra_json args) as [v|] eqn:Hv; [|done].
      destruct (Hextra v eq_refl) as [d ->]. done.
    + cbn [tasks]. by rewrite !list_lookup_alter_eq, Hi.
    + cbn [assets]. by rewrite list_lookup_alter_eq, Hj.
    + congruence.
    + congruence.
    + done.
    + done.
    + done.
    + intros a1 Ha1. unfold _ensure_asset in Hena.
      destruct (list_find _ (assets c)) as [[? ?]|]; injection Hena as <- <-.
      * rewrite Ha1 in Hj. injection Hj as <-. done.
      * apply lookup_lt_Some in Ha1. lia.
    + intros Hnone. unfold _ensure_asset in Hena.
      destruct (list_find _ (assets c)) as [[? ?]|]; injection Hena as <- <-.
      * congruence.
      * rewrite list_lookup_middle in Hj by done. injection Hj as <-.
        by rewrite A5, A6, A7.
    + done.
    + done.
    + done.
    + by rewrite L2.
    + by rewrite L2.
    + intros t1 x Ht1 Hx. apply L6. right. rewrite S2.
      unfold _ensure_task in Hens.
      destruct (list_find _ (tasks c)) as [[? ?]|]; injection Hens as <- <-.
      * rewrite Ht1 in Hi. by injection Hi as <-.
      * apply lookup_lt_Some in Ht1. lia.
  - intros Ht (v & Hv & Hno). rewrite Hrun, bool_decide_false, Hv by done.
    destruct v; try done. by destruct (Hno kv).
Qed.

End RecordProduced.

Section RecordProducedFrame.
Variable W : World.

Lemma ensure_task_extends ts tid :
  let rt := _ensure_task W ts tid in
  (∀ k t, ts !! k = Some t → rt.1 !! k = Some t)
  ∧ (length ts ≤ length rt.1 ≤ S (length ts))%nat
  ∧ (∀ k t, ts !! k = Some t → Task.task_id t ≠ tid → k ≠ rt.2).
Proof.
  intros rt. destruct rt as [ts' i] eqn:Hens. subst rt.
  destruct (ensure_task_spec W _ _ _ _ Hens) as [(t0 & Hi & Hid) [->|(-> & -> & Hfresh)]];
    cbn [fst snd]; split_and!; try done; try lia;
    try (rewrite length_app; simpl; lia).
  - intros k t Hk Hne ->. congruence.
  - intros k t Hk. by apply lookup_app_l_Some.
  - intros k t Hk _ ->. apply lookup_lt_Some in Hk. lia.
Qed.

Lemma ensure_asset_extends xs aid tid :
  let ra := _ensure_asset W xs aid tid in
  (∀ k a, xs !! k = Some a → ra.1 !! k = Some a)
  ∧ (length xs ≤ length ra.1 ≤ S (length xs))%nat
  ∧ (∀ k a, xs !! k = Some a → Asset.asset_id a ≠ aid → k ≠ ra.2).
Proof.
  intros ra. destruct ra as [xs' j] eqn:Hens. subst ra.
  destruct (ensure_asset_spec W _ _ _ _ _ Hens)
    as [(a0 & Hj & Hid) [(-> & _)|(-> & -> & Hfresh)]];
    cbn [fst snd]; split_and!; try done; try lia;
    try (rewrite length_app; simpl; lia).
  - intros k a Hk Hne ->. congruence.
  - intros k a Hk. by apply lookup_app_l_Some.
  - intros k a Hk _ ->. apply lookup_lt_Some in Hk. lia.
Qed.

Lemma record_produced_Val c args c1 :
  _cmd_record_produced W c args = Val c1 →
  let tid := Py.strip (rp_task_id args) in
  let aid := rp_resolved_asset_id W args in
  let rt := _ensure_task W (tasks c) tid in
  let ra := _ensure_asset W (assets c) aid tid in
  tid ≠ ""
  ∧ c1 = {| run_meta := run_meta c;
            tasks := alter (rp_list_asset aid) rt.2 (alter (rp_start_task W) rt.2 rt.1);
            assets := alter (rp_write_asset args tid) ra.2 ra.1;
            verification := verification c; preflight := preflight c |}.
Proof.
  intros Hrun tid aid rt ra. rewrite record_produced_unfold in Hrun.
  fold tid aid rt ra in Hrun. case_bool_decide; [done|]. split; [done|].
  destruct (rp_extra_json args) as [[]|]; try done; by injection Hrun as <-.
Qed.

(** X6.  A successful [record-produced] leaves the run section and both
    reports alone, adds at most one task and at most one asset, and
    rewrites only the task of the given id and the asset of the resolved id:
    every other task and asset is kept as it is, in place.  A task it
    rewrites keeps id, error record and every asset id it listed; an asset
    it rewrites keeps id, role, error record and expected flag.  Ids that
    were unique stay unique. *)
Theorem X6_record_produced_frame (c : Contract) (args : ProducedArgs) (c1 : Contract) :
  _cmd_record_produced W c args = Val c1 →
  let tid := Py.strip (rp_task_id args) in
  let aid := rp_resolved_asset_id W args in
  run_meta c1 = run_meta c ∧ verification c1 = verification c
  ∧ preflight c1 = preflight c
  ∧ (length (tasks c) ≤ length (tasks c1) ≤ S (length (tasks c)))%nat
  ∧ (length (assets c) ≤ length (assets c1) ≤ S (length (assets c)))%nat
  ∧ (∀ k t, tasks c !! k = Some t → Task.task_id t ≠ tid → tasks c1 !! k = Some t)
  ∧ (∀ k a, assets c !! k = Some a → Asset.asset_id a ≠ aid → assets c1 !! k = Some a)
  ∧ (∀ k t, tasks c !! k = Some t →
       ∃ t', tasks c1 !! k = Some t' ∧ Task.task_id t' = Task.task_id t
             ∧ Task.error t' = Task.error t
             ∧ ∀ x, x ∈ Task.asset_ids t → x ∈ Task.asset_ids t')
  ∧ (∀ k a, assets c !! k = Some a →
       ∃ a', assets c1 !! k = Some a' ∧ Asset.asset_id a' = Asset.asset_id a
             ∧ Asset.role a' = Asset.role a ∧ Asset.error a' = Asset.error a
             ∧ Asset.expected a' = Asset.expected a)
  ∧ (NoDup (Task.task_id <$> tasks c) → NoDup (Task.task_id <$> tasks c1))
  ∧ (NoDup (Asset.asset_id <$> assets c) → NoDup (Asset.asset_id <$> assets c1)).
Proof.
  intros Hrun tid aid. destruct (record_produced_Val _ _ _ Hrun) as [Htid ->].
  fold tid aid. cbn [run_meta verification preflight tasks assets].
  destruct (ensure_task_extends (tasks c) tid) as (Te & Tl & Tn).
  destruct (ensure_asset_extends (assets c) aid tid) as (Ae & Al & An).
  set (rt := _ensure_task W (tasks c) tid) in *.
  set (ra := _ensure_asset W (assets c) aid tid) in *.
  split_and!; try done.
  - rewrite !length_alter. lia.
  - rewrite !length_alter. lia.
  - rewrite !length_alter. lia.
  - rewrite !length_alter. lia.
  - intros k t Hk Hne. rewrite !list_lookup_alter_ne by (apply not_eq_sym; by eapply Tn). by apply Te.
  - intros k a Hk Hne. rewrite list_lookup_alter_ne by (apply not_eq_sym; by eapply An). by apply Ae.
  - intros k t Hk. apply Te in Hk. destruct (decide (k = rt.2)) as [->|Hne].
    + exists (rp_list_asset aid (rp_start_task W t)).
      destruct (rp_list_asset_fields aid (rp_start_task W t))
        as (L1 & _ & _ & L4 & _ & L6 & _).
      destruct (rp_start_task_fields W t) as (S1 & S2 & S3 & _).
      split_and!.
      * by rewrite !list_lookup_alter_eq, Hk.
      * congruence.
      * congruence.
      * intros x Hx. apply L6. right. by rewrite S2.
    + exists t. by rewrite !list_lookup_alter_ne.
  - intros k a Hk. apply Ae in Hk. destruct (decide (k = ra.2)) as [->|Hne].
    + exists (rp_write_asset args tid a).
      destruct (rp_write_asset_fields args tid a) as (A1 & _ & _ & _ & A5 & A6 & A7).
      split_and!; try done. by rewrite list_lookup_alter_eq, Hk.
    + exists a. by rewrite list_lookup_alter_ne.
  - intros Hnd. rewrite !fmap_alter_key.
    + by apply ensure_task_ids.
    + intros t. by destruct (rp_start_task_fields W t) as (? & _).
    + intros t. by destruct (rp_list_asset_fields aid t) as (? & _).
  - intros Hnd. rewrite fmap_alter_key.
    + by apply ensure_asset_ids.
    + intros a. by destruct (rp_write_asset_fields args tid a) as (? & _).
Qed.

End RecordProducedFrame.

Lemma X6_record_produced_frame_witness :
  let c := Demo.doc [Demo.task "t" "expected" ["a"]]
                    [Demo.asset "a" "t" "output" None (Some Demo.boom)] in
  let args := Demo.produced_args " u " (Some "b") (Some "/data/meta.json") in
  ∃ c1,
    _cmd_record_produced Demo.host c args = Val c1
    ∧ (let tid := Py.strip (rp_task_id args) in
       let aid := rp_resolved_asset_id Demo.host args in
       run_meta c1 = run_meta c ∧ verification c1 = verification c
       ∧ preflight c1 = preflight c
       ∧ (length (tasks c) ≤ length (tasks c1) ≤ S (length (tasks c)))%nat
       ∧ (length (assets c) ≤ length (assets c1) ≤ S (length (assets c)))%nat
       ∧ (∀ k t, tasks c !! k = Some t → Task.task_id t ≠ tid → tasks c1 !! k = Some t)
       ∧ (∀ k a, assets c !! k = Some a → Asset.asset_id a ≠ aid →
            assets c1 !! k = Some a)
       ∧ (∀ k t, tasks c !! k = Some t →
            ∃ t', tasks c1 !! k = Some t' ∧ Task.task_id t' = Task.task_id t
                  ∧ Task.error t' = Task.error t
                  ∧ ∀ x, x ∈ Task.asset_ids t → x ∈ Task.asset_ids t')
       ∧ (∀ k a, assets c !! k = Some a →
            ∃ a', assets c1 !! k = Some a' ∧ Asset.asset_id a' = Asset.asset_id a
                  ∧ Asset.role a' = Asset.role a ∧ Asset.error a' = Asset.error a
                  ∧ Asset.expected a' = Asset.expected a)
       ∧ (NoDup (Task.task_id <$> tasks c) → NoDup (Task.task_id <$> tasks c1))
       ∧ (NoDup (Asset.asset_id <$> assets c) → NoDup (Asset.asset_id <$> assets c1))).
Proof.
  intros c args. eexists. split; [vm_compute; reflexivity|].
  apply (X6_record_produced_frame Demo.host c args). vm_compute. reflexivity.
Defined.

(** *** Recording the same asset again *)

Section RecordProducedRepeat.
Variables W W' : World.

Lemma str_truthy_Some (o : option string) :
  str_truthy o = true ↔ o ≠ None ∧ o ≠ Some "".
Proof.
  unfold str_truthy. destruct o as [[|]|]; split; try done; try (by intros [_ ?]).
  by intros [? _].
Qed.

Lemma rp_start_task_noop t :
  str_truthy (Task.started_at t) = true → Task.status t ≠ Some "expected" →
  str_truthy (Task.status t) = true → rp_start_task W' t = t.
Proof.
  intros Hsa He Hst. unfold rp_start_task. rewrite Hsa. cbn [negb].
  by rewrite bool_decide_false, Hst.
Qed.

Lemma rp_start_task_stamped t :
  utc_now_iso W ≠ "" → str_truthy (Task.started_at (rp_start_task W t)) = true.
Proof.
  intros Hclock. unfold rp_start_task. destruct t as [id lb st cr sa fi er ids].
  cbn [Task.started_at].
  destruct (str_truthy sa) eqn:Hsa; cbn [negb Task.set_started_at Task.status];
    destruct (_ || _); cbn [Task.set_status Task.set_started_at Task.started_at];
    try done; apply str_truthy_Some; split; congruence.
Qed.

Lemma rp_start_task_started aid t :
  utc_now_iso W ≠ "" →
  rp_start_task W' (rp_list_asset aid (rp_start_task W t))
  = rp_list_asset aid (rp_start_task W t).
Proof.
  intros Hclock.
  destruct (rp_list_asset_fields aid (rp_start_task W t)) as (_ & L2 & L3 & _).
  destruct (rp_start_task_fields W t) as (_ & _ & _ & S4 & S5 & S6 & _).
  apply rp_start_task_noop.
  - rewrite L3. by apply rp_start_task_stamped.
  - by rewrite L2.
  - rewrite L2. by apply str_truthy_Some.
Qed.

Lemma rp_list_asset_idem aid t :
  rp_list_asset aid (rp_list_asset aid t) = rp_list_asset aid t.
Proof.
  destruct (rp_list_asset_fields aid t) as (_ & _ & _ & _ & Hin & _).
  unfold rp_list_asset at 1.
  rewrite bool_decide_true by done. unfold rp_list_asset.
  cbn [Task.set_asset_ids Task.asset_ids]. by rewrite sorted_set_idem.
Qed.

Lemma or_str_again a b : or_str a (or_str a b) = or_str a b.
Proof. unfold or_str. by destruct (str_truthy a). Qed.

Lemma str_or_again a b d :
  d ≠ "" → str_or (or_str a (Some (str_or (or_str a b) d))) d = str_or (or_str a b) d.
Proof.
  intros Hd. unfold or_str. destruct (str_truthy a) eqn:Ha; [done|].
  unfold str_or at 1. 
  assert (str_truthy (Some (str_or b d)) = true) as ->; [|done].
  pose proof (str_or_nonempty b d Hd) as Hne.
  unfold str_truthy. by destruct (str_or b d).
Qed.

Lemma parse_bool_again raw d : _parse_bool raw (_parse_bool raw d) = _parse_bool raw d.
Proof.
  unfold _parse_bool. destruct raw as [r|]; [|done].
  by repeat case_bool_decide.
Qed.

Lemma rp_write_asset_idem args tid a :
  rp_write_asset args tid (rp_write_asset args tid a) = rp_write_asset args tid a.
Proof.
  assert (produced_asset args tid (produced_asset args tid a) = produced_asset args tid a)
    as Hp.
  { unfold produced_asset. destruct a.
    cbn [Asset.set_task_id Asset.set_kind Asset.set_required Asset.set_locations
         Asset.set_produced Asset.set_status Asset.kind Asset.is_required
         Asset.required Asset.uri Asset.local_path Asset.local_glob Asset.gcs_glob
         default].
    unfold id. rewrite !or_str_again, str_or_again, parse_bool_again by done. done. }
  unfold rp_write_asset. destruct (rp_extra_json args) as [[]|]; try exact Hp.
  destruct a.
  unfold produced_asset.
  cbn [Asset.set_task_id Asset.set_kind Asset.set_required Asset.set_locations
       Asset.set_produced Asset.set_status Asset.set_extra Asset.kind
       Asset.is_required Asset.required Asset.uri Asset.local_path
       Asset.local_glob Asset.gcs_glob Asset.extra default].
  unfold id. rewrite !or_str_again, str_or_again, parse_bool_again by done.
  by rewrite (assoc_L (∪)), (idemp_L (∪)).
Qed.

(** X7.  Recording the same asset a second time, on the document a first
    successful call returned, succeeds and changes nothing: no second task or
    asset is created, the start stamp is not renewed and the list of asset
    ids is not touched, whatever the clock of the second call, as long as it
    resolves the same asset id (as it does when the id is given). *)
Theorem X7_record_produced_repeat (c : Contract) (args : ProducedArgs) (c1 : Contract) :
  _cmd_record_produced W c args = Val c1 →
  utc_now_iso W ≠ "" →
  rp_resolved_asset_id W' args = rp_resolved_asset_id W args →
  _cmd_record_produced W' c1 args = Val c1.
Proof.
  intros Hrun Hclock Haid.
  destruct (record_produced_Val W _ _ _ Hrun) as [Htid Hc1].
  set (tid := Py.strip (rp_task_id args)) in *.
  set (aid := rp_resolved_asset_id W args) in *.
  destruct (_ensure_task W (tasks c) tid) as [ts i] eqn:Hens.
  destruct (_ensure_asset W (assets c) aid tid) as [xs j] eqn:Hena.
  cbn [fst snd] in Hc1.
  destruct (ensure_task_find W _ _ _ _ Hens) as (t0 & Hft).
  destruct (ensure_asset_find W _ _ _ _ _ Hena) as (a0 & Hfa).
  assert (_ensure_task W' (tasks c1) tid = (tasks c1, i)) as Hens1.
  { unfold _ensure_task. rewrite Hc1. cbn [tasks].
    erewrite (list_find_alter_Some Task.task_id); [done| |].
    - intros y. by destruct (rp_list_asset_fields aid y) as (? & _).
    - apply (list_find_alter_Some Task.task_id); [|done].
      intros y. by destruct (rp_start_task_fields W y) as (? & _). }
  assert (_ensure_asset W' (assets c1) aid tid = (assets c1, j)) as Hena1.
  { unfold _ensure_asset. rewrite Hc1. cbn [assets].
    erewrite (list_find_alter_Some Asset.asset_id); [done| |done].
    intros y. by destruct (rp_write_asset_fields args tid y) as (? & _). }
  rewrite (record_produced_unfold W' c1 args). fold tid. rewrite Haid. fold aid.
  rewrite Hens1, Hena1. cbn [fst snd].
  rewrite bool_decide_false by done.
  assert (Val (A:=Contract)
            {| run_meta := run_meta c1;
               tasks := alter (rp_list_asset aid) i (alter (rp_start_task W') i (tasks c1));
               assets := alter (rp_write_asset args tid) j (assets c1);
               verification := verification c1; preflight := preflight c1 |}
          = Val c1) as Hsame.
  { f_equal. rewrite Hc1.
    cbn [run_meta tasks assets verification preflight]. f_equal.
    - apply list_eq. intros k. destruct (decide (i = k)) as [->|Hne].
      + rewrite !list_lookup_alter_eq. destruct (ts !! k); simpl; [|done].
        by rewrite rp_start_task_started, rp_list_asset_idem.
      + by rewrite !list_lookup_alter_ne.
    - apply list_eq. intros k. destruct (decide (j = k)) as [->|Hne].
      + rewrite !list_lookup_alter_eq. destruct (xs !! k); simpl; [|done].
        by rewrite rp_write_asset_idem.
      + by rewrite !list_lookup_alter_ne. }
  rewrite (record_produced_unfold W c args) in Hrun. fold tid aid in Hrun.
  rewrite bool_decide_false in Hrun by done.
  destruct (rp_extra_json args) as [[]|]; try done.
Qed.

End RecordProducedRepeat.

Lemma X7_record_produced_repeat_witness :
  let c := Demo.doc [Demo.task "t" "expected" []] [] in
  let args := Demo.produced_args "t" None (Some "/data/meta.json") in
  ∃ c1,
    _cmd_record_produced Demo.host c args = Val c1
    ∧ utc_now_iso Demo.host ≠ ""
    ∧ rp_resolved_asset_id Demo.cloud args = rp_resolved_asset_id Demo.host args
    ∧ _cmd_record_produced Demo.cloud c1 args = Val c1.
Proof.
  intros c args. eexists. split; [vm_compute; reflexivity|].
  split; [discriminate|]. split; [reflexivity|].
  apply (X7_record_produced_repeat Demo.host Demo.cloud c args);
    [vm_compute; reflexivity|discriminate|reflexivity].
Defined.

(** *** What every command keeps *)

Section Script.

Lemma ensure_task_prefix W ts tid :
  Task.task_id <$> ts `prefix_of` Task.task_id <$> (_ensure_task W ts tid).1.
Proof.
  unfold _ensure_task. destruct (list_find _ ts) as [[]|]; cbn [fst]; [done|].
  rewrite fmap_app. by apply prefix_app_r.
Qed.

Lemma ensure_asset_prefix W xs aid tid :
  Asset.asset_id <$> xs `prefix_of` Asset.asset_id <$> (_ensure_asset W xs aid tid).1.
Proof.
  unfold _ensure_asset. destruct (list_find _ xs) as [[]|]; cbn [fst]; [done|].
  rewrite fmap_app. by apply prefix_app_r.
Qed.

Lemma repair_task_ids W st a :
  Task.task_id <$> st.1 `prefix_of` Task.task_id <$> (repair_task W st a).1
  ∧ (NoDup (Task.task_id <$> st.1) → NoDup (Task.task_id <$> (repair_task W st a).1)).
Proof.
  destruct st as [ts tm]. unfold repair_task. cbn [fst].
  set (tid := Asset.task_id (repair_asset a)).
  assert (∃ ts1 tm1,
            (match tm !! tid with
             | Some _ => (ts, tm)
             | None => let '(ts', j) := _ensure_task W ts tid in (ts', <[tid:=j]> tm)
             end) = (ts1, tm1)
            ∧ Task.task_id <$> ts `prefix_of` Task.task_id <$> ts1
            ∧ (NoDup (Task.task_id <$> ts) → NoDup (Task.task_id <$> ts1)))
    as (ts1 & tm1 & -> & Hpre & Hnd).
  { destruct (tm !! tid); [by exists ts, tm|].
    pose proof (ensure_task_prefix W ts tid) as Hp.
    pose proof (ensure_task_ids W ts tid) as Hn.
    destruct (_ensure_task W ts tid) as [ts1 j]. by exists ts1, (<[tid:=j]> tm). }
  destruct (tm1 !! tid) as [j|]; [|done].
  destruct (_ && _); cbn [fst]; [|done].
  by rewrite fmap_alter_key.
Qed.

Lemma repair_ids W ts xs :
  Task.task_id <$> ts `prefix_of` Task.task_id <$> (repair W ts xs).1
  ∧ (NoDup (Task.task_id <$> ts) → NoDup (Task.task_id <$> (repair W ts xs).1)).
Proof.
  unfold repair. cbn [fst]. generalize (_task_index ts) as tm.
  revert ts. induction xs as [|x xs IH]; intros ts tm; cbn [foldl]; [done|].
  destruct (repair_task_ids W (ts, tm) x) as [Hp Hn].
  destruct (repair_task W (ts, tm) x) as [ts1 tm1]. cbn [fst] in *.
  destruct (IH ts1 tm1) as [Hp' Hn']. split; [by etrans|auto].
Qed.

Lemma main_cases W c cmd :
  (main W c cmd).1 = c
  ∨ (∃ args c1, cmd = CmdRecordProduced args
                ∧ _cmd_record_produced W c args = Val c1 ∧ (main W c cmd).1 = c1)
  ∨ (∃ m tid e error,
       cmd = CmdMarkTask m tid e
       ∧ (e = None ∧ error = None ∨ ∃ d, e = Some (JObj d) ∧ error = Some d)
       ∧ (main W c cmd).1 = _set_task_status W c tid (mark_status m) error)
  ∨ (∃ strict, cmd = CmdPreflight strict ∧ (main W c cmd).1 = (_cmd_preflight W c strict).1)
  ∨ (∃ args c' code, cmd = CmdFinalize args
                     ∧ _cmd_finalize W c args = Val (c', code) ∧ (main W c cmd).1 = c').
Proof.
  unfold main, handler. destruct cmd as [args|m tid e|strict|args].
  - destruct (_cmd_record_produced W c args) as [c1|msg] eqn:Hrun; [|by left].
    right; left. by exists args, c1.
  - unfold _cmd_mark_task. destruct e as [[]|]; try (by left).
    + right; right; left. exists m, tid, (Some (JObj kv)), (Some kv).
      split_and!; [done|right; by eexists|done].
    + right; right; left. exists m, tid, None, None. split_and!; [done|by left|done].
  - right; right; right; left. by exists strict.
  - destruct (_cmd_finalize W c args) as [[c' code]|msg] eqn:Hrun; [|by left].
    right; right; right; right. by exists args, c', code.
Qed.

Lemma preflight_ids W c strict :
  tasks (_cmd_preflight W c strict).1 = tasks c
  ∧ Asset.asset_id <$> assets (_cmd_preflight W c strict).1 = Asset.asset_id <$> assets c.
Proof.
  unfold _cmd_preflight. cbn [fst tasks assets]. split; [done|].
  rewrite <- list_fmap_compose. apply list_fmap_ext. intros _ a _. simpl.
  destruct (is_input a); [|done].
  by destruct (preflight_asset_fields W a) as (_ & _ & -> & _).
Qed.

Lemma finalize_ids W c args c' code :
  _cmd_finalize W c args = Val (c', code) →
  Task.task_id <$> tasks c' = Task.task_id <$> (repair W (tasks c) (assets c)).1
  ∧ Asset.asset_id <$> assets c' = Asset.asset_id <$> assets c.
Proof.
  intros (Hxs & Hts & _)%finalize_Val. rewrite Hxs, Hts. split.
  - rewrite <- list_fmap_compose. by apply list_fmap_ext.
  - unfold assets_after. rewrite <- !list_fmap_compose. apply list_fmap_ext.
    intros _ a _. simpl.
    destruct (finalize_asset_fields W (_parse_bool (fa_audit_corruption args) true)
                (repair_asset a)) as (_ & _ & _ & _ & _ & -> & _).
    by destruct (repair_asset_fields a) as (-> & _).
Qed.

Lemma main_ids W c cmd :
  ids_extended c (main W c cmd).1
  ∧ (unique_ids c → unique_ids (main W c cmd).1)
  ∧ ((∀ args, cmd ≠ CmdRecordProduced args) →
     Asset.asset_id <$> assets (main W c cmd).1 = Asset.asset_id <$> assets c).
Proof.
  unfold ids_extended, unique_ids.
  destruct (main_cases W c cmd)
    as [->|[(args & c1 & -> & Hrun & ->)|[(m & tid & e & error & -> & _ & ->)
        |[(strict & -> & ->)|(args & c' & code & -> & Hrun & ->)]]]].
  - done.
  - destruct (record_produced_Val W _ _ _ Hrun) as [_ ->].
    cbn [tasks assets].
    rewrite !fmap_alter_key.
    + split_and!.
      * apply ensure_task_prefix.
      * apply ensure_asset_prefix.
      * intros [Ht Ha]. split; [by apply ensure_task_ids|by apply ensure_asset_ids].
      * intros Hne. by destruct (Hne args).
    + intros a. by destruct (rp_write_asset_fields args (Py.strip (rp_task_id args)) a)
        as (? & _).
    + intros t. by destruct (rp_start_task_fields W t) as (? & _).
    + intros t.
      by destruct (rp_list_asset_fields (rp_resolved_asset_id W args) t) as (? & _).
  - destruct (set_task_status_shape W c tid (mark_status m) error)
      as (ts & i & t & Hens & _ & _ & -> & -> & _).
    assert (Asset.asset_id
              <$> (if bool_decide (mark_status m = "failed")
                   then fail_assets error (_asset_index (assets c)) (Task.asset_ids t)
                          (assets c)
                   else assets c) = Asset.asset_id <$> assets c) as ->.
    { case_bool_decide; [apply fail_assets_ids|done]. }
    rewrite fmap_alter_key
      by (intros y; by destruct (mark_task_fields W (mark_status m) error y) as (-> & _)).
    pose proof (ensure_task_prefix W (tasks c) tid) as Hp.
    pose proof (ensure_task_ids W (tasks c) tid) as Hn.
    rewrite Hens in Hp, Hn. cbn [fst] in Hp, Hn.
    split_and!; [done|done| |done]. intros [? ?]. auto.
  - destruct (preflight_ids W c strict) as [-> ->]. done.
  - destruct (finalize_ids W _ _ _ _ Hrun) as [-> ->].
    destruct (repair_ids W (tasks c) (assets c)) as [Hp Hn].
    split_and!; [done|done| |done]. intros [? ?]. auto.
Qed.

(** X8.  No command ever removes or renames a task or an asset: over any
    script of [record-produced], [mark-task-*], [preflight] and [finalize]
    calls, whatever the host does in between and whether or not a call
    fails, the task ids and the asset ids of the document at the start are,
    in order, the beginning of those at the end, and ids that were unique
    stay unique.  Only [record-produced] adds assets; [preflight] adds no
    task either. *)
Theorem X8_script_keeps_ids (c : Contract) (script : list (World * command)) :
  ids_extended c (run_script c script)
  ∧ (unique_ids c → unique_ids (run_script c script))
  ∧ (Forall (λ step, ∀ args, step.2 ≠ CmdRecordProduced args) script →
     Asset.asset_id <$> assets (run_script c script) = Asset.asset_id <$> assets c)
  ∧ (∀ W strict, tasks (main W c (CmdPreflight strict)).1 = tasks c).
Proof.
  split_and!.
  - revert c. induction script as [|[W cmd] script IH]; intros c; cbn [foldl fst snd].
    + done.
    + destruct (main_ids W c cmd) as [[Ht Ha] _].
      destruct (IH (main W c cmd).1) as [Ht' Ha']. split; by etrans.
  - revert c. induction script as [|[W cmd] script IH]; intros c; cbn [foldl fst snd].
    + done.
    + intros Hu. apply IH. by apply main_ids.
  - revert c. induction script as [|[W cmd] script IH]; intros c; cbn [foldl fst snd].
    + done.
    + intros [Hcmd Hrest]%Forall_cons.
      change (run_script c ((W, cmd) :: script))
        with (run_script (main W c cmd).1 script).
      rewrite (IH _ Hrest). by apply main_ids.
  - intros W strict. unfold main, handler. cbn [mret exc_ret fst].
    by destruct (preflight_ids W c strict) as [-> _].
Qed.

Lemma main_keeps_error W c cmd j a :
  assets c !! j = Some a → sets_asset_errors cmd = false →
  ∃ a', assets (main W c cmd).1 !! j = Some a'
        ∧ Asset.asset_id a' = Asset.asset_id a ∧ Asset.error a' = Asset.error a.
Proof.
  intros Ha Hcmd.
  destruct (main_cases W c cmd)
    as [->|[(args & c1 & -> & Hrun & ->)|[(m & tid & e & error & -> & He & ->)
        |[(strict & -> & ->)|(args & c' & code & -> & Hrun & ->)]]]].
  - by exists a.
  - destruct (record_produced_Val W _ _ _ Hrun) as [_ ->]. cbn [assets].
    set (tid := Py.strip (rp_task_id args)). set (aid := rp_resolved_asset_id W args).
    destruct (ensure_asset_extends W (assets c) aid tid) as (Ae & _).
    apply Ae in Ha. set (ra := _ensure_asset W (assets c) aid tid) in *.
    destruct (decide (ra.2 = j)) as [<-|Hne].
    + exists (rp_write_asset args tid a). rewrite list_lookup_alter_eq, Ha.
      by destruct (rp_write_asset_fields args tid a) as (? & _ & _ & _ & _ & ? & _).
    + exists a. by rewrite list_lookup_alter_ne.
  - destruct (set_task_status_shape W c tid (mark_status m) error)
      as (ts & i & t & _ & _ & _ & _ & -> & _).
    case_bool_decide as Hst; [|by exists a].
    assert (error = None) as ->.
    { destruct m; try done. destruct He as [[_ ->]|(d & -> & _)]; done. }
    rewrite fail_assets_lookup, Ha. case_bool_decide; by eexists.
  - unfold _cmd_preflight. cbn [fst assets]. rewrite list_lookup_fmap, Ha. cbn.
    destruct (is_input a); [|by exists a].
    exists (preflight_asset W a).
    by destruct (preflight_asset_fields W a) as (_ & _ & ? & _ & _ & ? & _).
  - apply finalize_Val in Hrun as (-> & _). unfold assets_after.
    rewrite !list_lookup_fmap, Ha. cbn. eexists. split; [done|].
    destruct (finalize_asset_fields W (_parse_bool (fa_audit_corruption args) true)
                (repair_asset a)) as (_ & _ & _ & _ & _ & -> & _ & _ & _ & -> & _).
    by destruct (repair_asset_fields a) as (-> & _ & _ & _ & _ & _ & _ & _ & -> & _).
Qed.

(** X9.  The error record of an asset is written by one command only,
    [mark-task-failed] with an error file.  Over a script without it the
    asset keeps its place, its id and its error record, whatever else is
    recorded, checked or finalized; so an asset with a non-empty error
    record is reported [failed] by every finalize that follows, also after
    [record-produced] has set it to [produced] or [preflight] to [ok]. *)
Theorem X9_asset_error_kept (c : Contract) (script : list (World * command))
    (j : nat) (a : Asset.t) :
  assets c !! j = Some a →
  Forall (λ step, sets_asset_errors step.2 = false) script →
  ∃ a', assets (run_script c script) !! j = Some a'
        ∧ Asset.asset_id a' = Asset.asset_id a ∧ Asset.error a' = Asset.error a
        ∧ (dict_truthy (Asset.error a) = true →
           ∀ W args c' code,
             _cmd_finalize W (run_script c script) args = Val (c', code) →
             ∃ b, assets c' !! j = Some b ∧ Asset.status b = Some "failed"
                  ∧ Asset.error b = Asset.error a).
Proof.
  intros Ha Hscript.
  assert (∃ a', assets (run_script c script) !! j = Some a'
                ∧ Asset.asset_id a' = Asset.asset_id a
                ∧ Asset.error a' = Asset.error a) as (a' & Ha' & Hid & Herr).
  { revert c a Ha. induction Hscript as [|[W cmd] script Hcmd _ IH]; intros c a Ha.
    - by exists a.
    - destruct (main_keeps_error W c cmd j a Ha Hcmd) as (a1 & Ha1 & Hid1 & Herr1).
      destruct (IH _ _ Ha1) as (a2 & Ha2 & Hid2 & Herr2).
      exists a2. split; [done|]. split; congruence. }
  exists a'. split_and!; try done.
  intros Htruthy W args c' code (Hxs & _)%finalize_Val. rewrite Hxs.
  unfold assets_after. rewrite !list_lookup_fmap, Ha'. cbn. eexists. split; [done|].
  destruct (finalize_asset_fields W (_parse_bool (fa_audit_corruption args) true)
              (repair_asset a')) as (_ & _ & _ & _ & -> & _ & _ & _ & _ & -> & _).
  destruct (repair_asset_fields a') as (_ & _ & _ & _ & _ & _ & _ & _ & Hre & _).
  rewrite Hre, Herr. split; [|done]. unfold asset_status. by rewrite Hre, Herr, Htruthy.
Qed.

End Script.

Lemma X9_asset_error_kept_witness :
  let a := Demo.asset "a" "t" "input" (Some "/data/meta.json") (Some Demo.boom) in
  let c := Demo.doc [Demo.task "t" "failed" ["a"]] [a] in
  let script :=
    [(Demo.host, CmdRecordProduced (Demo.produced_args "t" (Some "a") None));
     (Demo.cloud, CmdPreflight true);
     (Demo.host, CmdMarkTask MarkSucceeded "t" None)] in
  assets c !! 0%nat = Some a
  ∧ Forall (λ step, sets_asset_errors step.2 = false) script
  ∧ ∃ a', assets (run_script c script) !! 0%nat = Some a'
          ∧ Asset.asset_id a' = Asset.asset_id a ∧ Asset.error a' = Asset.error a
          ∧ (dict_truthy (Asset.error a) = true →
             ∀ W args c' code,
               _cmd_finalize W (run_script c script) args = Val (c', code) →
               ∃ b, assets c' !! 0%nat = Some b ∧ Asset.status b = Some "failed"
                    ∧ Asset.error b = Asset.error a).
Proof.
  intros a c script. split; [reflexivity|].
  assert (Forall (λ step, sets_asset_errors step.2 = false) script) as Hscript
    by (repeat constructor).
  split; [exact Hscript|].
  apply (X9_asset_error_kept c script 0 a); [reflexivity|exact Hscript].
Defined.

(** *** The preflight report *)

Lemma filter_fmap {A B} (f : A → B) (P : B → Prop) `{!∀ x, Decision (P x)}
    (l : list A) :
  filter P (f <$> l) = f <$> filter (λ x, P (f x)) l.
Proof.
  induction l as [|x l IH]; [done|]. rewrite fmap_cons, !filter_cons, IH.
  by destruct (decide (P (f x))).
Qed.

Lemma filter_fmap_ext {A} (f : A → A) (P Q : A → Prop)
    `{!∀ x, Decision (P x), !∀ x, Decision (Q x)} (l : list A) :
  (∀ x, P x → f x = x) → (∀ x, P x → (Q x ↔ Q (f x))) →
  filter (λ x, Q (f x)) (filter P l) = filter Q (filter P l).
Proof.
  intros Hf HQ. induction l as [|x l IH]; [done|]. rewrite !filter_cons.
  destruct (decide (P x)) as [HP|HP]; [|done].
  rewrite !filter_cons, IH. specialize (HQ x HP).
  destruct (decide (Q (f x))), (decide (Q x)); tauto.
Qed.

Section PreflightReport.
Variable W : World.

(** What the loop of preflight does to one asset of the document. *)
Lemma preflight_step_fields a :
  let b := if is_input a then preflight_asset W a else a in
  is_input b = is_input a ∧ Asset.asset_id b = Asset.asset_id a
  ∧ Asset.is_required b = Asset.is_required a
  ∧ (is_input a = true → Asset.exists_ b = (_asset_exists W a).1.1).
Proof.
  destruct (is_input a) eqn:Hin; cbn zeta; [|by rewrite Hin].
  destruct (preflight_asset_fields W a) as (Hex & _ & Hid & Hrole & Hreq & _).
  unfold is_input, Asset.is_required in *. by rewrite Hrole, Hreq, Hin.
Qed.

Lemma length_four_way {A} (ex : A → option bool) (req : A → bool) (l : list A) :
  length l
  = (length (filter (λ a, ex a = Some true) l)
     + length (filter (λ a, req a = true) (filter (λ a, ex a = Some false) l))
     + length (filter (λ a, req a = false) (filter (λ a, ex a = Some false) l))
     + length (filter (λ a, ex a = None) l))%nat.
Proof.
  induction l as [|x l IH]; [done|]. rewrite !filter_cons.
  destruct (ex x) as [[]|] eqn:Hex, (req x) eqn:Hreq;
    repeat (case_decide; try done); rewrite ?filter_cons; cbn [length];
    repeat (case_decide; try congruence); cbn [length]; lia.
Qed.

Lemma preflight_inputs (l : list Asset.t) :
  let step := λ a, if is_input a then preflight_asset W a else a in
  filter (λ a, is_input a = true) (step <$> l)
  = step <$> filter (λ a, is_input a = true) l.
Proof.
  intros step. rewrite filter_fmap. f_equal. apply list_filter_iff. intros a.
  destruct (preflight_step_fields a) as (Hi & _). subst step. cbn beta. by rewrite Hi.
Qed.

Lemma preflight_inputs_by (v : option bool) (l : list Asset.t) :
  let step := λ a, if is_input a then preflight_asset W a else a in
  filter (λ a, Asset.exists_ a = v) (step <$> filter (λ a, is_input a = true) l)
  = step <$> filter (λ a, (_asset_exists W a).1.1 = v) (filter (λ a, is_input a = true) l).
Proof.
  intros step. rewrite filter_fmap. f_equal. rewrite !list_filter_filter.
  apply list_filter_iff. intros a. split; intros [Hv Hin]; (split; [|done]).
  - destruct (preflight_step_fields a) as (_ & _ & _ & Hex). subst step.
    cbn beta in Hv. by rewrite <- Hex.
  - destruct (preflight_step_fields a) as (_ & _ & _ & Hex). subst step.
    cbn beta. by rewrite Hex.
Qed.

Lemma preflight_ids_by (r : bool) (l : list Asset.t) :
  let step := λ a, if is_input a then preflight_asset W a else a in
  Asset.asset_id <$> filter (λ a, Asset.is_required a = r) (step <$> l)
  = Asset.asset_id <$> filter (λ a, Asset.is_required a = r) l.
Proof.
  intros step. rewrite filter_fmap, <- list_fmap_compose.
  erewrite (list_filter_iff _ (λ a, Asset.is_required a = r)).
  - apply list_fmap_ext. intros _ a _. simpl.
    destruct (preflight_step_fields a) as (_ & Hi & _). subst step. cbn beta. by rewrite Hi.
  - intros a. destruct (preflight_step_fields a) as (_ & _ & Hr & _).
    subst step. cbn beta. by rewrite Hr.
Qed.

(** X10.  The preflight report, read against the host: it counts the input
    assets of the document, those the host shows to exist, and lists, in
    document order, the ids of the required and of the optional inputs the
    host shows to be absent; with the inputs whose existence could not be
    established these make up the total.  The completion code is 2 exactly
    when the check is strict and a required input is absent, and 0
    otherwise; an input of unknown existence never makes it 2.  The run
    section, the tasks and the verification report are not touched. *)
Theorem X10_preflight_report (c : Contract) (strict : bool) :
  let r := _cmd_preflight W c strict in
  let inputs := filter (λ a, is_input a = true) (assets c) in
  let ex := λ a, (_asset_exists W a).1.1 in
  let missing := filter (λ a, ex a = Some false) inputs in
  ∃ rep,
    preflight r.1 = Some rep
    ∧ checked_at rep = utc_now_iso W
    ∧ total_inputs rep = length inputs
    ∧ ok rep = length (filter (λ a, ex a = Some true) inputs)
    ∧ pf_missing_required rep
      = Asset.asset_id <$> filter (λ a, Asset.is_required a = true) missing
    ∧ pf_missing_optional rep
      = Asset.asset_id <$> filter (λ a, Asset.is_required a = false) missing
    ∧ total_inputs rep
      = (ok rep + length (pf_missing_required rep) + length (pf_missing_optional rep)
         + length (filter (λ a, ex a = None) inputs))%nat
    ∧ (r.2 = 2 ∨ r.2 = 0)
    ∧ (r.2 = 2 ↔
       strict = true
       ∧ ∃ a, a ∈ assets c ∧ is_input a = true ∧ Asset.is_required a = true
              ∧ ex a = Some false)
    ∧ run_meta r.1 = run_meta c ∧ tasks r.1 = tasks c
    ∧ verification r.1 = verification c
    ∧ length (assets r.1) = length (assets c).
Proof.
  intros r inputs ex missing. unfold r, _cmd_preflight.
  cbn [fst snd preflight run_meta tasks verification assets].
  set (step := λ a, if is_input a then preflight_asset W a else a).
  pose proof (preflight_inputs (assets c)) as Hin. fold step inputs in Hin.
  rewrite !Hin.
  pose proof (λ v, preflight_inputs_by v (assets c)) as Hby. fold step inputs in Hby.
  rewrite !Hby. fold missing.
  pose proof (λ b, preflight_ids_by b missing) as Hids. fold step in Hids.
  rewrite !Hids.
  eexists. split; [reflexivity|].
  cbn [checked_at total_inputs ok pf_missing_required pf_missing_optional].
  rewrite !length_fmap.
  set (mr := filter (λ a, Asset.is_required a = true) missing).
  assert (nonempty (Asset.asset_id <$> mr) = true
          ↔ ∃ a, a ∈ assets c ∧ is_input a = true ∧ Asset.is_required a = true
                 ∧ ex a = Some false) as Hmr.
  { rewrite nonempty_exists. split.
    - intros (x & (a & -> & Ha)%list_elem_of_fmap).
      apply list_elem_of_filter in Ha as [Hreq Ha].
      apply list_elem_of_filter in Ha as [Hex Ha].
      apply list_elem_of_filter in Ha as [Hinp Ha]. by exists a.
    - intros (a & Ha & Hinp & Hreq & Hex). exists (Asset.asset_id a).
      apply list_elem_of_fmap. exists a. split; [done|].
      repeat (apply list_elem_of_filter; split; [done|]). done. }
  split_and!; try done.
  - apply (length_four_way ex Asset.is_required inputs).
  - destruct (strict && _); auto.
  - rewrite <- Hmr. destruct strict, (nonempty (Asset.asset_id <$> mr)); cbn [andb];
      split; try done; by intros [? ?].
Qed.

End PreflightReport.

(** ** Further properties of the string functions *)

(** *** Strings as lists of characters *)

Section Chars.

#[local] Abbreviation chars := String.list_ascii_of_string.

Lemma chars_inj s t : chars s = chars t → s = t.
Proof.
  intros H. rewrite <- (String.string_of_list_ascii_of_string s),
    <- (String.string_of_list_ascii_of_string t). by rewrite H.
Qed.

Lemma chars_app s t : chars (s +:+ t) = chars s ++ chars t.
Proof.
  induction s as [|c s IH]; [done|].
  change (c :: chars (s +:+ t) = c :: (chars s ++ chars t)). by f_equal.
Qed.

Lemma chars_length s : length (chars s) = String.length s.
Proof.
  induction s as [|c s IH]; [done|].
  change (S (length (chars s)) = S (String.length s)). by f_equal.
Qed.

Lemma chars_nil s : chars s = [] ↔ s = "".
Proof. by destruct s. Qed.

Lemma chars_rev_app s t : chars (String.rev_app s t) = reverse (chars s) ++ chars t.
Proof.
  revert t. induction s as [|c s IH]; intros t; [done|].
  change (chars (String.rev_app s (String c t)) = reverse (c :: chars s) ++ chars t).
  by rewrite IH, reverse_cons, <- app_assoc.
Qed.

Lemma chars_rev s : chars (String.rev s) = reverse (chars s).
Proof. unfold String.rev. by rewrite chars_rev_app, app_nil_r. Qed.

Lemma rev_involutive s : String.rev (String.rev s) = s.
Proof. apply chars_inj. by rewrite !chars_rev, reverse_involutive. Qed.

Lemma chars_prefix p s :
  String.prefix p s = true ↔ ∃ t, chars s = chars p ++ t.
Proof.
  revert s. induction p as [|c p IH]; intros s.
  - destruct s; cbn; split; eauto.
  - destruct s as [|d s]; cbn.
    + split; [done|]. by intros (t & ?).
    + destruct (ascii_dec c d) as [->|Hne].
      * rewrite IH. split; intros (t & Ht); exists t; congruence.
      * split; [done|]. intros (t & Ht). congruence.
Qed.

Lemma chars_contains sub s :
  Py.contains sub s = true ↔ ∃ a b, chars s = a ++ chars sub ++ b.
Proof.
  induction s as [|c s IH].
  - cbn [Py.contains]. rewrite chars_prefix. split.
    + intros (t & Ht). exists [], t. done.
    + intros (a & b & Hab). cbn in Hab. symmetry in Hab.
      apply app_eq_nil in Hab as [-> Hab]. apply app_eq_nil in Hab as [Hs ->].
      exists []. by rewrite Hs.
  - cbn [Py.contains]. rewrite orb_true_iff, IH, chars_prefix. split.
    + intros [(t & Ht)|(a & b & Hab)].
      * by exists [], t.
      * exists (c :: a), b. cbn. by rewrite Hab.
    + intros (a & b & Hab). destruct a as [|d a].
      * left. by exists b.
      * right. exists a, b. cbn in Hab. congruence.
Qed.

Lemma chars_endswith p s :
  Py.endswith p s = true ↔ ∃ t, chars s = t ++ chars p.
Proof.
  unfold Py.endswith. rewrite chars_prefix, !chars_rev. split.
  - intros (t & Ht). exists (reverse t).
    apply (inj reverse). by rewrite Ht, reverse_app, reverse_involutive.
  - intros (t & Ht). exists (reverse t). by rewrite Ht, reverse_app.
Qed.

Lemma chars_slice_from n s : chars (Py.slice_from n s) = drop n (chars s).
Proof.
  revert s. induction n as [|n IH]; intros s; [done|].
  destruct s as [|c s]; [done|]. cbn. apply IH.
Qed.

(** [lstrip] and [rstrip]: what is cut off and where the cut ends. *)
Lemma lstrip_by_spec p s :
  ∃ pre, chars s = pre ++ chars (Py.lstrip_by p s)
         ∧ Forall (λ c, p c = true) pre
         ∧ ∀ c t, chars (Py.lstrip_by p s) = c :: t → p c = false.
Proof.
  induction s as [|c s (pre & Hs & Hpre & Hfirst)].
  - exists []. by split_and!.
  - cbn [Py.lstrip_by]. destruct (p c) eqn:Hc.
    + exists (c :: pre). split_and!; [cbn; by rewrite Hs|by constructor|done].
    + exists []. split_and!; [done|done|]. intros d t [= <- _]. done.
Qed.

Lemma rstrip_by_spec p s :
  ∃ suf, chars s = chars (Py.rstrip_by p s) ++ suf
         ∧ Forall (λ c, p c = true) suf
         ∧ ∀ c t, chars (Py.rstrip_by p s) = t ++ [c] → p c = false.
Proof.
  unfold Py.rstrip_by.
  destruct (lstrip_by_spec p (String.rev s)) as (pre & Hs & Hpre & Hfirst).
  exists (reverse pre). rewrite !chars_rev in *. split_and!.
  - apply (inj reverse). by rewrite Hs, reverse_app, !reverse_involutive.
  - by apply Forall_reverse.
  - intros c t Ht. apply (Hfirst c (reverse t)).
    apply (inj reverse). rewrite Ht. by rewrite reverse_cons, reverse_involutive.
Qed.

Lemma rstrip_by_fixed p s :
  (∀ c t, chars s = t ++ [c] → p c = false) → Py.rstrip_by p s = s.
Proof.
  intros Hlast. destruct (rstrip_by_spec p s) as (suf & Hs & Hsuf & _).
  destruct suf as [|d suf _] using rev_ind.
  - apply chars_inj. by rewrite app_nil_r in Hs.
  - rewrite app_assoc in Hs. apply Hlast in Hs.
    apply Forall_app in Hsuf as [_ Hd%Forall_inv]. cbn beta in Hd. congruence.
Qed.

Lemma lstrip_by_fixed p s :
  (∀ c t, chars s = c :: t → p c = false) → Py.lstrip_by p s = s.
Proof.
  destruct s as [|c s]; [done|]. intros Hfirst. cbn. by rewrite (Hfirst c (chars s)).
Qed.

End Chars.

(** *** The canonical form of an object-storage URI *)

Section NormalizeUri.

#[local] Abbreviation chars := String.list_ascii_of_string.

Lemma collapse_slashes_fixed fuel r :
  Py.contains "//" r = false → collapse_slashes fuel r = r.
Proof. intros H. destruct fuel; cbn [collapse_slashes]; by rewrite ?H. Qed.

Lemma collapse_slashes_length fuel r :
  (String.length (collapse_slashes fuel r) ≤ String.length r)%nat.
Proof.
  revert r. induction fuel as [|fuel IH]; intros r; cbn [collapse_slashes]; [done|].
  destruct (Py.contains "//" r); [|done].
  etrans; [apply IH|]. apply replace_dslash_length.
Qed.

Lemma contains_prefix_false sub s r suf :
  chars s = chars r ++ suf → Py.contains sub s = false → Py.contains sub r = false.
Proof.
  intros Hs Hno. destruct (Py.contains sub r) eqn:Hr; [|done].
  apply chars_contains in Hr as (a & b & Hab).
  rewrite <- Hno. symmetry. apply chars_contains. exists a, (b ++ suf).
  by rewrite Hs, Hab, <- !app_assoc.
Qed.

Lemma rstrip_slash_spec s :
  Py.endswith "/" (Py.rstrip_slash s) = false
  ∧ (String.length (Py.rstrip_slash s) ≤ String.length s)%nat
  ∧ (∀ sub, Py.contains sub s = false → Py.contains sub (Py.rstrip_slash s) = false)
  ∧ (Py.endswith "/" s = false → Py.rstrip_slash s = s).
Proof.
  unfold Py.rstrip_slash.
  destruct (rstrip_by_spec (λ c, bool_decide (c = "/"%char)) s) as (suf & Hs & _ & Hlast).
  split_and!.
  - destruct (Py.endswith "/" _) eqn:He; [|done].
    apply chars_endswith in He as (t & Ht). apply Hlast in Ht.
    by apply bool_decide_eq_false in Ht.
  - rewrite <- !chars_length, Hs, length_app. lia.
  - intros sub. by apply contains_prefix_false with suf.
  - intros He. apply rstrip_by_fixed. intros c t Ht.
    apply bool_decide_eq_false. intros ->.
    assert (Py.endswith "/" s = true) as Hyes; [|congruence].
    apply chars_endswith. by exists t.
Qed.

Lemma startswith_gs v :
  Py.startswith "gs://" v = true → v = "gs://" +:+ Py.slice_from 5 v.
Proof.
  intros (t & Ht)%chars_prefix. apply chars_inj.
  by rewrite chars_app, chars_slice_from, Ht.
Qed.

Lemma normalize_gs_canonical r :
  Py.strip ("gs://" +:+ r) = "gs://" +:+ r →
  Py.contains "//" r = false → Py.endswith "/" r = false →
  _normalize_gs_uri ("gs://" +:+ r) = "gs://" +:+ r.
Proof.
  intros Hstrip Hno Hend. unfold _normalize_gs_uri. rewrite Hstrip.
  change (Py.startswith "gs://" ("gs://" +:+ r)) with (Py.startswith "" r).
  assert (Py.startswith "" r = true) as -> by (by destruct r).
  cbn [negb]. change (Py.slice_from 5 ("gs://" +:+ r)) with r.
  rewrite collapse_slashes_fixed by done.
  by destruct (rstrip_slash_spec r) as (_ & _ & _ & ->).
Qed.

(** X11.  [_normalize_gs_uri] returns the stripped text unchanged when it
    does not begin with [gs://].  Otherwise the result is [gs://] followed
    by a rest that contains no double slash, does not end with a slash and
    is no longer than the rest it came from; a stripped text that is already
    of this form is returned as it is.  Normalising twice is normalising
    once whenever the first result has no white space at its ends; without
    that it can differ, since a trailing blank hidden before a slash
    survives the first pass. *)
Theorem X11_normalize_gs_uri_canonical (u : string) :
  let v := Py.strip u in
  (Py.startswith "gs://" v = false → _normalize_gs_uri u = v)
  ∧ (Py.startswith "gs://" v = true →
     ∃ r, _normalize_gs_uri u = "gs://" +:+ r
          ∧ Py.contains "//" r = false ∧ Py.endswith "/" r = false
          ∧ (String.length r + 5 ≤ String.length v)%nat)
  ∧ (∀ r, v = "gs://" +:+ r → Py.contains "//" r = false →
          Py.endswith "/" r = false → _normalize_gs_uri u = v)
  ∧ (Py.strip (_normalize_gs_uri u) = _normalize_gs_uri u →
     _normalize_gs_uri (_normalize_gs_uri u) = _normalize_gs_uri u)
  ∧ _normalize_gs_uri "gs://a /" = "gs://a "
  ∧ _normalize_gs_uri (_normalize_gs_uri "gs://a /") = "gs://a".
Proof.
  intros v.
  assert (Py.startswith "gs://" v = true →
          ∃ r, _normalize_gs_uri u = "gs://" +:+ r
               ∧ Py.contains "//" r = false ∧ Py.endswith "/" r = false
               ∧ (String.length r + 5 ≤ String.length v)%nat) as Hshape.
  { intros Hgs. unfold _normalize_gs_uri. fold v. rewrite Hgs. cbn [negb].
    set (rest := Py.slice_from 5 v).
    set (col := collapse_slashes (String.length rest) rest).
    destruct (rstrip_slash_spec col) as (Hend & Hlen & Hsub & _).
    exists (Py.rstrip_slash col). split_and!; [done| |done|].
    - apply Hsub. by apply collapse_slashes_done.
    - pose proof (collapse_slashes_length (String.length rest) rest) as Hc.
      fold col in Hc. apply startswith_gs in Hgs. fold rest in Hgs.
      assert (String.length v = (5 + String.length rest)%nat) as ->.
      { rewrite Hgs at 1.
        by rewrite <- !chars_length, chars_app, length_app, !chars_length. }
      cbn [String.length]. lia. }
  split_and!.
  - intros Hgs. unfold _normalize_gs_uri. fold v. by rewrite Hgs.
  - done.
  - intros r Hv Hno Hend. unfold _normalize_gs_uri. fold v. rewrite Hv.
    change (Py.startswith "gs://" ("gs://" +:+ r)) with (Py.startswith "" r).
    assert (Py.startswith "" r = true) as -> by (by destruct r).
    cbn [negb]. change (Py.slice_from 5 ("gs://" +:+ r)) with r.
    rewrite collapse_slashes_fixed by done.
    by destruct (rstrip_slash_spec r) as (_ & _ & _ & ->).
  - intros Hstrip. destruct (Py.startswith "gs://" v) eqn:Hgs.
    + destruct (Hshape eq_refl) as (r & Hr & Hno & Hend & _).
      rewrite Hr in *. by apply normalize_gs_canonical.
    + assert (_normalize_gs_uri u = v) as Hv
        by (unfold _normalize_gs_uri; fold v; by rewrite Hgs).
      rewrite Hv in *. unfold _normalize_gs_uri. by rewrite Hstrip, Hgs.
  - reflexivity.
  - reflexivity.
Qed.

End NormalizeUri.

(** *** The folder of an asset located by URI *)

Section FolderOfUri.

#[local] Abbreviation chars := String.list_ascii_of_string.

Lemma rfind_slash_go_spec s pos last :
  (("/"%char ∉ chars s) ∧ Py.rfind_slash_go s pos last = last)
  ∨ (∃ pre post, chars s = pre ++ "/"%char :: post ∧ ("/"%char ∉ post)
                 ∧ Py.rfind_slash_go s pos last = pos + Z.of_nat (length pre)).
Proof.
  revert pos last. induction s as [|c s IH]; intros pos last.
  - left. split; [apply not_elem_of_nil|done].
  - cbn [Py.rfind_slash_go].
    destruct (IH (pos + 1) (if bool_decide (c = "/"%char) then pos else last))
      as [[Hno Hr]|(pre & post & Hs & Hpost & Hr)].
    + case_bool_decide as Hc.
      * right. exists [], (chars s). subst c. split_and!; [done|done|].
        rewrite Hr. cbn [length]. lia.
      * left. split; [|done]. intros [?|?]%elem_of_cons; done.
    + right. exists (c :: pre), post. split_and!; [|done|].
      * change (c :: chars s = c :: pre ++ "/"%char :: post). by rewrite Hs.
      * rewrite Hr. cbn [length]. lia.
Qed.

Lemma chars_substring_0 k s : chars (String.substring 0 k s) = take k (chars s).
Proof.
  revert s. induction k as [|k IH]; intros s.
  - by destruct s.
  - destruct s as [|c s]; [done|].
    change (c :: chars (String.substring 0 k s) = c :: take k (chars s)).
    by rewrite IH.
Qed.

Lemma not_contains_slash s : Py.contains "/" s = false ↔ ("/"%char ∉ chars s).
Proof.
  split.
  - intros Hno Hin. apply list_elem_of_split in Hin as (a & b & Hab).
    assert (Py.contains "/" s = true) as Hyes; [|congruence].
    apply chars_contains. by exists a, b.
  - intros Hno. destruct (Py.contains "/" s) eqn:Hc; [|done].
    apply chars_contains in Hc as (a & b & Hab). destruct Hno. rewrite Hab.
    apply elem_of_app. right. by left.
Qed.

Lemma strip_keeps_gs u :
  Py.startswith "gs://" u = true → Py.startswith "gs://" (Py.strip u) = true.
Proof.
  intros Hgs. pose proof Hgs as (t & Ht)%chars_prefix.
  unfold Py.strip. rewrite (lstrip_by_fixed Py.isspace u).
  - destruct (rstrip_by_spec Py.isspace u) as (suf & Hs & Hsuf & _).
    apply chars_prefix. rewrite Ht in Hs.
    apply app_eq_inv in Hs as [(k & Hk & ->)|(k & Hk & ->)]; [|by exists k].
    destruct k as [|c k].
    + exists []. rewrite app_nil_r in Hk. by rewrite <- Hk, app_nil_r.
    + apply Forall_app in Hsuf as [Hc%Forall_inv _]. cbn beta in Hc.
      assert (c ∈ chars "gs://") as Hin.
      { rewrite Hk. apply elem_of_app. right. by left. }
      cbn in Hin. repeat (apply elem_of_cons in Hin as [->|Hin]; [done|]).
      by apply elem_of_nil in Hin.
  - intros c t' Hu. rewrite Ht in Hu. by injection Hu as <- _.
Qed.

Lemma normalize_gs_shape u :
  Py.startswith "gs://" u = true →
  ∃ r, _normalize_gs_uri u = "gs://" +:+ r
       ∧ Py.contains "//" r = false ∧ Py.endswith "/" r = false.
Proof.
  intros Hgs%strip_keeps_gs. unfold _normalize_gs_uri. rewrite Hgs. cbn [negb].
  set (rest := Py.slice_from 5 (Py.strip u)).
  set (col := collapse_slashes (String.length rest) rest).
  destruct (rstrip_slash_spec col) as (Hend & _ & Hsub & _).
  exists (Py.rstrip_slash col). split_and!; [done| |done].
  apply Hsub. by apply collapse_slashes_done.
Qed.

Lemma endswith_slash_last s t c :
  chars s = t ++ [c] → Py.endswith "/" s = bool_decide (c = "/"%char).
Proof.
  intros Hs. case_bool_decide as Hc.
  - subst c. apply chars_endswith. by exists t.
  - destruct (Py.endswith "/" s) eqn:He; [|done].
    apply chars_endswith in He as (t' & Ht'). rewrite Hs in Ht'.
    by apply app_inj_tail in Ht' as [_ ->].
Qed.

(** The folder of ["gs://" ++ r] for a rest [r] in canonical form. *)
Lemma folder_of_canonical r :
  Py.contains "//" r = false → Py.endswith "/" r = false →
  let n := "gs://" +:+ r in
  let idx := Py.rfind_slash n in
  ((idx >? 5) = true →
   ∃ dir leaf, Py.slice_to idx n = "gs://" +:+ dir ∧ dir ≠ ""
               ∧ n = ("gs://" +:+ dir) +:+ "/" +:+ leaf
               ∧ leaf ≠ "" ∧ Py.contains "/" leaf = false
               ∧ Py.endswith "/" ("gs://" +:+ dir) = false)
  ∧ ((idx >? 5) = false ↔ Py.contains "/" (Py.slice_from 1 r) = false).
Proof.
  intros Hno Hend n idx.
  assert (idx = Py.rfind_slash_go r 5 4) as Hidx by reflexivity.
  destruct (rfind_slash_go_spec r 5 4) as [[Hnone Hr]|(pre & post & Hs & Hpost & Hr)].
  - rewrite Hidx, Hr. split; [done|]. split; [intros _|done].
    apply not_contains_slash. rewrite chars_slice_from.
    destruct (chars r) as [|c l]; cbn [drop]; [apply not_elem_of_nil|].
    intros Hin. apply Hnone. by right.
  - destruct pre as [|c pre].
    + rewrite Hidx, Hr. split; [done|]. split; [intros _|done].
      apply not_contains_slash. rewrite chars_slice_from, Hs. done.
    + assert ((idx >? 5) = true) as Hgt.
      { rewrite Hidx, Hr. cbn [length]. apply Z.gtb_lt. lia. }
      rewrite Hgt. split; [intros _|].
      * assert (Z.to_nat idx = (5 + S (length pre))%nat) as Hnat
          by (rewrite Hidx, Hr; cbn [length]; lia).
        assert (post ≠ []) as Hpost_ne.
        { intros ->. rewrite (endswith_slash_last r (c :: pre) "/"%char Hs) in Hend.
          by rewrite bool_decide_true in Hend. }
        assert (∀ t, c :: pre ≠ t ++ ["/"%char]) as Hdir_end.
        { intros t Ht. assert (Py.contains "//" r = true) as Hyes; [|congruence].
          apply chars_contains. exists t, post. rewrite Hs, Ht.
          by rewrite <- !app_assoc. }
        exists (String.substring 0 (S (length pre)) r), (String.string_of_list_ascii post).
        assert (chars (String.substring 0 (S (length pre)) r) = c :: pre) as Hdir.
        { rewrite chars_substring_0, Hs.
          by rewrite (take_app_length' (c :: pre)). }
        split_and!.
        -- unfold Py.slice_to. rewrite Hnat. reflexivity.
        -- intros Hempty. by rewrite Hempty in Hdir.
        -- apply chars_inj. unfold n.
           rewrite !chars_app, Hdir, String.list_ascii_of_string_of_list_ascii, Hs.
           by rewrite <- !app_assoc.
        -- intros Hempty. apply Hpost_ne.
           by rewrite <- (String.list_ascii_of_string_of_list_ascii post), Hempty.
        -- apply not_contains_slash.
           by rewrite String.list_ascii_of_string_of_list_ascii.
        -- destruct (exists_last (l:=c :: pre)) as (t0 & x & Hlast); [done|].
           rewrite (endswith_slash_last _ (chars "gs://" ++ t0) x).
           ++ apply bool_decide_false. intros ->. by destruct (Hdir_end t0).
           ++ by rewrite chars_app, Hdir, Hlast, <- app_assoc.
      * split; [done|]. intros Hc.
        assert (Py.contains "/" (Py.slice_from 1 r) = true) as Hyes; [|congruence].
        apply chars_contains. exists pre, post. by rewrite chars_slice_from, Hs.
Qed.

(** X12.  For an asset located by a [gs://] URI, [_gcs_folder] cuts the
    normalised URI at its last slash: the normalised URI is the folder, a
    slash and a non-empty object name without slash; the folder is [gs://]
    followed by a non-empty path and does not end with a slash, so that
    stripping slashes from it changes nothing.  There is no folder exactly
    when the normalised URI has no slash after the first character that
    follows [gs://] (a bare bucket).  The glob fields play no part. *)
Theorem X12_gcs_folder_of_uri (a : Asset.t) :
  str_truthy (Asset.uri a) = true →
  Py.startswith "gs://" (default "" (Asset.uri a)) = true →
  let n := _normalize_gs_uri (default "" (Asset.uri a)) in
  (∀ f, _gcs_folder a = Some f →
     ∃ dir leaf, f = "gs://" +:+ dir ∧ dir ≠ "" ∧ n = f +:+ "/" +:+ leaf
                 ∧ leaf ≠ "" ∧ Py.contains "/" leaf = false
                 ∧ Py.endswith "/" f = false ∧ Py.rstrip_slash f = f)
  ∧ (_gcs_folder a = None ↔ Py.contains "/" (Py.slice_from 6 n) = false)
  ∧ (∀ lp lg gg,
       _gcs_folder (Asset.set_locations (Asset.uri a) lp lg gg a) = _gcs_folder a).
Proof.
  intros Huri Hgs n.
  destruct (normalize_gs_shape _ Hgs) as (r & Hn & Hno & Hend). fold n in Hn.
  destruct (folder_of_canonical r Hno Hend) as [Hsome Hnone]. cbv zeta in Hsome, Hnone.
  assert (_gcs_folder a
          = if Py.rfind_slash n >? 5 then Some (Py.slice_to (Py.rfind_slash n) n)
            else None) as Hfolder.
  { unfold _gcs_folder. by rewrite Huri, Hgs. }
  rewrite Hfolder, Hn. split_and!.
  - intros f Hf. destruct (Py.rfind_slash ("gs://" +:+ r) >? 5) eqn:Hidx; [|done].
    injection Hf as <-.
    destruct (Hsome eq_refl) as (dir & leaf & Hcut & Hdir & Hsplit & Hleaf & Hl & He).
    exists dir, leaf. rewrite Hcut. split_and!; try done.
    by destruct (rstrip_slash_spec ("gs://" +:+ dir)) as (_ & _ & _ & ->).
  - change (Py.slice_from 6 ("gs://" +:+ r)) with (Py.slice_from 1 r).
    rewrite <- Hnone. by destruct (Py.rfind_slash ("gs://" +:+ r) >? 5).
  - intros lp lg gg. rewrite <- Hn, <- Hfolder. unfold _gcs_folder.
    destruct a. cbn [Asset.set_locations Asset.uri Asset.gcs_glob] in *.
    by rewrite Huri, Hgs.
Qed.

End FolderOfUri.

Lemma X12_gcs_folder_of_uri_witness :
  let a := Demo.uri_asset "a" "gs://bucket//run/out.tif/ " in
  let n := _normalize_gs_uri (default "" (Asset.uri a)) in
  str_truthy (Asset.uri a) = true
  ∧ Py.startswith "gs://" (default "" (Asset.uri a)) = true
  ∧ _gcs_folder a = Some "gs://bucket/run"
  ∧ (∀ f, _gcs_folder a = Some f →
       ∃ dir leaf, f = "gs://" +:+ dir ∧ dir ≠ "" ∧ n = f +:+ "/" +:+ leaf
                   ∧ leaf ≠ "" ∧ Py.contains "/" leaf = false
                   ∧ Py.endswith "/" f = false ∧ Py.rstrip_slash f = f)
  ∧ (_gcs_folder a = None ↔ Py.contains "/" (Py.slice_from 6 n) = false)
  ∧ (∀ lp lg gg,
       _gcs_folder (Asset.set_locations (Asset.uri a) lp lg gg a) = _gcs_folder a).
Proof.
  intros a n. split; [reflexivity|]. split; [reflexivity|]. split; [reflexivity|].
  apply (X12_gcs_folder_of_uri a); reflexivity.
Defined.

(** *** Slugs *)

Example safe_slug_ex :
  _safe_slug "My Job: v1.2/" = "My_Job_v1.2" ∧ _safe_slug "--.." = "run"
  ∧ _safe_slug "a  b" = "a_b" ∧ _safe_slug "" = "run".
Proof. done. Qed.

Section Slug.

#[local] Abbreviation chars := String.list_ascii_of_string.

Lemma sub_runs_chars b s : Forall (λ c, slug_char c = true) (chars (sub_runs b s)).
Proof.
  revert b. induction s as [|c s IH]; intros b; [constructor|].
  cbn [sub_runs]. destruct (slug_char c) eqn:Hc.
  - constructor; [done|apply IH].
  - destruct b; [apply IH|]. constructor; [done|apply IH].
Qed.

Lemma sub_runs_clean s :
  Forall (λ c, slug_char c = true) (chars s) → sub_runs false s = s.
Proof.
  induction s as [|c s IH]; [done|]. intros [Hc Hs]%Forall_cons.
  cbn [sub_runs]. by rewrite Hc, IH.
Qed.

(** Stripping both ends with the same set of characters. *)
Lemma strip_by_spec (p : ascii → bool) (Q : ascii → Prop) s :
  let r := Py.rstrip_by p (Py.lstrip_by p s) in
  (Forall Q (chars s) → Forall Q (chars r))
  ∧ (∀ c t, chars r = c :: t → p c = false)
  ∧ (∀ c t, chars r = t ++ [c] → p c = false)
  ∧ (String.length r ≤ String.length s)%nat.
Proof.
  intros r. subst r.
  destruct (lstrip_by_spec p s) as (pre & Hs & _ & Hfirst).
  destruct (rstrip_by_spec p (Py.lstrip_by p s)) as (suf & Hl & _ & Hlast).
  set (l := Py.lstrip_by p s) in *. set (r := Py.rstrip_by p l) in *.
  split_and!.
  - rewrite Hs, Hl. intros [_ [? _]%Forall_app]%Forall_app. done.
  - intros c t Hr. apply (Hfirst c (t ++ suf)). by rewrite Hl, Hr.
  - done.
  - rewrite <- !chars_length, Hs, Hl, !length_app. lia.
Qed.

Lemma safe_slug_clean v :
  v ≠ "" → Forall (λ c, slug_char c = true) (chars v) →
  (∀ c t, chars v = c :: t → slug_edge c = false) →
  (∀ c t, chars v = t ++ [c] → slug_edge c = false) →
  _safe_slug v = v.
Proof.
  intros Hne Hall Hfirst Hlast. unfold _safe_slug.
  rewrite sub_runs_clean, lstrip_by_fixed, rstrip_by_fixed by done.
  by rewrite bool_decide_false.
Qed.

(** X13.  A slug is never empty, consists of letters, digits, [_], [.] and
    [-] only, and begins and ends with a letter or a digit; a text that
    already has this form is its own slug, so slugging twice is slugging
    once; and a slug is no longer than the text, except that it has the
    three characters of [run] when nothing of the text is left. *)
Theorem X13_safe_slug (v : string) :
  let s := _safe_slug v in
  s ≠ ""
  ∧ Forall (λ c, slug_char c = true) (chars s)
  ∧ (∀ c t, chars s = c :: t → slug_edge c = false)
  ∧ (∀ c t, chars s = t ++ [c] → slug_edge c = false)
  ∧ _safe_slug s = s
  ∧ (v ≠ "" → Forall (λ c, slug_char c = true) (chars v) →
     (∀ c t, chars v = c :: t → slug_edge c = false) →
     (∀ c t, chars v = t ++ [c] → slug_edge c = false) → s = v)
  ∧ (String.length s ≤ String.length v `max` 3)%nat.
Proof.
  intros s.
  assert (s ≠ "" ∧ Forall (λ c, slug_char c = true) (chars s)
          ∧ (∀ c t, chars s = c :: t → slug_edge c = false)
          ∧ (∀ c t, chars s = t ++ [c] → slug_edge c = false)
          ∧ (String.length s ≤ String.length v `max` 3)%nat)
    as (Hne & Hall & Hfirst & Hlast & Hlen).
  { subst s. unfold _safe_slug.
    destruct (strip_by_spec slug_edge (λ c, slug_char c = true) (sub_runs false v))
      as (Hq & Hf & Hl & Hlen).
    cbv zeta in Hq, Hf, Hl, Hlen.
    set (r := Py.rstrip_by slug_edge _) in *.
    case_bool_decide as Hr.
    - split_and!; [done|by repeat constructor| | |cbn; lia].
      + by intros c t [= <- _].
      + intros c t Ht. destruct t as [|? [|? [|? t]]]; try done.
        * injection Ht as _ _ <-. done.
        * injection Ht as _ _ Ht. by destruct t.
    - split_and!; [done|apply Hq, sub_runs_chars|done|done|].
      assert (String.length (sub_runs false v) ≤ String.length v)%nat; [|lia].
      clear. generalize false. induction v as [|c v IH]; intros b; [done|].
      pose proof (IH false). pose proof (IH true).
      cbn [sub_runs]. destruct (slug_char c); [|destruct b]; cbn [String.length]; lia. }
  split_and!; try done.
  - by apply safe_slug_clean.
  - intros; by apply safe_slug_clean.
Qed.

End Slug.

(** *** Template variables *)

Example parse_vars_ex :
  _parse_vars [" A =b=c"; "B="; "A= x "] = Val {[ "A" := " x "; "B" := "" ]}
  ∧ _parse_vars ["A=1"; "novalue"; " =2"] = Raise "Invalid --var value; expected KEY=VALUE"
  ∧ _parse_vars ["A=1"; " =2"; "novalue"] = Raise "Invalid --var value; empty key".
Proof. split_and!; by vm_compute. Qed.

Section ParseVars.

#[local] Abbreviation chars := String.list_ascii_of_string.

Lemma split_eq_go_spec cur s :
  match split_eq_go cur s with
  | Some (k, v) =>
      ∃ k0, k = String.rev cur +:+ k0 ∧ s = k0 +:+ "=" +:+ v
            ∧ Py.contains "=" k0 = false
  | None => Py.contains "=" s = false
  end.
Proof.
  revert cur. induction s as [|c s IH]; intros cur; [done|].
  cbn [split_eq_go]. case_bool_decide as Hc.
  - subst c. exists "". split_and!; try done.
    apply chars_inj. by rewrite chars_app, app_nil_r.
  - specialize (IH (String c cur)).
    assert (Py.contains "=" (String c s) = Py.contains "=" s) as Hcont.
    { cbn [Py.contains String.prefix]. destruct (ascii_dec "=" c); [by subst|done]. }
    destruct (split_eq_go (String c cur) s) as [[k v]|].
    + destruct IH as (k0 & -> & -> & Hno). exists (String c k0). split_and!.
      * apply chars_inj. rewrite !chars_app, !chars_rev.
        change (chars (String c cur)) with (c :: chars cur).
        change (chars (String c k0)) with (c :: chars k0).
        by rewrite reverse_cons, <- app_assoc.
      * done.
      * assert (Py.contains "=" (String c k0) = Py.contains "=" k0) as ->; [|done].
        cbn [Py.contains String.prefix]. destruct (ascii_dec "=" c); [by subst|done].
    + by rewrite Hcont.
Qed.

Lemma var_pair_Val p k v :
  var_pair p = Val (k, v)
  ↔ ∃ k0, p = k0 +:+ "=" +:+ v ∧ Py.contains "=" k0 = false
          ∧ k = Py.strip k0 ∧ k ≠ "".
Proof.
  unfold var_pair, split_eq. pose proof (split_eq_go_spec "" p) as Hsp.
  destruct (split_eq_go "" p) as [[k1 v1]|].
  - destruct Hsp as (k0 & -> & -> & Hno).
    change (String.rev "" +:+ k0) with k0. split.
    + case_bool_decide as Hk; [done|]. intros [= <- <-]. by exists k0.
    + intros (k2 & Heq & Hno2 & -> & Hne).
      assert (k2 = k0 ∧ v = v1) as [-> ->].
      { apply (f_equal chars) in Heq. rewrite !chars_app in Heq.
        apply not_elem_of_app_cons_inv_l in Heq as (Hk & _ & Hv).
        - split; by apply chars_inj.
        - intros Hin. apply list_elem_of_split in Hin as (a & b & Hab).
          assert (Py.contains "=" k2 = true) as Hyes; [|congruence].
          apply chars_contains. by exists a, b.
        - intros Hin. apply list_elem_of_split in Hin as (a & b & Hab).
          assert (Py.contains "=" k0 = true) as Hyes; [|congruence].
          apply chars_contains. by exists a, b. }
      by rewrite bool_decide_false.
  - split; [done|]. intros (k2 & -> & _).
    assert (Py.contains "=" (k2 +:+ "=" +:+ v) = true) as Hyes; [|congruence].
    apply chars_contains. exists (chars k2), (chars v). by rewrite !chars_app.
Qed.

Lemma parse_vars_fold (pairs : list string) (m0 : gmap string string) :
  let step := λ (acc : exc (gmap string string)) pair,
                out ← acc; kv ← var_pair pair; mret (<[kv.1 := kv.2]> out) in
  (∀ msg, foldl step (Raise msg) pairs = Raise msg)
  ∧ (∀ kvs, Forall2 (λ p kv, var_pair p = Val kv) pairs kvs →
       foldl step (Val m0) pairs = Val (foldl (λ m kv, <[kv.1 := kv.2]> m) m0 kvs))
  ∧ (∀ i p msg,
       pairs !! i = Some p → var_pair p = Raise msg →
       (∀ j q, (j < i)%nat → pairs !! j = Some q → ∃ kv, var_pair q = Val kv) →
       foldl step (Val m0) pairs = Raise msg).
Proof.
  intros step.
  assert (∀ l msg, foldl step (Raise msg) l = Raise msg) as Hraise.
  { induction l as [|p l IH]; intros msg; [done|]. cbn [foldl]. apply IH. }
  split; [apply Hraise|]. revert m0. induction pairs as [|p pairs IH]; intros m0.
  - split.
    + intros kvs ->%Forall2_nil_inv_l. done.
    + intros i p msg Hi. done.
  - split.
    + intros kvs (kv & kvs' & Hkv & Hrest & ->)%Forall2_cons_inv_l.
      cbn [foldl]. unfold step at 2. cbn [mbind exc_bind]. rewrite Hkv.
      cbn [mbind exc_bind mret exc_ret]. by apply IH.
    + intros [|i] q msg Hi Hq Hbefore.
      * injection Hi as ->. cbn [foldl]. unfold step at 2. cbn [mbind exc_bind].
        rewrite Hq. apply Hraise.
      * destruct (Hbefore 0%nat p) as (kv & Hkv); [lia|done|].
        cbn [foldl]. unfold step at 2. cbn [mbind exc_bind]. rewrite Hkv.
        cbn [mbind exc_bind mret exc_ret]. apply (IH _) with i q; [done|done|].
        intros j q' Hj Hq'. apply (Hbefore (S j) q'); [lia|done].
Qed.

Lemma foldl_insert_last (kvs : list (string * string)) (m0 : gmap string string) key :
  foldl (λ m kv, <[kv.1 := kv.2]> m) m0 kvs !! key
  = match last (filter (λ kv, kv.1 = key) kvs) with
    | Some kv => Some kv.2
    | None => m0 !! key
    end.
Proof.
  induction kvs as [|kv kvs IH] using rev_ind; [done|].
  rewrite foldl_app, filter_app. cbn [foldl]. rewrite filter_cons, filter_nil.
  destruct (decide (kv.1 = key)) as [<-|Hne].
  - by rewrite last_snoc, lookup_insert_eq.
  - by rewrite app_nil_r, lookup_insert_ne.
Qed.

(** X14.  [_parse_vars] succeeds exactly when every pair has an equals sign
    with a key before the first one that is not blank; it fails at the first
    pair that has not, with the message of that pair.  A pair is cut at its
    first equals sign: the key is what stands before it, stripped, and the
    value is everything after it, kept as it is, further equals signs and
    blanks included.  In the dictionary returned a key has the value of the
    last pair that gave it. *)
Theorem X14_parse_vars (pairs : list string) :
  (∀ kvs, Forall2 (λ p kv, var_pair p = Val kv) pairs kvs →
     ∃ m, _parse_vars pairs = Val m
          ∧ ∀ key, m !! key = snd <$> last (filter (λ kv, kv.1 = key) kvs))
  ∧ (∀ i p msg,
       pairs !! i = Some p → var_pair p = Raise msg →
       (∀ j q, (j < i)%nat → pairs !! j = Some q → ∃ kv, var_pair q = Val kv) →
       _parse_vars pairs = Raise msg)
  ∧ (∀ p k v,
       var_pair p = Val (k, v)
       ↔ ∃ k0, p = k0 +:+ "=" +:+ v ∧ Py.contains "=" k0 = false
               ∧ k = Py.strip k0 ∧ k ≠ "")
  ∧ (∀ p, (∃ msg, var_pair p = Raise msg) ∨ (∃ kv, var_pair p = Val kv)).
Proof.
  destruct (parse_vars_fold pairs ∅) as (_ & Hval & Hraise).
  split_and!.
  - intros kvs Hkvs. eexists. split; [by apply Hval|].
    intros key. rewrite foldl_insert_last.
    by destruct (last _).
  - apply Hraise.
  - apply var_pair_Val.
  - intros p. destruct (var_pair p); eauto.
Qed.

End ParseVars.

(** *** The counts of the verification report *)











Section ReportCounts.
Variables (W : World) (c : Contract) (args : FinalizeArgs).


End ReportCounts.


(** *** The objects an asset matched *)

Section Matched.
Variable W : World.

Lemma gsutil_ls_sorted pattern ms reason :
  _gsutil_ls W pattern = (Some ms, reason) →
  StronglySorted String.le ms ∧ NoDup ms ∧ reason = "gcs_glob".
Proof.
  unfold _gsutil_ls. destruct (command_exists W "gsutil"); cbn [negb]; [|done].
  destruct (returncode _ =? 0); cbn [negb].
  - intros [= <- <-]. split_and!; [apply sorted_set_sorted|apply sorted_set_NoDup|done].
  - destruct (Py.contains _ _); [|done]. intros [= <- <-].
    split_and!; [constructor|constructor|done].
Qed.

Lemma asset_exists_matched a :
  let r := _asset_exists W a in
  (r.1.1 = Some true ↔ r.2 ≠ [])
  ∧ StronglySorted String.le r.2 ∧ NoDup r.2
  ∧ (str_truthy (Asset.local_path a) = true
     ∨ (str_truthy (Asset.uri a) && Py.startswith "gs://" (default "" (Asset.uri a))) = true
     → (length r.2 ≤ 1)%nat).
Proof.
  unfold _asset_exists. destruct (str_truthy (Asset.local_path a)); cbn zeta.
  { destruct (path_exists W _); cbn [fst snd];
      split_and!; try done; try (by repeat constructor);
      try (apply NoDup_singleton); cbn; lia. }
  destruct (str_truthy (Asset.uri a) && _); cbn zeta.
  { unfold _gsutil_exists. destruct (command_exists W "gsutil"); cbn [negb].
    - destruct (returncode _ =? 0); cbn [fst snd bool_decide decide_rel];
        split_and!; try done; try (by repeat constructor);
        try (apply NoDup_singleton); try (rewrite ?bool_decide_true by done; cbn; lia);
        try (case_bool_decide; done).
    - cbn [fst snd]. rewrite bool_decide_false by done.
      split_and!; try done; by constructor. }
  destruct (str_truthy (Asset.local_glob a)); cbn zeta.
  { cbn [fst snd]. split_and!.
    - rewrite <- nonempty_true. by destruct (nonempty _).
    - apply sorted_set_sorted.
    - apply sorted_set_NoDup.
    - by intros [?|?]. }
  destruct (str_truthy (Asset.gcs_glob a)).
  { destruct (_gsutil_ls W _) as [[ms|] reason] eqn:Hls; cbn [fst snd].
    - destruct (gsutil_ls_sorted _ _ _ Hls) as (Hs & Hn & _). split_and!; try done.
      + rewrite <- nonempty_true. by destruct (nonempty _).
      + by intros [?|?].
    - split_and!; try done; try (by intros [?|?]); try constructor. }
  cbn [fst snd]. split_and!; try done; try (by intros [?|?]); try constructor.
Qed.

Lemma pass_matched_outputs audit a :
  let r := _asset_exists W a in
  let kept := if nonempty r.2 then Some (take 200 r.2) else Asset.matched_outputs a in
  Asset.matched_outputs (finalize_asset W audit a) = kept
  ∧ Asset.matched_outputs (preflight_asset W a) = kept
  ∧ Asset.exists_ (finalize_asset W audit a) = r.1.1.
Proof.
  unfold finalize_asset, preflight_asset.
  destruct (_asset_exists W a) as [[ex reason] matched]. cbn [fst snd].
  destruct (audit_asset W audit _ ex) as [corrupt corrupt_reason].
  unfold store_matched. by destruct matched, ex as [[]|], a.
Qed.

(** X16.  What an existence check matches, and what finalize and preflight
    keep of it.  The check reports that the asset exists exactly when it
    matched something; the matches are sorted and without repetition, and at
    most one for an asset located by path or URI.  An asset found to exist
    gets the first 200 matches as [matched_outputs], a non-empty list.  An
    asset not found to exist keeps the [matched_outputs] it had: the list of
    an earlier pass is never cleared. *)
Theorem X16_matched_outputs (audit : bool) (a : Asset.t) :
  let r := _asset_exists W a in
  let b := finalize_asset W audit a in
  (r.1.1 = Some true ↔ r.2 ≠ [])
  ∧ StronglySorted String.le r.2 ∧ NoDup r.2
  ∧ (str_truthy (Asset.local_path a) = true
     ∨ (str_truthy (Asset.uri a) && Py.startswith "gs://" (default "" (Asset.uri a))) = true
     → (length r.2 ≤ 1)%nat)
  ∧ (Asset.exists_ b = Some true →
     ∃ l, Asset.matched_outputs b = Some l ∧ l = take 200 r.2 ∧ l ≠ []
          ∧ (length l ≤ 200)%nat ∧ StronglySorted String.le l ∧ NoDup l
          ∧ (length r.2 ≤ 200 → l = r.2)%nat)
  ∧ (Asset.exists_ b ≠ Some true → Asset.matched_outputs b = Asset.matched_outputs a)
  ∧ Asset.matched_outputs (preflight_asset W a) = Asset.matched_outputs b.
Proof.
  intros r b. destruct (asset_exists_matched a) as (Hex & Hsorted & Hnd & Hone).
  destruct (pass_matched_outputs audit a) as (Hb & Hp & Heb).
  fold r b in Hex, Hsorted, Hnd, Hone, Hb, Hp, Heb. cbv zeta in Hb, Hp.
  split_and!; try done.
  - rewrite Heb. intros Htrue%Hex. exists (take 200 r.2).
    rewrite Hb. assert (nonempty r.2 = true) as -> by (by apply nonempty_true).
    split_and!; try done.
    + destruct r.2; [done|]. done.
    + rewrite length_take. lia.
    + rewrite <- (take_drop 200 r.2) in Hsorted. by apply StronglySorted_app_1_l in Hsorted.
    + eapply sublist_NoDup; [done|apply sublist_take].
    + intros Hlen. by apply take_ge.
  - rewrite Heb, Hb. intros Hno. destruct (nonempty r.2) eqn:Hne; [|done].
    apply nonempty_true, Hex in Hne. done.
  - by rewrite Hb, Hp.
Qed.

End Matched.

(** *** The contract of one folder *)


Section FolderContract.
Variables (full : Contract) (folder_uri : string) (folder_assets : list Asset.t).



End FolderContract.

(** *** The uploads of finalize *)

Section Uploads.
Variable W : World.

#[local] Abbreviation chars := String.list_ascii_of_string.

Lemma upload_outcome local_path gcs_dest :
  let r := _upload_contract_to_gcs W local_path gcs_dest in
  (r.1 = true ↔ r.2 = None)
  ∧ (r.1 = true →
     Py.startswith "gs://" gcs_dest = true ∧ command_exists W "gsutil" = true
     ∧ returncode (run W ["gsutil"; "cp"; local_path; gcs_dest]) = 0).
Proof.
  unfold _upload_contract_to_gcs.
  destruct (Py.startswith "gs://" gcs_dest); cbn [negb]; [|done].
  destruct (command_exists W "gsutil"); cbn [negb]; [|done].
  destruct (returncode _ =? 0) eqn:Hrc; cbn [negb fst snd]; [|done].
  split; [done|]. intros _. split_and!; try done. by apply Z.eqb_eq.
Qed.

Lemma rstrip_slash_idem s : Py.rstrip_slash (Py.rstrip_slash s) = Py.rstrip_slash s.
Proof.
  destruct (rstrip_slash_spec s) as (Hend & _).
  by destruct (rstrip_slash_spec (Py.rstrip_slash s)) as (_ & _ & _ & ->).
Qed.

Lemma gcs_folder_rstrip a f : _gcs_folder a = Some f → Py.rstrip_slash f = f.
Proof.
  unfold _gcs_folder.
  destruct (str_truthy (Asset.uri a) && Py.startswith "gs://" (default "" (Asset.uri a)))
    eqn:Huri.
  - apply andb_true_iff in Huri as [_ Hgs].
    destruct (normalize_gs_shape _ Hgs) as (r & -> & Hno & Hend).
    destruct (folder_of_canonical r Hno Hend) as [Hsome _]. cbv zeta in Hsome.
    change (Z.of_nat (String.length "gs://")) with 5.
    destruct (Py.rfind_slash ("gs://" +:+ r) >? 5); [|done].
    intros [= <-]. destruct (Hsome eq_refl) as (dir & leaf & -> & _ & _ & _ & _ & He).
    by destruct (rstrip_slash_spec ("gs://" +:+ dir)) as (_ & _ & _ & ->).
  - destruct (str_truthy (Asset.gcs_glob a) && _); [|done].
    destruct (2 <? _)%nat; [|done]. intros [= <-]. apply rstrip_slash_idem.
Qed.

Lemma group_values (m : gmap string (list Asset.t)) :
  (λ k, default [] (m !! k)) <$> (map_to_list m).*1 = (map_to_list m).*2.
Proof.
  rewrite <- list_fmap_compose. apply list_fmap_ext. intros i [k l] Hi.
  apply list_elem_of_lookup_2, elem_of_map_to_list in Hi. cbn. by rewrite Hi.
Qed.

Lemma length_concat {A} (ls : list (list A)) :
  length (concat ls) = sum_list (length <$> ls).
Proof.
  induction ls as [|l ls IH]; [done|]. cbn. by rewrite length_app, IH.
Qed.

Lemma sum_list_perm (l k : list nat) : l ≡ₚ k → sum_list l = sum_list k.
Proof. induction 1; cbn; lia. Qed.

Lemma upload_folder_fields tmp_dir f l :
  let u := upload_folder W tmp_dir f l in
  fu_folder_uri u = f ∧ fu_asset_count u = length l
  ∧ fu_gcs_dest u = Py.rstrip_slash f +:+ "/_run_contract.json"
  ∧ (fu_success u = true ↔ fu_error u = None)
  ∧ (fu_success u = true → command_exists W "gsutil" = true).
Proof.
  unfold upload_folder.
  pose proof (upload_outcome
                (tmp_dir +:+ "/" +:+ sha1_hex12 W f +:+ "/_run_contract.json")
                (Py.rstrip_slash f +:+ "/_run_contract.json")) as Hup.
  destruct (_upload_contract_to_gcs W _ _) as [ok err]. cbn in *.
  split_and!; try done; tauto.
Qed.

Lemma upload_root_fields contract_local loc n :
  let u := upload_root W contract_local loc n in
  fu_folder_uri u = loc ∧ fu_asset_count u = n
  ∧ fu_gcs_dest u = Py.rstrip_slash loc +:+ "/_run_contract.json"
  ∧ (fu_success u = true ↔ fu_error u = None)
  ∧ (fu_success u = true → command_exists W "gsutil" = true).
Proof.
  unfold upload_root.
  pose proof (upload_outcome contract_local
                (Py.rstrip_slash loc +:+ "/_run_contract.json")) as Hup.
  destruct (_upload_contract_to_gcs W _ _) as [ok err]. cbn in *.
  split_and!; try done; tauto.
Qed.

(** X18.  Where finalize uploads.  Nothing is uploaded unless the output
    location, stripped, begins with [gs://] and the scope is [folder] or
    [run].  With scope [run], or with scope [folder] when no asset has a
    folder, the whole contract goes once to the output root.  Otherwise
    there is one upload for each folder of the partition, in the order of
    the folder URIs and each folder once, to [_run_contract.json] directly
    in that folder; its asset count is the size of the folder's group, the
    counts add up to the number of assets that have a folder, and a failed
    upload does not keep the later ones from being tried.  An upload is a
    success exactly when it carries no error. *)
Theorem X18_folder_uploads (c : Contract)
    (contract_scope output_location_arg : option string)
    (contract_local tmp_dir : string) :
  let ups := folder_uploads W c contract_scope output_location_arg contract_local
               tmp_dir in
  let scope := Py.lower (Py.strip (str_or contract_scope "folder")) in
  let loc :=
    Py.strip (str_or (or_str output_location_arg (output_location (run_meta c))) "") in
  let groups := _group_assets_by_folder (assets c) in
  (Py.startswith "gs://" loc = false ∨ (scope ≠ "folder" ∧ scope ≠ "run") → ups = [])
  ∧ (Py.startswith "gs://" loc = true →
     scope = "run" ∨ (scope = "folder" ∧ groups = ∅) →
     ups = [upload_root W contract_local loc (length (assets c))])
  ∧ (Py.startswith "gs://" loc = true → scope = "folder" → groups ≠ ∅ →
     StronglySorted String.le (fu_folder_uri <$> ups)
     ∧ NoDup (fu_folder_uri <$> ups)
     ∧ (∀ f, f ∈ fu_folder_uri <$> ups ↔ is_Some (groups !! f))
     ∧ (∀ u, u ∈ ups →
          fu_gcs_dest u = fu_folder_uri u +:+ "/_run_contract.json"
          ∧ ∃ l, groups !! fu_folder_uri u = Some l ∧ l ≠ []
                 ∧ fu_asset_count u = length l)
     ∧ sum_list (fu_asset_count <$> ups)
       = length (filter (λ a, is_Some (_gcs_folder a)) (assets c))
     ∧ length ups = size groups)
  ∧ (∀ u, u ∈ ups →
       (fu_success u = true ↔ fu_error u = None)
       ∧ (fu_success u = true → command_exists W "gsutil" = true)
       ∧ fu_gcs_dest u = Py.rstrip_slash (fu_folder_uri u) +:+ "/_run_contract.json").
Proof.
  intros ups scope loc groups.
  set (keys := merge_sort String.le (map_to_list groups).*1).
  assert (keys ≡ₚ (map_to_list groups).*1) as Hperm by apply merge_sort_Permutation.
  set (g := λ f, upload_folder W tmp_dir f (default [] (groups !! f))).
  assert (Py.startswith "gs://" loc = true → scope = "folder" → groups ≠ ∅ →
          ups = g <$> keys) as Hfolders.
  { intros Hgs Hscope Hne. unfold ups, folder_uploads. fold scope loc groups.
    by rewrite Hgs, Hscope, (bool_decide_false (groups = ∅)). }
  assert (fu_folder_uri <$> (g <$> keys) = keys) as Huris.
  { rewrite <- list_fmap_compose. rewrite <- (list_fmap_id keys) at 2.
    apply list_fmap_ext. intros _ f _. unfold compose, g.
    by destruct (upload_folder_fields tmp_dir f (default [] (groups !! f))) as (-> & _). }
  assert (∀ f, f ∈ keys ↔ is_Some (groups !! f)) as Hkeys.
  { intros f. rewrite Hperm, list_elem_of_fmap. split.
    - intros ([k l] & -> & Hkl%elem_of_map_to_list). by exists l.
    - intros [l Hl]. exists (f, l). split; [done|]. by apply elem_of_map_to_list. }
  split_and!.
  - intros Hno. unfold ups, folder_uploads. fold scope loc.
    destruct Hno as [->|[H1 H2]].
    + rewrite !andb_false_r. reflexivity.
    + rewrite (bool_decide_false (scope = "folder")),
        (bool_decide_false (scope = "run")) by done.
      reflexivity.
  - intros Hgs Hcase. unfold ups, folder_uploads. fold scope loc groups. rewrite Hgs.
    destruct Hcase as [Hrun|[Hfolder Hempty]].
    + rewrite Hrun. reflexivity.
    + rewrite Hfolder, Hempty. reflexivity.
  - intros Hgs Hscope Hne. rewrite (Hfolders Hgs Hscope Hne), Huris. split_and!.
    + apply StronglySorted_merge_sort; apply _.
    + rewrite Hperm. apply NoDup_fst_map_to_list.
    + done.
    + intros u (f & -> & Hf)%list_elem_of_fmap. unfold g.
      destruct (upload_folder_fields tmp_dir f (default [] (groups !! f)))
        as (-> & -> & -> & _).
      apply Hkeys in Hf as [l Hl]. rewrite Hl. cbn [default].
      pose proof Hl as [Hlne Hfilter]%group_lookup.
      split; [|by exists l].
      destruct l as [|a l]; [done|].
      assert (a ∈ filter (λ a, _gcs_folder a = Some f) (assets c)) as Ha
        by (rewrite <- Hfilter; by left).
      apply list_elem_of_filter in Ha as [Ha _].
      by rewrite (gcs_folder_rstrip a f Ha).
    + rewrite <- list_fmap_compose.
      assert (fu_asset_count ∘ g <$> keys
              = (λ f, length (default [] (groups !! f))) <$> keys) as ->.
      { apply list_fmap_ext. intros _ f _. unfold compose, g.
        by destruct (upload_folder_fields tmp_dir f (default [] (groups !! f)))
          as (_ & -> & _). }
      rewrite (sum_list_perm _ ((λ f, length (default [] (groups !! f)))
                                  <$> (map_to_list groups).*1))
        by (by apply fmap_Permutation).
      assert ((λ f, length (default [] (groups !! f))) <$> (map_to_list groups).*1
              = length <$> (map_to_list groups).*2) as ->.
      { rewrite <- group_values. by rewrite <- (list_fmap_compose _ length). }
      rewrite <- length_concat.
      pose proof (group_fold_flat (assets c) ∅) as Hflat.
      rewrite map_to_list_empty in Hflat. cbn [fmap list_fmap concat app] in Hflat.
      fold (_group_assets_by_folder (assets c)) in Hflat. fold groups in Hflat.
      by rewrite Hflat.
    + by rewrite length_fmap, Hperm, length_fmap, length_map_to_list.
  - intros u Hu. unfold ups, folder_uploads in Hu. fold scope loc groups in Hu.
    assert (u = upload_root W contract_local loc (length (assets c))
            ∨ ∃ f, u = g f) as [->|[f ->]].
    { repeat (destruct (_ && _) in Hu || destruct (bool_decide _) in Hu);
        try (apply list_elem_of_singleton in Hu; by left);
        try (by apply elem_of_nil in Hu).
      apply list_elem_of_fmap in Hu as (f & -> & _). right. by exists f. }
    + destruct (upload_root_fields contract_local loc (length (assets c)))
        as (-> & _ & -> & ? & ?). done.
    + unfold g. destruct (upload_folder_fields tmp_dir f (default [] (groups !! f)))
        as (-> & _ & -> & ? & ?). done.
Qed.

End Uploads.

(** *** The folder of an asset located by a glob *)

Section FolderOfGlob.

#[local] Abbreviation chars := String.list_ascii_of_string.

Lemma has_wildcard_chars s :
  Py.has_wildcard s = true ↔ ∃ c, c ∈ chars s ∧ wild c = true.
Proof.
  induction s as [|c s IH].
  - split; [done|]. intros (c & Hc & _). by apply elem_of_nil in Hc.
  - cbn [Py.has_wildcard]. fold (wild c). rewrite orb_true_iff, IH. split.
    + intros [Hc|(d & Hd & Hw)]; [exists c|exists d]; (split; [|done]).
      * by left.
      * by right.
    + intros (d & [->|Hd]%elem_of_cons & Hw); [by left|]. right. by exists d.
Qed.

Lemma has_wildcard_app s t :
  Py.has_wildcard (s +:+ t) = Py.has_wildcard s || Py.has_wildcard t.
Proof.
  induction s as [|c s IH]; [done|].
  change (Py.has_wildcard (String c (s +:+ t))
          = Py.has_wildcard (String c s) || Py.has_wildcard t).
  cbn [Py.has_wildcard]. rewrite IH. by rewrite !orb_assoc.
Qed.

Lemma has_wildcard_prefix s r suf :
  chars s = chars r ++ suf → Py.has_wildcard s = false → Py.has_wildcard r = false.
Proof.
  intros Hs Hno. destruct (Py.has_wildcard r) eqn:Hr; [|done].
  apply has_wildcard_chars in Hr as (c & Hc & Hw).
  rewrite <- Hno. symmetry. apply has_wildcard_chars. exists c. split; [|done].
  rewrite Hs. apply elem_of_app. by left.
Qed.

Lemma join_split cur s :
  Py.join_slash (Py.split_slash_go cur s) = String.rev cur +:+ s.
Proof.
  revert cur. induction s as [|c s IH]; intros cur.
  - cbn. apply chars_inj. by rewrite chars_app, app_nil_r.
  - cbn [Py.split_slash_go]. case_bool_decide as Hc.
    + subst c. specialize (IH ""). change (String.rev "" +:+ s) with s in IH.
      cbn [Py.join_slash]. destruct (Py.split_slash_go "" s) eqn:Hsp.
      * by destruct s; [|cbn in Hsp; case_bool_decide].
      * by rewrite IH.
    + rewrite IH. apply chars_inj. rewrite !chars_app, !chars_rev.
      change (chars (String c cur)) with (c :: chars cur).
      change (chars (String c s)) with (c :: chars s).
      by rewrite reverse_cons, <- app_assoc.
Qed.

Lemma join_take_until parts :
  ∃ tail, Py.join_slash parts = Py.join_slash (take_until_wildcard parts) +:+ tail.
Proof.
  induction parts as [|p parts (tail & IH)]; [by exists ""|].
  cbn [take_until_wildcard]. destruct (Py.has_wildcard p).
  - by eexists.
  - cbn [Py.join_slash]. destruct parts as [|q parts].
    + exists "". cbn. apply chars_inj. by rewrite chars_app, app_nil_r.
    + cbn [take_until_wildcard] in *. destruct (Py.has_wildcard q).
      * exists (String "/" (Py.join_slash (q :: parts))). done.
      * exists tail. rewrite IH. apply chars_inj. rewrite !chars_app.
        change (chars (String "/" ?x)) with ("/"%char :: chars x).
        rewrite !chars_app. by rewrite <- !app_assoc.
Qed.

Lemma join_no_wildcard parts :
  Forall (λ p, Py.has_wildcard p = false) parts →
  Py.has_wildcard (Py.join_slash parts) = false.
Proof.
  induction 1 as [|p parts Hp Hparts IH]; [done|].
  cbn [Py.join_slash]. destruct parts as [|q parts]; [done|].
  rewrite has_wildcard_app, Hp. cbn [orb Py.has_wildcard]. by rewrite IH.
Qed.

Lemma take_until_no_wildcard parts :
  Forall (λ p, Py.has_wildcard p = false) (take_until_wildcard parts)
  ∧ (Forall (λ p, Py.has_wildcard p = false) parts → take_until_wildcard parts = parts).
Proof.
  induction parts as [|p parts [IH1 IH2]]; [by split|].
  cbn [take_until_wildcard]. destruct (Py.has_wildcard p) eqn:Hp; split.
  - constructor.
  - intros [Hp' _]%Forall_cons. congruence.
  - by constructor.
  - intros [_ Hrest]%Forall_cons. by rewrite IH2.
Qed.

Lemma split_nonempty cur s : ∃ p ps, Py.split_slash_go cur s = p :: ps.
Proof.
  revert cur. induction s as [|c s IH]; intros cur; cbn [Py.split_slash_go].
  - by eexists _, _.
  - case_bool_decide; [by eexists _, _|apply IH].
Qed.

Lemma join_wildcard_parts parts :
  Py.has_wildcard (Py.join_slash parts) = false →
  Forall (λ p, Py.has_wildcard p = false) parts.
Proof.
  induction parts as [|p parts IH]; [constructor|].
  cbn [Py.join_slash]. destruct parts as [|q parts].
  - intros Hp. by repeat constructor.
  - rewrite has_wildcard_app. intros [Hp Hrest]%orb_false_iff.
    constructor; [done|]. apply IH. exact Hrest.
Qed.

Lemma endswith_slash_app p r :
  r ≠ "" → Py.endswith "/" (p +:+ r) = Py.endswith "/" r.
Proof.
  intros Hr. destruct (exists_last (l:=chars r)) as (t & c & Hlast).
  { intros Hnil. by apply chars_nil in Hnil. }
  rewrite (endswith_slash_last r t c Hlast).
  apply (endswith_slash_last _ (chars p ++ t) c).
  by rewrite chars_app, Hlast, app_assoc.
Qed.

(** X19.  For an asset located by an object-storage glob (and not by a
    [gs://] URI), [_gcs_folder] joins the parts of the normalised glob that
    come before the first part with a pattern character.  The folder has no
    pattern character, does not end with a slash, and the normalised glob
    begins with it.  A glob without any pattern character is its own folder
    (not its parent, unlike a URI).  There is no folder exactly when the
    bucket part of the glob contains a pattern character. *)
Theorem X19_gcs_folder_of_glob (a : Asset.t) :
  (str_truthy (Asset.uri a) && Py.startswith "gs://" (default "" (Asset.uri a))) = false →
  str_truthy (Asset.gcs_glob a) = true →
  Py.startswith "gs://" (default "" (Asset.gcs_glob a)) = true →
  let n := _normalize_gs_uri (default "" (Asset.gcs_glob a)) in
  (∀ f, _gcs_folder a = Some f →
     Py.has_wildcard f = false ∧ Py.endswith "/" f = false
     ∧ ∃ rest, n = f +:+ rest)
  ∧ (Py.has_wildcard n = false → n ≠ "gs://" → _gcs_folder a = Some n)
  ∧ (_gcs_folder a = None
     ↔ Py.has_wildcard (hd "" (Py.split_slash (Py.slice_from 5 n))) = true).
Proof.
  intros Huri Hglob Hgs n.
  destruct (normalize_gs_shape _ Hgs) as (r & Hn & Hno & Hend). fold n in Hn.
  set (T := take_until_wildcard (Py.split_slash r)).
  assert (take_until_wildcard (Py.split_slash n) = "gs:" :: "" :: T) as Hparts
    by (rewrite Hn; reflexivity).
  assert (_gcs_folder a
          = if (2 <? length ("gs:" :: "" :: T))%nat
            then Some (Py.rstrip_slash (Py.join_slash ("gs:" :: "" :: T))) else None)
    as Hfolder.
  { unfold _gcs_folder. rewrite Huri, Hglob, Hgs. cbn [andb]. fold n.
    by rewrite Hparts. }
  rewrite Hfolder. split_and!.
  - intros f Hf. destruct (2 <? _)%nat; [|done]. injection Hf as <-.
    set (j := Py.join_slash ("gs:" :: "" :: T)).
    destruct (rstrip_by_spec (λ c, bool_decide (c = "/"%char)) j) as (suf & Hj & _).
    fold (Py.rstrip_slash j) in Hj.
    destruct (rstrip_slash_spec j) as (He & _).
    destruct (join_take_until (Py.split_slash n)) as (tail & Htail).
    rewrite Hparts in Htail. fold j in Htail.
    unfold Py.split_slash in Htail. rewrite join_split in Htail.
    change (String.rev "" +:+ n) with n in Htail.
    split_and!; [|done|].
    + apply (has_wildcard_prefix j _ suf Hj). unfold j. rewrite <- Hparts.
      apply join_no_wildcard, take_until_no_wildcard.
    + exists (String.string_of_list_ascii suf +:+ tail). apply chars_inj.
      rewrite Htail, !chars_app, Hj, String.list_ascii_of_string_of_list_ascii.
      by rewrite <- app_assoc.
  - intros Hnw Hne.
    assert (take_until_wildcard (Py.split_slash n) = Py.split_slash n) as Hall.
    { apply take_until_no_wildcard, join_wildcard_parts.
      unfold Py.split_slash. by rewrite join_split. }
    rewrite <- Hparts, Hall.
    assert (Py.join_slash (Py.split_slash n) = n) as ->
      by (unfold Py.split_slash; by rewrite join_split).
    assert ((2 <? length (Py.split_slash n))%nat = true) as ->.
    { rewrite Hn. change (Py.split_slash ("gs://" +:+ r))
        with ("gs:" :: "" :: Py.split_slash_go "" r).
      by destruct (split_nonempty "" r) as (p & ps & ->). }
    f_equal. apply rstrip_slash_spec. rewrite Hn.
    rewrite endswith_slash_app; [done|]. intros ->. by rewrite Hn in Hne.
  - rewrite Hn. change (Py.slice_from 5 ("gs://" +:+ r)) with r.
    unfold T, Py.split_slash.
    destruct (split_nonempty "" r) as (p & ps & ->).
    cbn [hd take_until_wildcard]. destruct (Py.has_wildcard p); cbn; split; done.
Qed.

End FolderOfGlob.

Lemma X19_gcs_folder_of_glob_witness :
  let a := Demo.glob_asset "a" "gs://bucket//run/*.tif" in
  let n := _normalize_gs_uri (default "" (Asset.gcs_glob a)) in
  (str_truthy (Asset.uri a) && Py.startswith "gs://" (default "" (Asset.uri a))) = false
  ∧ str_truthy (Asset.gcs_glob a) = true
  ∧ Py.startswith "gs://" (default "" (Asset.gcs_glob a)) = true
  ∧ _gcs_folder a = Some "gs://bucket/run"
  ∧ (∀ f, _gcs_folder a = Some f →
       Py.has_wildcard f = false ∧ Py.endswith "/" f = false
       ∧ ∃ rest, n = f +:+ rest)
  ∧ (Py.has_wildcard n = false → n ≠ "gs://" → _gcs_folder a = Some n)
  ∧ (_gcs_folder a = None
     ↔ Py.has_wildcard (hd "" (Py.split_slash (Py.slice_from 5 n))) = true).
Proof.
  intros a n. do 4 (split; [reflexivity|]).
  apply (X19_gcs_folder_of_glob a); reflexivity.
Defined.

Example gcs_folder_glob_edge :
  _gcs_folder (Demo.glob_asset "a" "gs:///*") = Some "gs:"
  ∧ _gcs_folder (Demo.glob_asset "a" "gs://bucket/run/x.tif") = Some "gs://bucket/run/x.tif"
  ∧ _gcs_folder (Demo.uri_asset "a" "gs://bucket/run/x.tif") = Some "gs://bucket/run"
  ∧ _gcs_folder (Demo.glob_asset "a" "gs://buck*/run/x.tif") = None.
Proof. done. Qed.

(** *** Finalizing a finalized document *)

Section RepairAgain.
Variable W : World.

(** The task map of the repair step stays the index of the task list. *)
Lemma repair_task_exact ts a :
  let st' := repair_task W (ts, _task_index ts) a in
  st'.2 = _task_index st'.1.
Proof.
  unfold repair_task. set (tid := Asset.task_id (repair_asset a)).
  assert (∃ ts1,
            (match _task_index ts !! tid with
             | Some _ => (ts, _task_index ts)
             | None => let '(ts', j) := _ensure_task W ts tid in
                       (ts', <[tid:=j]> (_task_index ts))
             end) = (ts1, _task_index ts1)) as (ts1 & ->).
  { destruct (_task_index ts !! tid) eqn:Htm; [by exists ts|].
    assert (list_find (λ t, Task.task_id t = tid) ts = None) as Hfind.
    { apply list_find_None, Forall_forall. intros t Ht Hid.
      destruct (index_from_is_Some Task.task_id ts 0 ∅ t Ht) as [j Hj].
      unfold _task_index in Htm. congruence. }
    unfold _ensure_task. rewrite Hfind. exists (ts ++ [new_task W tid]).
    f_equal. unfold _task_index. by rewrite index_from_snoc. }
  destruct (_task_index ts1 !! tid) as [j|]; [|done].
  destruct (_ && _); cbn [fst snd]; [|done].
  unfold _task_index. symmetry. apply index_from_keys. by apply fmap_alter_key.
Qed.

Lemma repair_fold_exact xs ts :
  let st' := foldl (repair_task W) (ts, _task_index ts) xs in
  st'.2 = _task_index st'.1.
Proof.
  revert ts. induction xs as [|x xs IH]; intros ts; cbn [foldl]; [done|].
  pose proof (repair_task_exact ts x) as Hstep. cbv zeta in Hstep.
  destruct (repair_task W (ts, _task_index ts) x) as [ts1 tm1]. cbn [fst snd] in Hstep.
  subst tm1. apply IH.
Qed.

(** After the fold every asset finds its task through the task map, and the
    task lists the asset. *)
Lemma repair_fold_listed xs ts tm :
  map_sound ts tm →
  let st' := foldl (repair_task W) (ts, tm) xs in
  ∀ a, a ∈ xs →
    ∃ j t, st'.2 !! Asset.task_id (repair_asset a) = Some j
           ∧ st'.1 !! j = Some t
           ∧ (Asset.asset_id a ≠ "" → Asset.asset_id a ∈ Task.asset_ids t).
Proof.
  revert ts tm. induction xs as [|x xs IH]; intros ts tm Hsound; cbn [foldl].
  - intros a Ha. by apply elem_of_nil in Ha.
  - destruct (repair_task_step W 0 ts tm x Hsound)
      as (Hs1 & Hg1 & j & t & Hj & Ht & Hid & Hin).
    destruct (repair_task W (ts, tm) x) as [ts1 tm1] eqn:Hstep. cbn [fst snd] in *.
    destruct (repair_fold W 0 xs ts1 tm1 Hs1) as (_ & (Hmap & Hts & _) & _).
    intros a [->|Ha]%elem_of_cons; [|by apply IH].
    cbn [fst snd] in Hmap, Hts.
    destruct (Hts _ _ Ht) as (t' & Ht' & _ & _ & Hids).
    exists j, t'. split_and!; [by apply Hmap|done|]. intros Hne. by apply Hids, Hin.
Qed.

Lemma repair_task_noop ts tm a j t :
  tm !! Asset.task_id (repair_asset a) = Some j → ts !! j = Some t →
  (Asset.asset_id a ≠ "" → Asset.asset_id a ∈ Task.asset_ids t) →
  repair_task W (ts, tm) a = (ts, tm).
Proof.
  intros Hj Ht Hin. unfold repair_task. rewrite Hj. rewrite Hj, Ht.
  cbn [from_option]. destruct (decide (Asset.asset_id a = "")) as [He|Hne].
  - by rewrite (bool_decide_true _ He).
  - rewrite (bool_decide_true (_ ∈ _)) by auto. by rewrite andb_false_r.
Qed.

Lemma repair_fold_noop xs ts tm :
  (∀ a, a ∈ xs →
     ∃ j t, tm !! Asset.task_id (repair_asset a) = Some j ∧ ts !! j = Some t
            ∧ (Asset.asset_id a ≠ "" → Asset.asset_id a ∈ Task.asset_ids t)) →
  foldl (repair_task W) (ts, tm) xs = (ts, tm).
Proof.
  induction xs as [|x xs IH]; intros Hall; cbn [foldl]; [done|].
  destruct (Hall x ltac:(by left)) as (j & t & Hj & Ht & Hin).
  rewrite (repair_task_noop ts tm x j t Hj Ht Hin). apply IH.
  intros a Ha. apply Hall. by right.
Qed.

End RepairAgain.

Section FinalizeAgain.
Variables (W : World) (now' : string).

Lemma asset_exists_at_time a : _asset_exists (at_time now' W) a = _asset_exists W a.
Proof. reflexivity. Qed.

Lemma audit_asset_at_time audit a ex :
  audit_asset (at_time now' W) audit a ex = audit_asset W audit a ex.
Proof. reflexivity. Qed.

Lemma finalize_asset_again audit a :
  finalize_asset (at_time now' W) audit (finalize_asset W audit a)
  = finalize_asset W audit a.
Proof.
  assert (∀ b, finalize_asset (at_time now' W) audit b = finalize_asset W audit b) as ->
    by reflexivity.
  assert (_asset_exists W (finalize_asset W audit a) = _asset_exists W a) as Hex.
  { apply asset_exists_ext; unfold finalize_asset;
      destruct (_asset_exists W a) as [[ex reason] matched];
      destruct (audit_asset W audit _ ex) as [corrupt corrupt_reason];
      unfold store_matched; by destruct matched, a. }
  unfold finalize_asset at 1. rewrite Hex.
  unfold finalize_asset.
  destruct (_asset_exists W a) as [[ex reason] matched].
  set (a1 := store_matched matched (Asset.set_exists ex (Some reason) a)).
  assert (store_matched matched
            (Asset.set_exists ex (Some reason)
               (let '(corrupt, corrupt_reason) := audit_asset W audit a1 ex in
                Asset.set_status (Some (asset_status
                                         (Asset.set_corrupt corrupt corrupt_reason a1)
                                         ex corrupt))
                  (Asset.set_corrupt corrupt corrupt_reason a1)))
          = (let '(corrupt, corrupt_reason) := audit_asset W audit a1 ex in
             Asset.set_status (Some (asset_status
                                       (Asset.set_corrupt corrupt corrupt_reason a1)
                                       ex corrupt))
               (Asset.set_corrupt corrupt corrupt_reason a1))) as Hstore.
  { destruct (audit_asset W audit a1 ex) as [corrupt corrupt_reason].
    unfold a1, store_matched. by destruct matched, a. }
  cbv zeta in Hstore |- *.
  destruct (audit_asset W audit a1 ex) as [corrupt corrupt_reason] eqn:Haudit.
  rewrite Hstore.
  assert (audit_asset W audit
            (Asset.set_status (Some (asset_status
                                       (Asset.set_corrupt corrupt corrupt_reason a1)
                                       ex corrupt))
               (Asset.set_corrupt corrupt corrupt_reason a1)) ex
          = (corrupt, corrupt_reason)) as ->.
  { rewrite <- Haudit. apply audit_asset_ext; unfold a1, store_matched;
      by destruct matched, a. }
  unfold a1, store_matched, asset_status, Asset.location_declared.
  by destruct matched, a.
Qed.

Lemma repair_asset_finalized audit a :
  repair_asset (finalize_asset W audit (repair_asset a))
  = finalize_asset W audit (repair_asset a).
Proof.
  destruct (finalize_asset_fields W audit (repair_asset a))
    as (_ & _ & _ & _ & _ & _ & Htid & _).
  destruct (repair_asset_fields a) as (_ & _ & _ & _ & _ & _ & _ & _ & _ & _ & Hne).
  unfold repair_asset at 1. rewrite bool_decide_false; [done|]. by rewrite Htid.
Qed.

Lemma str_or_unknown_again p :
  p ≠ "failed" →
  let q := str_or (Some p) "unknown" in
  q ≠ "failed" ∧ str_or (Some q) "unknown" = q
  ∧ (p ∉ [""; "expected"; "running"; "produced"] →
     q ∉ [""; "expected"; "running"; "produced"]).
Proof.
  intros Hp. unfold str_or, str_truthy. destruct p as [|c p]; cbn [default].
  - split_and!; [done|done|]. intros Hno. destruct Hno. by left.
  - split_and!; done.
Qed.

Lemma rollup_again p r : rollup (rollup p r) r = rollup p r.
Proof.
  unfold rollup. destruct (bool_decide (p = "failed")) eqn:Hp; [done|].
  apply bool_decide_eq_false in Hp.
  destruct (str_or_unknown_again p Hp) as (Hq & Hqq & Hqin). cbv zeta in Hq, Hqq, Hqin.
  destruct (nonempty r) eqn:Hr.
  - destruct (bool_decide ("failed" ∈ r)) eqn:H1; [done|].
    destruct (bool_decide ("missing" ∈ r)) eqn:H2; [done|].
    destruct (bool_decide ("corrupt" ∈ r)) eqn:H3; [done|].
    destruct (bool_decide ("unknown" ∈ r)) eqn:H4; [done|].
    destruct (bool_decide (Forall (λ st, st = "ok") r)) eqn:H5; [done|].
    by rewrite (bool_decide_false _ Hq).
  - destruct (bool_decide (p ∈ [""; "expected"; "running"; "produced"])) eqn:H1; [done|].
    apply bool_decide_eq_false in H1.
    by rewrite (bool_decide_false _ Hq), (bool_decide_false _ (Hqin H1)).
Qed.

Lemma finalize_task_again m xs t :
  utc_now_iso W ≠ "" →
  finalize_task (at_time now' W) m xs (finalize_task W m xs t) = finalize_task W m xs t
  ∧ final_status m xs (finalize_task W m xs t) = final_status m xs t.
Proof.
  intros Hclock.
  assert (final_status m xs (finalize_task W m xs t) = final_status m xs t) as Hfs.
  { destruct (finalize_task_fields W m xs t) as (_ & Hids & Hst).
    unfold final_status at 1. unfold required_assets. rewrite Hids, Hst.
    unfold final_status, required_assets.
    set (r := status_of <$> _). set (p := str_or (Task.status t) "").
    assert (str_or (Some (rollup p r)) "" = rollup p r) as ->.
    { unfold str_or, str_truthy. by destruct (rollup p r). }
    apply rollup_again. }
  split; [|done]. set (t1 := finalize_task W m xs t) in *.
  assert (Task.finished_at t1 = Some (str_or (Task.finished_at t) (utc_now_iso W)))
    as Hfin by done.
  assert (Task.status t1 = Some (final_status m xs t)) as Hst by done.
  assert (∀ x, Task.set_finished_at (Task.finished_at x)
                 (Task.set_status (Task.status x) x) = x) as Heta by (by intros []).
  rewrite <- (Heta t1) at 2. unfold finalize_task.
  rewrite Hfs, Hst, Hfin. do 2 f_equal. cbn [utc_now_iso at_time].
  unfold str_or at 1.
  assert (str_truthy (Some (str_or (Task.finished_at t) (utc_now_iso W))) = true) as ->;
    [|done].
  pose proof (str_or_nonempty (Task.finished_at t) _ Hclock) as Hne.
  unfold str_truthy. by destruct (str_or (Task.finished_at t) (utc_now_iso W)).
Qed.

End FinalizeAgain.

Lemma finalize_rest W c args c' code :
  _cmd_finalize W c args = Val (c', code) →
  completed_at (run_meta c') = Some (utc_now_iso W)
  ∧ output_location (run_meta c')
    = (if str_truthy (fa_output_location args) then fa_output_location args
       else output_location (run_meta c))
  ∧ preflight c' = preflight c
  ∧ ∃ rep merged,
      verification c' = Some rep ∧ v_merged rep = merged
      ∧ (fa_verification_json args = None ∧ merged = ∅
         ∨ fa_verification_json args = Some (JObj merged)).
Proof.
  unfold _cmd_finalize, assets_after, tasks_repaired, repair. simpl.
  destruct (fa_verification_json args) as [[]|] eqn:Hv; simpl; try discriminate;
    intros [= <- <-]; simpl; split_and!; try reflexivity; eexists _, _;
    (split; [reflexivity|split; [reflexivity|eauto]]).
Qed.

Section FinalizeRepeat.
Variables (W : World) (now' : string) (c : Contract) (args : FinalizeArgs).
Variables (c1 : Contract) (code : Z).
Hypothesis Hrun : _cmd_finalize W c args = Val (c1, code).

#[local] Abbreviation audit := (_parse_bool (fa_audit_corruption args) true).
#[local] Abbreviation W' := (at_time now' W).

Lemma finalized_asset_index : _asset_index (assets c1) = _asset_index (assets c).
Proof.
  unfold _asset_index. apply index_from_keys.
  by destruct (finalize_ids _ _ _ _ _ Hrun) as [_ ->].
Qed.

Lemma finalized_assets_shape a :
  a ∈ assets c1 → ∃ a0, a0 ∈ assets c ∧ a = finalize_asset W audit (repair_asset a0).
Proof.
  destruct (finalize_Val _ _ _ _ _ Hrun) as (-> & _). unfold assets_after.
  intros (b & -> & (a0 & -> & Ha0)%list_elem_of_fmap)%list_elem_of_fmap. by exists a0.
Qed.

Lemma finalized_repair : repair W' (tasks c1) (assets c1) = (tasks c1, assets c1).
Proof.
  unfold repair. f_equal.
  - rewrite repair_fold_noop; [done|]. intros a Ha.
    destruct (finalized_assets_shape a Ha) as (a0 & Ha0 & ->).
    rewrite repair_asset_finalized.
    destruct (finalize_asset_fields W audit (repair_asset a0))
      as (_ & _ & _ & _ & _ & -> & -> & _).
    destruct (repair_asset_fields a0) as (-> & _).
    pose proof (repair_fold_listed W (assets c) (tasks c) (_task_index (tasks c))
                  (task_index_sound (tasks c)) a0 Ha0) as (j & t & Hj & Ht & Hin).
    pose proof (repair_fold_exact W (assets c) (tasks c)) as Hexact.
    cbv zeta in Hexact. rewrite Hexact in Hj.
    destruct (finalize_Val _ _ _ _ _ Hrun) as (_ & Hts & _).
    unfold tasks_repaired, repair in Hts. cbn [fst] in Hts.
    set (ts1 := (foldl (repair_task W) (tasks c, _task_index (tasks c)) (assets c)).1)
      in *.
    exists j, (finalize_task W (_asset_index (assets c)) (assets_after W c args) t).
    split_and!.
    + rewrite Hts. unfold _task_index in *.
      rewrite (index_from_keys Task.task_id _ ts1); [done|].
      rewrite <- list_fmap_compose. by apply list_fmap_ext.
    + by rewrite Hts, list_lookup_fmap, Ht.
    + done.
  - apply list_eq. intros i. rewrite list_lookup_fmap.
    destruct (assets c1 !! i) as [a|] eqn:Ha; [|done]. cbn.
    destruct (finalized_assets_shape a (list_elem_of_lookup_2 _ _ _ Ha)) as (a0 & _ & ->).
    by rewrite repair_asset_finalized.
Qed.

Lemma finalized_assets_again : finalize_asset W' audit <$> assets c1 = assets c1.
Proof.
  apply list_eq. intros i. rewrite list_lookup_fmap.
  destruct (assets c1 !! i) as [a|] eqn:Ha; [|done]. cbn.
  destruct (finalized_assets_shape a (list_elem_of_lookup_2 _ _ _ Ha)) as (a0 & _ & ->).
  by rewrite finalize_asset_again.
Qed.

End FinalizeRepeat.
